(** * Zantoras Evidence Replay Engine: chain verification

    A shallow embedding of [go/cmd/replay/main.go] and the properties of
    its hash-chain verifier.  The verifier is modelled from the point
    where the export has been read and decoded; the command line, the
    reading and the decoding are modelled around it, with [os.ReadFile]
    and [json.Unmarshal] as fields of an environment.

    - Go strings are byte sequences: they are modelled as [string] (a
      list of 8-bit [ascii]), so [String.length] is Go's [len] and
      slicing is by byte.
    - The integers of the export ([int64], [uint16], [int]) are only ever
      formatted, never computed with: they are [Z], with the ranges of
      their Go types as predicates.  The two counters of the loop are
      [nat]: they never exceed the number of blobs.
    - [verifyEvidence] prints, counts, may call [os.Exit] and may panic
      on a slice: it is written in a state-and-result monad [M] whose
      state holds the two counters and the lines printed so far.
    - [crypto/sha256] and the verbs of [fmt.Sprintf] that the program
      uses belong to the Go standard library; they are modelled as
      executable functions (SHA-256 after FIPS 180-4, on [Z] with the
      32-bit wrap-around written out) and checked on test vectors. *)

From Stdlib Require Import ZArith Ascii String.
From Stdlib Require Floats.PrimFloat.
From stdpp Require Import base tactics option list strings pretty finite gmap.

Local Open Scope Z_scope.

(** ** Bytes *)

Definition byte : Type := ascii.

Definition byte_to_Z (b : byte) : Z := Z.of_N (N_of_ascii b).
Definition byte_of_Z (z : Z) : byte := ascii_of_N (Z.to_N (z mod 256)).

(** [[]byte(s)]: the bytes of a Go string. *)
Definition bytes_of_string (s : string) : list byte := list_ascii_of_string s.

(** ** crypto/sha256 (Go standard library, FIPS 180-4) *)

Module SHA256.

Definition chunk : nat := 64.

(** [uint32] and [uint64] arithmetic wraps around. *)
Definition u32 (x : Z) : Z := x mod 2 ^ 32.
Definition u64 (x : Z) : Z := x mod 2 ^ 64.

Definition add32 (x y : Z) : Z := u32 (x + y).

(** [bits.RotateLeft32(x, -n)]. *)
Definition rotr (x n : Z) : Z :=
  Z.lor (Z.shiftr x n) (u32 (Z.shiftl x (32 - n))).

(** [^x] on a [uint32]. *)
Definition not32 (x : Z) : Z := Z.lxor x 0xffffffff.

(** The round constants [_K], written in base 10 (the first 32 bits of the
    fractional parts of the cube roots of the first 64 primes, from
    1116352408 = 0x428a2f98 to 3329325298 = 0xc67178f2). *)
Definition _K : list Z :=
  [
    1116352408; 1899447441; 3049323471; 3921009573; 961987163; 1508970993;
    2453635748; 2870763221; 3624381080; 310598401; 607225278; 1426881987;
    1925078388; 2162078206; 2614888103; 3248222580; 3835390401; 4022224774;
    264347078; 604807628; 770255983; 1249150122; 1555081692; 1996064986;
    2554220882; 2821834349; 2952996808; 3210313671; 3336571891; 3584528711;
    113926993; 338241895; 666307205; 773529912; 1294757372; 1396182291;
    1695183700; 1986661051; 2177026350; 2456956037; 2730485921; 2820302411;
    3259730800; 3345764771; 3516065817; 3600352804; 4094571909; 275423344;
    430227734; 506948616; 659060556; 883997877; 958139571; 1322822218;
    1537002063; 1747873779; 1955562222; 2024104815; 2227730452; 2361852424;
    2428436474; 2756734187; 3204031479; 3329325298
  ].

(** The eight chaining words [h[0..7]] of a [digest]. *)
Record digest : Type := Digest {
  h0 : Z; h1 : Z; h2 : Z; h3 : Z; h4 : Z; h5 : Z; h6 : Z; h7 : Z
}.

Definition init : digest :=
  Digest 0x6a09e667 0xbb67ae85 0x3c6ef372 0xa54ff53a
         0x510e527f 0x9b05688c 0x1f83d9ab 0x5be0cd19.

(** Big-endian decoding of the sixteen message words of one chunk. *)
Fixpoint be32_words (n : nat) (p : list Z) : list Z :=
  match n with
  | O => []
  | S n' =>
      match p with
      | b0 :: b1 :: b2 :: b3 :: rest =>
          Z.lor (Z.lor (Z.lor (Z.shiftl b0 24) (Z.shiftl b1 16))
                       (Z.shiftl b2 8)) b3
          :: be32_words n' rest
      | _ => 0 :: be32_words n' []
      end
  end.

Definition w_at (w : list Z) (i : nat) : Z := nth i w 0.

(** [w[i] = t1 + w[i-7] + t2 + w[i-16]] for [i] from 16 to 63. *)
Definition schedule_step (w : list Z) (i : nat) : list Z :=
  let v1 := w_at w (i - 2) in
  let t1 := Z.lxor (Z.lxor (rotr v1 17) (rotr v1 19)) (Z.shiftr v1 10) in
  let v2 := w_at w (i - 15) in
  let t2 := Z.lxor (Z.lxor (rotr v2 7) (rotr v2 18)) (Z.shiftr v2 3) in
  w ++ [add32 (add32 (add32 t1 (w_at w (i - 7))) t2) (w_at w (i - 16))].

Definition schedule (p : list Z) : list Z :=
  fold_left schedule_step (seq 16 48) (be32_words 16 p).

(** One of the 64 rounds on the working variables [a..h]. *)
Definition round (v : digest) (kw : Z * Z) : digest :=
  let '(Digest a b c d e f g h) := v in
  let t1 :=
    add32 (add32 (add32 (add32 h
      (Z.lxor (Z.lxor (rotr e 6) (rotr e 11)) (rotr e 25)))
      (Z.lxor (Z.land e f) (Z.land (not32 e) g)))
      (fst kw)) (snd kw) in
  let t2 :=
    add32 (Z.lxor (Z.lxor (rotr a 2) (rotr a 13)) (rotr a 22))
          (Z.lxor (Z.lxor (Z.land a b) (Z.land a c)) (Z.land b c)) in
  Digest (add32 t1 t2) a b c (add32 d t1) e f g.

(** The body of [blockGeneric] for one 64-byte chunk. *)
Definition block1 (d : digest) (p : list Z) : digest :=
  let v := fold_left round (combine _K (schedule p)) d in
  Digest (add32 (h0 d) (h0 v)) (add32 (h1 d) (h1 v))
         (add32 (h2 d) (h2 v)) (add32 (h3 d) (h3 v))
         (add32 (h4 d) (h4 v)) (add32 (h5 d) (h5 v))
         (add32 (h6 d) (h6 v)) (add32 (h7 d) (h7 v)).

(** [for len(p) >= chunk { ...; p = p[chunk:] }]. *)
Fixpoint block (nblocks : nat) (d : digest) (p : list Z) : digest :=
  match nblocks with
  | O => d
  | S n => block n (block1 d (firstn chunk p)) (skipn chunk p)
  end.

Definition be_bytes (nbytes : nat) (x : Z) : list Z :=
  map (fun i => Z.land (Z.shiftr x (8 * Z.of_nat i)) 0xff)
      (rev (seq 0 nbytes)).

(** The padding written by [checkSum]: 0x80, zeros up to 56 mod 64, then
    the length in bits as a big-endian [uint64]. *)
Definition padding (len : nat) : list Z :=
  let r := (len mod 64)%nat in
  let t := if (r <? 56)%nat then (56 - r)%nat else (64 + 56 - r)%nat in
  0x80 :: repeat 0 (t - 1) ++ be_bytes 8 (u64 (Z.shiftl (Z.of_nat len) 3)).

Definition checkSum (data : list Z) : digest :=
  let p := data ++ padding (length data) in
  block (length p / chunk) init p.

Definition digest_bytes (d : digest) : list Z :=
  be_bytes 4 (h0 d) ++ be_bytes 4 (h1 d) ++ be_bytes 4 (h2 d) ++
  be_bytes 4 (h3 d) ++ be_bytes 4 (h4 d) ++ be_bytes 4 (h5 d) ++
  be_bytes 4 (h6 d) ++ be_bytes 4 (h7 d).

(** [sha256.Sum256(data)]: the 32-byte checksum. *)
Definition Sum256 (data : list byte) : list byte :=
  map byte_of_Z (digest_bytes (checkSum (map byte_to_Z data))).

End SHA256.

(** ** fmt.Sprintf, for the verbs the program uses *)

(** [ldigits] of package fmt. *)
Definition ldigits : string := "0123456789abcdefx".

Definition digit_at (n : N) : ascii :=
  default "?"%char (String.get (N.to_nat n) ldigits).

(** [%x] on a byte: two lowercase hexadecimal digits, high nibble first. *)
Definition hex_byte (b : byte) : string :=
  let c := N_of_ascii b in
  String (digit_at (N.shiftr c 4)) (String (digit_at (N.land c 0xF)) "").

Fixpoint fmtSbx (bs : list byte) : string :=
  match bs with
  | [] => ""
  | b :: rest => hex_byte b +:+ fmtSbx rest
  end.

(** [%d] on an integer: base 10, a minus sign for negative values. *)
Definition fmtInteger (z : Z) : string := pretty z.

(** Arguments of a [Sprintf] call. *)
Inductive Arg : Type :=
  | AString (s : string)
  | AInt (z : Z)
  | ABytes (bs : list byte).

Definition typeName (a : Arg) : string :=
  match a with
  | AString _ => "string"
  | AInt _ => "int"
  | ABytes _ => "[]uint8"
  end.

(** [%v]: the default rendering, used inside the bad-verb marker. *)
Definition fmtDefault (a : Arg) : string :=
  match a with
  | AString s => s
  | AInt z => fmtInteger z
  | ABytes bs => fmtSbx bs
  end.

(** One verb applied to one operand.  [%s], [%d] and [%x] are the verbs of
    the program; a verb that does not fit its operand prints fmt's
    [%!verb(type=value)] marker. *)
Definition printArg (verb : ascii) (a : Arg) : string :=
  match verb, a with
  | "s"%char, AString s => s
  | "d"%char, AInt z => fmtInteger z
  | "x"%char, ABytes bs => fmtSbx bs
  | "x"%char, AString s => fmtSbx (bytes_of_string s)
  | _, _ =>
      "%!" +:+ String verb ("(" +:+ typeName a +:+ "=" +:+ fmtDefault a +:+ ")")
  end.

Fixpoint Sprintf (format : string) (args : list Arg) : string :=
  match format with
  | "" =>
      match args with
      | [] => ""
      | a :: _ => "%!(EXTRA " +:+ typeName a +:+ "=" +:+ fmtDefault a +:+ ")"
      end
  | String "%" "" => "%!(NOVERB)"
  | String "%" (String "%" rest) => String "%" (Sprintf rest args)
  | String "%" (String verb rest) =>
      match args with
      | a :: args' => printArg verb a +:+ Sprintf rest args'
      | [] => "%!" +:+ String verb ("(MISSING)" +:+ Sprintf rest [])
      end
  | String c rest => String c (Sprintf rest args)
  end.

(** ** The export format *)

Record NetFlowRecord : Type := {
  Timestamp : Z;       (* int64 *)
  SrcIP : string;
  DstIP : string;
  SrcPort : Z;         (* uint16 *)
  DstPort : Z;         (* uint16 *)
  Protocol : string;
  BytesSent : Z;       (* int64 *)
  PacketCount : Z;     (* int64 *)
  Payload : string
}.

(** The blob's own [Timestamp] field is [BlobTimestamp] here, since the
    record's field already has that name. *)
Record NetFlowBlob : Type := {
  BlobID : string;
  BlobTimestamp : Z;   (* int64 *)
  Record_ : NetFlowRecord;
  PreviousHash : string;
  Hash : string;
  DeviationScore : PrimFloat.float;   (* float64 *)
  IsAnomaly : bool
}.

(** [TimeRange] is [None] for a nil map. *)
Record EvidenceExport : Type := {
  Version : string;
  ExportedAt : string;
  ExportedBy : string;
  ChainHash : string;
  BlobCount : Z;       (* int *)
  FirstBlobHash : string;
  LastBlobHash : string;
  TimeRange : option (gmap string string);
  Blobs : list NetFlowBlob
}.

Definition is_int64 (z : Z) : Prop := - 2 ^ 63 <= z < 2 ^ 63.
Definition is_uint16 (z : Z) : Prop := 0 <= z < 2 ^ 16.

(** The values a decoded export can hold. *)
Definition valid_record (r : NetFlowRecord) : Prop :=
  is_int64 (Timestamp r) /\ is_uint16 (SrcPort r) /\ is_uint16 (DstPort r)
  /\ is_int64 (BytesSent r) /\ is_int64 (PacketCount r).

Definition valid_blob (b : NetFlowBlob) : Prop :=
  is_int64 (BlobTimestamp b) /\ valid_record (Record_ b).

Definition valid_export (e : EvidenceExport) : Prop :=
  is_int64 (BlobCount e) /\ Forall valid_blob (Blobs e).

(** ** Standard output, exits and run-time panics *)

(** The lines the verifier prints, one constructor per [Printf] that
    carries data (banners, colours and the wall-clock "Verified At" line
    are left out).  Blob numbers are printed one-based. *)
Inductive Line : Type :=
  | ParsedOK (version exportedAt exportedBy : string) (blobCount : Z)
  | TimeRangeLine (start end_ : string)
  | HashMismatchAt (blobNo : nat)
  | ExpectedHash (s : string)
  | ComputedHash (s : string)
  | ChainBreakAt (blobNo : nat)
  | ExpectedPrev (s : string)
  | ActualPrev (s : string)
  | AllHashesVerified (total : nat)
  | HashErrorsSummary (errors total : nat)
  | LinkageIntact
  | ChainBreaksSummary (breaks : nat)
  | StoredChainHash (s : string)
  | ComputedChainHash (s : string)
  | ChainHashVerified
  | ChainHashMismatch
  | ResultVerified (chainHash : string) (blobs : nat)
  | ResultFailed (chainHash : string) (blobs hashErrors chainBreaks : nat)
                 (chainHashMatch : bool).

Inductive RuntimeError : Type :=
  | SliceBoundsOutOfRange (high len : nat)
  | IndexOutOfRange (index len : nat).

(** How a computation ends: it returns, it calls [os.Exit], or it panics
    (the Go runtime then ends the process with status 2). *)
Inductive Res (A : Type) : Type :=
  | Done (a : A)
  | Exit (code : Z)
  | Panic (err : RuntimeError).
Arguments Done {A} a.
Arguments Exit {A} code.
Arguments Panic {A} err.

(** The mutable state of [verifyEvidence]: its two counters and what has
    been printed so far.  The state is kept when the run stops early. *)
Record St : Type := {
  blobHashErrors : nat;
  chainErrors : nat;
  stdout : list Line
}.

Definition M (A : Type) : Type := St -> St * Res A.

Global Instance M_ret : MRet M := fun A a st => (st, Done a).

Global Instance M_bind : MBind M := fun A B k m st =>
  match m st with
  | (st', Done a) => k a st'
  | (st', Exit c) => (st', Exit c)
  | (st', Panic err) => (st', Panic err)
  end.

Definition panic {A} (err : RuntimeError) : M A := fun st => (st, Panic err).
Definition osExit {A} (code : Z) : M A := fun st => (st, Exit code).

Definition Printf (l : Line) : M unit :=
  fun st =>
    ({| blobHashErrors := blobHashErrors st;
        chainErrors := chainErrors st;
        stdout := stdout st ++ [l] |}, Done tt).

Definition incrBlobHashErrors : M unit :=
  fun st =>
    ({| blobHashErrors := S (blobHashErrors st);
        chainErrors := chainErrors st;
        stdout := stdout st |}, Done tt).

Definition incrChainErrors : M unit :=
  fun st =>
    ({| blobHashErrors := blobHashErrors st;
        chainErrors := S (chainErrors st);
        stdout := stdout st |}, Done tt).

Definition getBlobHashErrors : M nat := fun st => (st, Done (blobHashErrors st)).
Definition getChainErrors : M nat := fun st => (st, Done (chainErrors st)).

Definition when (c : bool) (m : M unit) : M unit := if c then m else mret tt.

(** [s[:n]] panics when [n] exceeds [len(s)]. *)
Definition sliceTo (s : string) (n : nat) : M string :=
  if (n <=? String.length s)%nat then mret (substring 0 n s)
  else panic (SliceBoundsOutOfRange n (String.length s)).

(** [for i, x := range l], started at index [i]. *)
Fixpoint forRange {A} (body : nat -> A -> M unit) (i : nat) (l : list A) : M unit :=
  match l with
  | [] => mret tt
  | x :: l' => body i x ;; forRange body (S i) l'
  end.

(** The exit status the operating system sees. *)
Definition exitStatus {A} (r : Res A) : Z :=
  match r with
  | Done _ => 0
  | Exit code => code
  | Panic _ => 2
  end.

(** ** The verifier *)

(** Lines 155-158: the string that is hashed for one blob. *)
Definition hashInput (blob : NetFlowBlob) : string :=
  Sprintf "%s|%s|%d|%d|%s|%d|%d|%d|%s"
    [ AString (SrcIP (Record_ blob)); AString (DstIP (Record_ blob));
      AInt (SrcPort (Record_ blob)); AInt (DstPort (Record_ blob));
      AString (Protocol (Record_ blob)); AInt (Timestamp (Record_ blob));
      AInt (BytesSent (Record_ blob)); AInt (PacketCount (Record_ blob));
      AString (PreviousHash blob) ].

(** Lines 159-160. *)
Definition computedHash (blob : NetFlowBlob) : string :=
  let hashBytes := SHA256.Sum256 (bytes_of_string (hashInput blob)) in
  Sprintf "%x" [ABytes hashBytes].

(** Lines 162-169: the hash check of the blob at index [i]. *)
Definition checkBlobHash (i : nat) (blob : NetFlowBlob) : M unit :=
  if decide (computedHash blob ≠ Hash blob) then
    incrBlobHashErrors ;;
    n ← getBlobHashErrors;
    when (n <=? 3)%nat (
      Printf (HashMismatchAt (i + 1)) ;;
      expected ← sliceTo (Hash blob) 32;
      Printf (ExpectedHash (expected +:+ "...")) ;;
      computed ← sliceTo (computedHash blob) 32;
      Printf (ComputedHash (computed +:+ "...")))
  else mret tt.

(** [export.Blobs[j]] panics outside the slice. *)
Definition blobAt (export : EvidenceExport) (j : nat) : M NetFlowBlob :=
  match Blobs export !! j with
  | Some b => mret b
  | None => panic (IndexOutOfRange j (length (Blobs export)))
  end.

(** Lines 171-182: the linkage check of the blob at index [i]. *)
Definition checkLinkage (export : EvidenceExport) (i : nat) (blob : NetFlowBlob)
    : M unit :=
  if (0 <? i)%nat then
    prev ← blobAt export (i - 1);
    let expectedPrevHash := Hash prev in
    if decide (PreviousHash blob ≠ expectedPrevHash) then
      incrChainErrors ;;
      n ← getChainErrors;
      when (n <=? 3)%nat (
        Printf (ChainBreakAt (i + 1)) ;;
        expected ← sliceTo expectedPrevHash 32;
        Printf (ExpectedPrev (expected +:+ "...")) ;;
        actual ← sliceTo (PreviousHash blob) 32;
        Printf (ActualPrev (actual +:+ "...")))
    else mret tt
  else mret tt.

(** Lines 153-183. *)
Definition loopBody (export : EvidenceExport) (i : nat) (blob : NetFlowBlob)
    : M unit :=
  checkBlobHash i blob ;; checkLinkage export i blob.

Definition verifyBlobs (export : EvidenceExport) : M unit :=
  forRange (loopBody export) 0 (Blobs export).

(** Lines 185-195. *)
Definition printSummaries (export : EvidenceExport) : M unit :=
  hashErrors ← getBlobHashErrors;
  (if (hashErrors =? 0)%nat
   then Printf (AllHashesVerified (length (Blobs export)))
   else Printf (HashErrorsSummary hashErrors (length (Blobs export)))) ;;
  breaks ← getChainErrors;
  if (breaks =? 0)%nat then Printf LinkageIntact
  else Printf (ChainBreaksSummary breaks).

(** Lines 199-202: the [strings.Builder] loop. *)
Definition chainHashInput (export : EvidenceExport) : string :=
  fold_left (fun acc blob => acc +:+ Hash blob) (Blobs export) "".

(** Lines 203-204. *)
Definition computedChainHash (export : EvidenceExport) : string :=
  let chainHashBytes :=
    SHA256.Sum256 (bytes_of_string (chainHashInput export)) in
  Sprintf "%x" [ABytes chainHashBytes].

(** Lines 198-215; returns [chainHashMatch]. *)
Definition verifyChainHash (export : EvidenceExport) : M bool :=
  let chainHashMatch :=
    bool_decide (computedChainHash export = ChainHash export) in
  stored ← sliceTo (ChainHash export) 32;
  Printf (StoredChainHash (stored +:+ "...")) ;;
  computed ← sliceTo (computedChainHash export) 32;
  Printf (ComputedChainHash (computed +:+ "...")) ;;
  (if chainHashMatch then Printf ChainHashVerified
   else Printf ChainHashMismatch) ;;
  mret chainHashMatch.

(** Lines 221-261. *)
Definition printVerificationResult (blobErrors chainErrs : nat)
    (chainHashMatch : bool) (export : EvidenceExport) : M unit :=
  if (blobErrors =? 0)%nat && (chainErrs =? 0)%nat && chainHashMatch then
    Printf (ResultVerified (ChainHash export) (length (Blobs export)))
  else
    Printf (ResultFailed (ChainHash export) (length (Blobs export))
                         blobErrors chainErrs chainHashMatch) ;;
    osExit 1.

(** Lines 138-146: the echo of the export's metadata. *)
Definition printMetadata (export : EvidenceExport) : M unit :=
  Printf (ParsedOK (Version export) (ExportedAt export) (ExportedBy export)
                   (BlobCount export)) ;;
  match TimeRange export with
  | Some tr =>
      Printf (TimeRangeLine (default "" (tr !! "start")) (default "" (tr !! "end")))
  | None => mret tt
  end.

(** Lines 148-218: the three checks and the verdict. *)
Definition verifyChain (export : EvidenceExport) : M unit :=
  verifyBlobs export ;;
  printSummaries export ;;
  chainHashMatch ← verifyChainHash export;
  hashErrors ← getBlobHashErrors;
  breaks ← getChainErrors;
  printVerificationResult hashErrors breaks chainHashMatch export.

(** [verifyEvidence] from the point where the file has been read and
    decoded into [export] (lines 138-219). *)
Definition verifyEvidence (export : EvidenceExport) : M unit :=
  printMetadata export ;; verifyChain export.

(** A run starts with both counters at zero and nothing printed. *)
Definition initial : St :=
  {| blobHashErrors := 0; chainErrors := 0; stdout := [] |}.

Definition run (export : EvidenceExport) : St * Res unit :=
  verifyEvidence export initial.

(** The verdict of a run, as the operator sees it. *)
Inductive Verdict : Type := Verified | Tampered | Crashed (err : RuntimeError).

Definition verdict (export : EvidenceExport) : Verdict :=
  match snd (run export) with
  | Done _ => Verified
  | Exit _ => Tampered
  | Panic err => Crashed err
  end.

(** ** The checks as the specification words them *)

(** The canonical hash input: the nine fields joined with ["|"]. *)
Definition canonicalInput (blob : NetFlowBlob) : string :=
  String.concat "|"
    [ SrcIP (Record_ blob); DstIP (Record_ blob);
      fmtInteger (SrcPort (Record_ blob)); fmtInteger (DstPort (Record_ blob));
      Protocol (Record_ blob); fmtInteger (Timestamp (Record_ blob));
      fmtInteger (BytesSent (Record_ blob));
      fmtInteger (PacketCount (Record_ blob));
      PreviousHash blob ].

(** SHA-256 of a string, as lowercase hexadecimal. *)
Definition sha256_hex (s : string) : string :=
  fmtSbx (SHA256.Sum256 (bytes_of_string s)).

Definition is_lower_hex (c : ascii) : bool :=
  let n := N_of_ascii c in
  ((48 <=? n)%N && (n <=? 57)%N) || ((97 <=? n)%N && (n <=? 102)%N).

Fixpoint all_chars (p : ascii -> bool) (s : string) : bool :=
  match s with
  | "" => true
  | String c rest => p c && all_chars p rest
  end.

(** The number of characters of a UTF-8 string: its bytes that are not
    continuation bytes (0x80 to 0xBF). *)
Definition is_continuation (c : ascii) : bool :=
  let n := N_of_ascii c in (128 <=? n)%N && (n <=? 191)%N.

Fixpoint utf8_length (s : string) : nat :=
  match s with
  | "" => 0
  | String c rest =>
      ((if is_continuation c then 0 else 1) + utf8_length rest)%nat
  end.

(** The blob at position [i] fails the hash check. *)
Definition mismatchAt (blobs : list NetFlowBlob) (i : nat) : Prop :=
  exists blob, blobs !! i = Some blob /\ sha256_hex (canonicalInput blob) <> Hash blob.

(** The blob at position [i] does not link to its predecessor. *)
Definition breakAt (blobs : list NetFlowBlob) (i : nat) : Prop :=
  (0 < i)%nat /\
  exists prev blob,
    blobs !! (i - 1)%nat = Some prev /\ blobs !! i = Some blob
    /\ PreviousHash blob <> Hash prev.

Definition chainHashOf (blobs : list NetFlowBlob) : string :=
  sha256_hex (String.concat "" (map Hash blobs)).

(** ** Failing positions and detail lines *)

(** The per-position tests of the loop, without the reporting. *)
Definition mismatchb (blob : NetFlowBlob) : bool :=
  bool_decide (computedHash blob ≠ Hash blob).

Definition breakb (blobs : list NetFlowBlob) (i : nat) (blob : NetFlowBlob) : bool :=
  match i with
  | O => false
  | S j =>
      match blobs !! j with
      | Some prev => bool_decide (PreviousHash blob ≠ Hash prev)
      | None => false
      end
  end.

(** The positions, in order, at which a test fires, for a list whose
    first element sits at position [i]. *)
Fixpoint positionsFrom (test : nat -> NetFlowBlob -> bool) (i : nat)
    (l : list NetFlowBlob) : list nat :=
  match l with
  | [] => []
  | blob :: l' =>
      (if test i blob then [i] else []) ++ positionsFrom test (S i) l'
  end.

Definition positions (test : nat -> NetFlowBlob -> bool) (blobs : list NetFlowBlob)
    : list nat :=
  positionsFrom test 0 blobs.

Definition mismatchPositions (blobs : list NetFlowBlob) : list nat :=
  positions (fun _ => mismatchb) blobs.

Definition breakPositions (blobs : list NetFlowBlob) : list nat :=
  positions (breakb blobs) blobs.

(** The blob numbers of the "hash mismatch" and of the "chain break"
    detail lines of an output. *)
Definition hashReports (out : list Line) : list nat :=
  omap (fun l => match l with HashMismatchAt n => Some n | _ => None end) out.

Definition breakReports (out : list Line) : list nat :=
  omap (fun l => match l with ChainBreakAt n => Some n | _ => None end) out.

(** ** What each stage does to the state *)

Definition setCounters (st : St) (hashErrs chainErrs : nat) (out : list Line) : St :=
  {| blobHashErrors := hashErrs; chainErrors := chainErrs;
     stdout := stdout st ++ out |}.

Definition metadataLines (export : EvidenceExport) : list Line :=
  ParsedOK (Version export) (ExportedAt export) (ExportedBy export)
           (BlobCount export)
  :: match TimeRange export with
     | Some tr =>
         [TimeRangeLine (default "" (tr !! "start")) (default "" (tr !! "end"))]
     | None => []
     end.

Definition summaryLines (export : EvidenceExport) (st : St) : list Line :=
  [ if (blobHashErrors st =? 0)%nat
    then AllHashesVerified (length (Blobs export))
    else HashErrorsSummary (blobHashErrors st) (length (Blobs export));
    if (chainErrors st =? 0)%nat then LinkageIntact
    else ChainBreaksSummary (chainErrors st) ].

Definition chainHashLines (export : EvidenceExport) : list Line :=
  [ StoredChainHash (substring 0 32 (ChainHash export) +:+ "...");
    ComputedChainHash (substring 0 32 (computedChainHash export) +:+ "...");
    if bool_decide (computedChainHash export = ChainHash export)
    then ChainHashVerified else ChainHashMismatch ].

(** Every detail line that the loop may have to print can be sliced. *)
Definition hashReportable (blobs : list NetFlowBlob) : Prop :=
  forall i blob, blobs !! i = Some blob -> mismatchb blob = true ->
    (32 <= String.length (Hash blob))%nat.

Definition linkReportable (blobs : list NetFlowBlob) : Prop :=
  forall j prev blob,
    blobs !! j = Some prev -> blobs !! S j = Some blob ->
    PreviousHash blob <> Hash prev ->
    (32 <= String.length (Hash prev))%nat
    /\ (32 <= String.length (PreviousHash blob))%nat.

(** Text already printed has no influence on a computation: it stays in
    front of whatever the computation prints. *)
Definition prepend (out : list Line) (st : St) : St :=
  {| blobHashErrors := blobHashErrors st; chainErrors := chainErrors st;
     stdout := out ++ stdout st |}.

Definition Framed {A} (m : M A) : Prop :=
  forall out st, m (prepend out st) = (prepend out (m st).1, (m st).2).

(** ** Tampering with one hash-input field of a record *)

(** A change of one of the eight record fields that enter the hash. *)
Inductive Mutation : Type :=
  | SetSrcIP (s : string)
  | SetDstIP (s : string)
  | SetSrcPort (z : Z)
  | SetDstPort (z : Z)
  | SetProtocol (s : string)
  | SetTimestamp (z : Z)
  | SetBytesSent (z : Z)
  | SetPacketCount (z : Z).

Definition applyMutation (m : Mutation) (r : NetFlowRecord) : NetFlowRecord :=
  let '(Build_NetFlowRecord ts sip dip sp dp proto bytes pkts payload) := r in
  match m with
  | SetSrcIP s => Build_NetFlowRecord ts s dip sp dp proto bytes pkts payload
  | SetDstIP s => Build_NetFlowRecord ts sip s sp dp proto bytes pkts payload
  | SetSrcPort z => Build_NetFlowRecord ts sip dip z dp proto bytes pkts payload
  | SetDstPort z => Build_NetFlowRecord ts sip dip sp z proto bytes pkts payload
  | SetProtocol s => Build_NetFlowRecord ts sip dip sp dp s bytes pkts payload
  | SetTimestamp z => Build_NetFlowRecord z sip dip sp dp proto bytes pkts payload
  | SetBytesSent z => Build_NetFlowRecord ts sip dip sp dp proto z pkts payload
  | SetPacketCount z => Build_NetFlowRecord ts sip dip sp dp proto bytes z payload
  end.

(** The blob with its record changed; the stored [Hash] and
    [PreviousHash] and every other field stay as they were. *)
Definition mutateBlob (m : Mutation) (b : NetFlowBlob) : NetFlowBlob :=
  {| BlobID := BlobID b; BlobTimestamp := BlobTimestamp b;
     Record_ := applyMutation m (Record_ b);
     PreviousHash := PreviousHash b; Hash := Hash b;
     DeviationScore := DeviationScore b; IsAnomaly := IsAnomaly b |}.

Definition withBlobs (e : EvidenceExport) (blobs : list NetFlowBlob)
    : EvidenceExport :=
  {| Version := Version e; ExportedAt := ExportedAt e;
     ExportedBy := ExportedBy e; ChainHash := ChainHash e;
     BlobCount := BlobCount e; FirstBlobHash := FirstBlobHash e;
     LastBlobHash := LastBlobHash e; TimeRange := TimeRange e;
     Blobs := blobs |}.

(** Two distinct strings with the same SHA-256 checksum. *)
Definition sha256_collision (x y : string) : Prop :=
  x <> y /\
  SHA256.Sum256 (bytes_of_string x) = SHA256.Sum256 (bytes_of_string y).

(** The linkage check reads only the stored [Hash] and [PreviousHash]. *)
Definition sameLinks (x y : NetFlowBlob) : Prop :=
  Hash x = Hash y /\ PreviousHash x = PreviousHash y.

(** ** Sealed blobs, bit strings and hexadecimal digits read back *)

(** A blob as its producer seals it: the stored hash is the hash of the
    blob. *)
Definition seal (b : NetFlowBlob) : NetFlowBlob :=
  {| BlobID := BlobID b; BlobTimestamp := BlobTimestamp b;
     Record_ := Record_ b; PreviousHash := PreviousHash b;
     Hash := computedHash b;
     DeviationScore := DeviationScore b; IsAnomaly := IsAnomaly b |}.

(** A sealed blob with a given source address and nothing else. *)
Definition probe (src : string) : NetFlowBlob :=
  seal {| BlobID := ""; BlobTimestamp := 0;
          Record_ := {| Timestamp := 0; SrcIP := src; DstIP := "";
                        SrcPort := 0; DstPort := 0; Protocol := "";
                        BytesSent := 0; PacketCount := 0; Payload := "" |};
          PreviousHash := ""; Hash := "";
          DeviationScore := PrimFloat.zero; IsAnomaly := false |}.

(** The export of one sealed blob, with its chain hash. *)
Definition probeExport (src : string) : EvidenceExport :=
  {| Version := ""; ExportedAt := ""; ExportedBy := "";
     ChainHash := chainHashOf [probe src];
     BlobCount := 1; FirstBlobHash := ""; LastBlobHash := "";
     TimeRange := None; Blobs := [probe src] |}.

(** A bit string written with the characters 0 and 1. *)
Definition bit_char (b : bool) : ascii := if b then "1"%char else "0"%char.

Fixpoint bit_string (l : list bool) : string :=
  match l with
  | [] => ""
  | b :: l' => String (bit_char b) (bit_string l')
  end.

(** The bits of the bytes of a string. *)
Fixpoint bits_of_string (s : string) : list bool :=
  match s with
  | "" => []
  | String (Ascii b0 b1 b2 b3 b4 b5 b6 b7) s' =>
      b0 :: b1 :: b2 :: b3 :: b4 :: b5 :: b6 :: b7 :: bits_of_string s'
  end.

Definition unhex_digit (c : ascii) : N :=
  let n := N_of_ascii c in
  if (n <=? 57)%N then (n - 48)%N else (n - 87)%N.

Definition unhex_byte (s : string) : byte :=
  match s with
  | String hi (String lo _) => ascii_of_N (16 * unhex_digit hi + unhex_digit lo)
  | _ => Ascii.zero
  end.

(** ** Fixtures *)

Definition genesisHash : string :=
  "0000000000000000000000000000000000000000000000000000000000000000".

Definition recordA : NetFlowRecord :=
  {| Timestamp := 1700000000; SrcIP := "10.0.0.1"; DstIP := "10.0.0.2";
     SrcPort := 443; DstPort := 51234; Protocol := "TCP";
     BytesSent := 1500; PacketCount := 10; Payload := "" |}.

Definition recordB : NetFlowRecord :=
  {| Timestamp := 1700000001; SrcIP := "10.0.0.2"; DstIP := "10.0.0.1";
     SrcPort := 51234; DstPort := 443; Protocol := "TCP";
     BytesSent := 900; PacketCount := 6; Payload := "ack" |}.

Definition mkBlob (id : string) (r : NetFlowRecord) (prev hash : string)
    : NetFlowBlob :=
  {| BlobID := id; BlobTimestamp := Timestamp r; Record_ := r;
     PreviousHash := prev; Hash := hash;
     DeviationScore := PrimFloat.zero; IsAnomaly := false |}.

Definition hashA : string :=
  "1b26166f939feaca8ce807232ab80c0f5740eb914a1d9baf4a9fccac267a8a61".
Definition hashB : string :=
  "5abc035b9e48c341102d4d7753633a72b7873261ad37426dcfa94e4bd0974e1d".
Definition chainHashAB : string :=
  "e03f0ead24db31652d92028cd4ecabd780c38ad9514690d585d33c3c2c270b06".

Definition blobA : NetFlowBlob := mkBlob "blob-a" recordA genesisHash hashA.
Definition blobB : NetFlowBlob := mkBlob "blob-b" recordB hashA hashB.

Definition mkExport (chainHash : string) (blobs : list NetFlowBlob)
    : EvidenceExport :=
  {| Version := "1.0"; ExportedAt := "2026-02-03T00:00:00Z";
     ExportedBy := "auditor"; ChainHash := chainHash;
     BlobCount := Z.of_nat (length blobs);
     FirstBlobHash := default "" (Hash <$> head blobs);
     LastBlobHash := default "" (Hash <$> last blobs);
     TimeRange := None; Blobs := blobs |}.

(** A well-formed chain of two blobs. *)
Definition goodExport : EvidenceExport := mkExport chainHashAB [blobA; blobB].

(** What the JSON document [{}] decodes to: every field at its zero
    value. *)
Definition zeroExport : EvidenceExport :=
  {| Version := ""; ExportedAt := ""; ExportedBy := ""; ChainHash := "";
     BlobCount := 0; FirstBlobHash := ""; LastBlobHash := "";
     TimeRange := None; Blobs := [] |}.

(** Two blobs whose stored hashes are wrong; the first one is only three
    bytes long. *)
Definition shortHashExport : EvidenceExport :=
  mkExport chainHashAB
    [ mkBlob "blob-a" recordA genesisHash "abc";
      mkBlob "blob-b" recordB "abc" hashA ].

(** One blob whose stored hash is eight bytes long. *)
Definition truncatedHashExport : EvidenceExport :=
  mkExport chainHashAB [mkBlob "blob-a" recordA genesisHash "deadbeef"].

(** A second blob that hashes correctly over its own [previous_hash],
    which is the five bytes ["short"] instead of the first blob's hash. *)
Definition shortLinkExport : EvidenceExport :=
  mkExport chainHashAB
    [ blobA;
      mkBlob "blob-b" recordB "short"
        "bc31bc1bc02f0416ef4301d72e421f2a0ef2410a689a47858320bfcb79f6b582" ].

(** The good chain with a stored chain hash of sixteen bytes. *)
Definition shortChainHashExport : EvidenceExport :=
  mkExport "e03f0ead24db3165" [blobA; blobB].

(** An empty chain with the chain hash of the empty input. *)
Definition emptyExport : EvidenceExport :=
  mkExport "e3b0c44298fc1c149afbf4c8996fb92427ae41e4649b934ca495991b7852b855" [].

(** Stored hashes that link but are not the hashes of their blobs. *)
Definition forgedExport : EvidenceExport :=
  mkExport chainHashAB
    [ mkBlob "blob-a" recordA genesisHash hashB;
      mkBlob "blob-b" recordB hashB hashA ].

(** Four blobs that link to one another through a stored hash of zeros,
    which is the hash of none of them. *)
Definition allWrongExport : EvidenceExport :=
  mkExport chainHashAB
    [ mkBlob "blob-1" recordA genesisHash genesisHash;
      mkBlob "blob-2" recordB genesisHash genesisHash;
      mkBlob "blob-3" recordA genesisHash genesisHash;
      mkBlob "blob-4" recordB genesisHash genesisHash ].

(** The good chain under other metadata: a wrong blob count, wrong first
    and last hashes, another version, exporter, date and time range. *)
Definition relabelledExport : EvidenceExport :=
  {| Version := "9.9"; ExportedAt := "1999-12-31T23:59:59Z";
     ExportedBy := "somebody else"; ChainHash := chainHashAB;
     BlobCount := 7; FirstBlobHash := hashB; LastBlobHash := "";
     TimeRange := Some {[ "start" := "yesterday"; "end" := "tomorrow" ]};
     Blobs := [blobA; blobB] |}.

(** ** The command line *)

(** What the program takes from outside: the file system ([os.ReadFile]
    gives an error or the content), the JSON decoder ([json.Unmarshal]
    into an [EvidenceExport] gives an error or the export) and the two
    build variables, which the linker may set. *)
Record Env : Type := {
  ReadFile : string -> string + list byte;
  Unmarshal : list byte -> string + EvidenceExport;
  BuildVersion : string;
  BuildTime : string
}.

(** What the program prints, one constructor per message (decorations and
    step headers are left out); the lines of the verifier are [Report]s.
    [Usage] is the help text of [printUsage]; [UsageHint] is the single
    line "Usage: zantoras-replay verify <evidence-export.json>" that
    follows the missing-path error. *)
Inductive Output : Type :=
  | Usage                                        (* printUsage *)
  | VersionInfo (version buildTime : string)     (* printVersion *)
  | MissingFilePath                              (* line 81 *)
  | UsageHint                                    (* line 82 *)
  | UnknownCommand (command : string)            (* line 91 *)
  | ReadFailed (err : string)                    (* line 124 *)
  | FileLoaded (filePath : string) (size : nat)  (* line 128 *)
  | ParseFailed (err : string)                   (* line 134 *)
  | VerificationFailed                           (* printVerificationFailed *)
  | Report (l : Line).                           (* lines 138-257 *)

(** [verifyEvidence(filePath)], lines 115-219: read, decode, verify. *)
Definition verifyEvidencePath (env : Env) (filePath : string)
    : list Output * Res unit :=
  match ReadFile env filePath with
  | inl err => ([ReadFailed err; VerificationFailed], Exit 1)
  | inr data =>
      match Unmarshal env data with
      | inl err =>
          ([FileLoaded filePath (length data); ParseFailed err;
            VerificationFailed], Exit 1)
      | inr export =>
          (FileLoaded filePath (length data)
             :: (Report <$> stdout (run export).1),
           (run export).2)
      end
  end.

(** [main], lines 70-95, on [os.Args]. *)
Definition main (env : Env) (Args : list string) : list Output * Res unit :=
  match Args with
  | _ :: command :: rest =>
      if bool_decide (command ∈ ["verify"; "import"]) then
        match rest with
        | filePath :: _ => verifyEvidencePath env filePath
        | [] => ([MissingFilePath; UsageHint], Exit 1)
        end
      else if bool_decide (command ∈ ["version"; "--version"; "-v"]) then
        ([VersionInfo (BuildVersion env) (BuildTime env)], Done tt)
      else if bool_decide (command ∈ ["help"; "--help"; "-h"]) then
        ([Usage], Done tt)
      else ([UnknownCommand command; Usage], Exit 1)
  | _ => ([Usage], Exit 1)
  end.

(** ** Edits of an export *)

(** The blob with another stored [previous_hash], all else as it was. *)
Definition setPreviousHash (p : string) (b : NetFlowBlob) : NetFlowBlob :=
  {| BlobID := BlobID b; BlobTimestamp := BlobTimestamp b;
     Record_ := Record_ b; PreviousHash := p; Hash := Hash b;
     DeviationScore := DeviationScore b; IsAnomaly := IsAnomaly b |}.

(** The export cut down to [blobs], with the chain hash of [blobs] stored
    in place of the old one. *)
Definition rechained (e : EvidenceExport) (blobs : list NetFlowBlob)
    : EvidenceExport :=
  {| Version := Version e; ExportedAt := ExportedAt e;
     ExportedBy := ExportedBy e; ChainHash := chainHashOf blobs;
     BlobCount := BlobCount e; FirstBlobHash := FirstBlobHash e;
     LastBlobHash := LastBlobHash e; TimeRange := TimeRange e;
     Blobs := blobs |}.

(** The blob with other source and destination addresses. *)
Definition withAddresses (src dst : string) (b : NetFlowBlob) : NetFlowBlob :=
  {| BlobID := BlobID b; BlobTimestamp := BlobTimestamp b;
     Record_ := {| Timestamp := Timestamp (Record_ b);
                   SrcIP := src; DstIP := dst;
                   SrcPort := SrcPort (Record_ b);
                   DstPort := DstPort (Record_ b);
                   Protocol := Protocol (Record_ b);
                   BytesSent := BytesSent (Record_ b);
                   PacketCount := PacketCount (Record_ b);
                   Payload := Payload (Record_ b) |};
     PreviousHash := PreviousHash b; Hash := Hash b;
     DeviationScore := DeviationScore b; IsAnomaly := IsAnomaly b |}.

(** The blob with other values in the five fields that no check reads. *)
Definition withUnhashed (id : string) (ts : Z) (payload : string)
    (score : PrimFloat.float) (anomaly : bool) (b : NetFlowBlob)
    : NetFlowBlob :=
  {| BlobID := id; BlobTimestamp := ts;
     Record_ := {| Timestamp := Timestamp (Record_ b);
                   SrcIP := SrcIP (Record_ b); DstIP := DstIP (Record_ b);
                   SrcPort := SrcPort (Record_ b);
                   DstPort := DstPort (Record_ b);
                   Protocol := Protocol (Record_ b);
                   BytesSent := BytesSent (Record_ b);
                   PacketCount := PacketCount (Record_ b);
                   Payload := payload |};
     PreviousHash := PreviousHash b; Hash := Hash b;
     DeviationScore := score; IsAnomaly := anomaly |}.

(** A chain built over the given blobs by whoever holds them: each blob
    gets the hash of its predecessor as [previous_hash] ([prev] for the
    first one) and is sealed. *)
Fixpoint sealChain (prev : string) (blobs : list NetFlowBlob)
    : list NetFlowBlob :=
  match blobs with
  | [] => []
  | b :: rest =>
      let sealed := seal (setPreviousHash prev b) in
      sealed :: sealChain (Hash sealed) rest
  end.

(** ** What the checks read of a blob *)

(** Two blobs that the loop cannot tell apart: the same hash input, the
    same stored hash and the same stored [previous_hash]. *)
Definition sameChecks (x y : NetFlowBlob) : Prop :=
  hashInput x = hashInput y /\ Hash x = Hash y
  /\ PreviousHash x = PreviousHash y.

(** The nine values that enter the hash input of a blob. *)
Definition sameHashedFields (x y : NetFlowBlob) : Prop :=
  SrcIP (Record_ x) = SrcIP (Record_ y)
  /\ DstIP (Record_ x) = DstIP (Record_ y)
  /\ SrcPort (Record_ x) = SrcPort (Record_ y)
  /\ DstPort (Record_ x) = DstPort (Record_ y)
  /\ Protocol (Record_ x) = Protocol (Record_ y)
  /\ Timestamp (Record_ x) = Timestamp (Record_ y)
  /\ BytesSent (Record_ x) = BytesSent (Record_ y)
  /\ PacketCount (Record_ x) = PacketCount (Record_ y)
  /\ PreviousHash x = PreviousHash y.

(** A string without the separator ["|"] of the hash input. *)
Definition noSeparator (s : string) : bool :=
  all_chars (fun c => negb (Ascii.eqb c "|")) s.

(** No string field of the record holds the separator. *)
Definition separatorFree (b : NetFlowBlob) : Prop :=
  noSeparator (SrcIP (Record_ b)) = true
  /\ noSeparator (DstIP (Record_ b)) = true
  /\ noSeparator (Protocol (Record_ b)) = true.

(** ** Kinds of report lines *)

(** The six detail lines of the loop, and the two verdict lines. *)
Definition isDetailLine (l : Line) : bool :=
  match l with
  | HashMismatchAt _ | ExpectedHash _ | ComputedHash _
  | ChainBreakAt _ | ExpectedPrev _ | ActualPrev _ => true
  | _ => false
  end.

Definition isVerdictLine (l : Line) : bool :=
  match l with
  | ResultVerified _ _ | ResultFailed _ _ _ _ _ => true
  | _ => false
  end.

Definition detailsOnly (d : list Line) : Prop :=
  Forall (fun l => isDetailLine l = true) d.

(** ** Detail lines that cannot be printed *)

(** The stored hash of the blob at position [j] is shorter than the 32
    bytes that its mismatch report slices off. *)
Definition shortHashAt (blobs : list NetFlowBlob) (j : nat) : Prop :=
  exists b, blobs !! j = Some b /\ (String.length (Hash b) < 32)%nat.

(** The blob at position [j > 0] has a predecessor whose stored hash, or
    itself a stored previous hash, shorter than the 32 bytes that its
    break report slices off. *)
Definition shortLinkAt (blobs : list NetFlowBlob) (j : nat) : Prop :=
  exists i prev b,
    j = S i /\ blobs !! i = Some prev /\ blobs !! j = Some b
    /\ ((String.length (Hash prev) < 32)%nat
        \/ (String.length (PreviousHash b) < 32)%nat).

(** ** Further fixtures *)

(** The good chain with other blob ids, blob timestamps, payloads,
    deviation scores and anomaly flags. *)
Definition reflaggedExport : EvidenceExport :=
  mkExport chainHashAB
    [ withUnhashed "blob-x" 0 "GET /admin" PrimFloat.one true blobA;
      withUnhashed "blob-y" 1 "" PrimFloat.zero true blobB ].

(** Two blobs of which the first has a wrong stored hash of three bytes;
    the second has a wrong stored hash of eight bytes and a previous hash
    that is not the stored hash of the first. *)
Definition unreachedExport : EvidenceExport :=
  mkExport chainHashAB
    [ mkBlob "blob-a" recordA genesisHash "abc";
      mkBlob "blob-b" recordB hashA "deadbeef" ].

(** The good first blob followed by a blob that hashes correctly over its
    own previous hash, which is 64 zeros instead of the stored hash of
    the first blob. *)
Definition brokenLinkExport : EvidenceExport :=
  mkExport chainHashAB
    [ blobA;
      mkBlob "blob-b" recordB genesisHash
        "1209ee535768732aeb81c859d5ada9fbd740837a852fc610dbd7ec6672340b77" ].

(** One blob whose stored hash is the first 40 digits of its hash. *)
Definition oddLengthHashExport : EvidenceExport :=
  mkExport chainHashAB
    [mkBlob "blob-a" recordA genesisHash
       "1b26166f939feaca8ce807232ab80c0f5740eb91"].

(** A sealed one-blob chain whose source address holds a separator. *)
Definition pipedRecord : NetFlowRecord :=
  {| Timestamp := 1700000002; SrcIP := "10.0.0.1|10.0.0.9";
     DstIP := "10.0.0.2"; SrcPort := 443; DstPort := 51234;
     Protocol := "TCP"; BytesSent := 64; PacketCount := 1; Payload := "" |}.

Definition pipedBlob : NetFlowBlob :=
  seal (mkBlob "blob-p" pipedRecord genesisHash "").

Definition pipedExport : EvidenceExport := rechained zeroExport [pipedBlob].

(** * Lemmas *)

(** ** Test vectors of the library functions *)

Example sha256_abc :
  fmtSbx (SHA256.Sum256 (bytes_of_string "abc"))
  = "ba7816bf8f01cfea414140de5dae2223b00361a396177a9cb410ff61f20015ad"%string.
Proof. vm_compute. reflexivity. Qed.

Example sha256_empty :
  fmtSbx (SHA256.Sum256 [])
  = "e3b0c44298fc1c149afbf4c8996fb92427ae41e4649b934ca495991b7852b855"%string.
Proof. vm_compute. reflexivity. Qed.

Example sha256_two_blocks :
  fmtSbx (SHA256.Sum256 (bytes_of_string
    "abcdbcdecdefdefgefghfghighijhijkijkljklmklmnlmnomnopnopq"))
  = "248d6a61d20638b8e5c026930c3e6039a33ce45964ff2167f6ecedd419db06c1"%string.
Proof. vm_compute. reflexivity. Qed.

Example fmtInteger_examples :
  fmtInteger 0 = "0"%string /\ fmtInteger 443 = "443"%string
  /\ fmtInteger (-17) = "-17"%string
  /\ fmtInteger 9223372036854775807 = "9223372036854775807"%string.
Proof. vm_compute. repeat split. Qed.

(** ** Strings *)

Lemma string_app_nil_l (s : string) : "" +:+ s = s.
Proof. reflexivity. Qed.

Lemma string_app_cons (c : ascii) (s1 s2 : string) :
  String c s1 +:+ s2 = String c (s1 +:+ s2).
Proof. reflexivity. Qed.

Lemma string_app_nil_r (s : string) : s +:+ "" = s.
Proof.
  induction s as [|c s IH]; [done|]. by rewrite string_app_cons, IH.
Qed.

Lemma string_app_assoc (s1 s2 s3 : string) :
  (s1 +:+ s2) +:+ s3 = s1 +:+ (s2 +:+ s3).
Proof.
  induction s1 as [|c s1 IH]; [done|]. by rewrite !string_app_cons, IH.
Qed.

Lemma string_length_app (s1 s2 : string) :
  String.length (s1 +:+ s2) = (String.length s1 + String.length s2)%nat.
Proof.
  induction s1 as [|c s1 IH]; [done|]. rewrite string_app_cons. simpl.
  by rewrite IH.
Qed.

(** Appending the same suffix is injective. *)
Lemma string_app_inj_r (s1 s2 t : string) : s1 +:+ t = s2 +:+ t -> s1 = s2.
Proof.
  revert s2. induction s1 as [|c s1 IH]; intros [|d s2] H;
    rewrite ?string_app_cons, ?string_app_nil_l in H.
  - done.
  - apply (f_equal String.length) in H. simpl in H.
    rewrite string_length_app in H. lia.
  - apply (f_equal String.length) in H. simpl in H.
    rewrite string_length_app in H. lia.
  - injection H as -> H. f_equal. by apply IH.
Qed.

Lemma all_chars_app (p : ascii -> bool) (s1 s2 : string) :
  all_chars p (s1 +:+ s2) = all_chars p s1 && all_chars p s2.
Proof.
  induction s1 as [|c s1 IH]; [done|]. rewrite string_app_cons. simpl.
  rewrite IH. by destruct (p c).
Qed.

(** ** Hexadecimal rendering *)

Lemma hex_byte_length (b : byte) : String.length (hex_byte b) = 2%nat.
Proof. done. Qed.

Lemma hex_byte_lower (b : byte) : all_chars is_lower_hex (hex_byte b) = true.
Proof. destruct b as [[] [] [] [] [] [] [] []]; reflexivity. Qed.

Lemma unhex_hex_byte (b : byte) : unhex_byte (hex_byte b) = b.
Proof. destruct b as [[] [] [] [] [] [] [] []]; reflexivity. Qed.

Lemma hex_byte_inj (a b : byte) : hex_byte a = hex_byte b -> a = b.
Proof.
  intros H. rewrite <- (unhex_hex_byte a), <- (unhex_hex_byte b). by rewrite H.
Qed.

Lemma fmtSbx_cons (b : byte) (bs : list byte) :
  fmtSbx (b :: bs) = hex_byte b +:+ fmtSbx bs.
Proof. reflexivity. Qed.

Lemma fmtSbx_length (bs : list byte) :
  String.length (fmtSbx bs) = (2 * length bs)%nat.
Proof.
  induction bs as [|b bs IH]; [done|].
  rewrite fmtSbx_cons, string_length_app, hex_byte_length, IH. simpl. lia.
Qed.

Lemma fmtSbx_lower (bs : list byte) : all_chars is_lower_hex (fmtSbx bs) = true.
Proof.
  induction bs as [|b bs IH]; [done|].
  by rewrite fmtSbx_cons, all_chars_app, hex_byte_lower, IH.
Qed.

Lemma fmtSbx_inj (xs ys : list byte) : fmtSbx xs = fmtSbx ys -> xs = ys.
Proof.
  revert ys. induction xs as [|x xs IH]; intros [|y ys] H;
    rewrite ?fmtSbx_cons in H.
  - done.
  - apply (f_equal String.length) in H.
    rewrite string_length_app, hex_byte_length in H. simpl in H. lia.
  - apply (f_equal String.length) in H.
    rewrite string_length_app, hex_byte_length in H. simpl in H. lia.
  - unfold hex_byte in H. rewrite !string_app_cons, !string_app_nil_l in H.
    injection H as Hhi Hlo Hrest.
    assert (x = y) as ->.
    { apply hex_byte_inj. unfold hex_byte. by rewrite Hhi, Hlo. }
    f_equal. by apply IH.
Qed.

(** ** SHA-256 yields 32 bytes *)

Lemma Sum256_length (data : list byte) : length (SHA256.Sum256 data) = 32%nat.
Proof.
  unfold SHA256.Sum256, SHA256.digest_bytes, SHA256.be_bytes.
  rewrite length_map, !length_app, !length_map. reflexivity.
Qed.

Lemma sha256_hex_length (s : string) : String.length (sha256_hex s) = 64%nat.
Proof. unfold sha256_hex. by rewrite fmtSbx_length, Sum256_length. Qed.

Lemma sha256_hex_lower (s : string) : all_chars is_lower_hex (sha256_hex s) = true.
Proof. apply fmtSbx_lower. Qed.

(** A string of hexadecimal digits has as many characters as bytes. *)
Lemma utf8_length_lower_hex (s : string) :
  all_chars is_lower_hex s = true -> utf8_length s = String.length s.
Proof.
  induction s as [|c s IH]; [done|]. simpl.
  intros [Hc Hs]%andb_true_iff. rewrite (IH Hs).
  assert (is_continuation c = false) as ->; [|done].
  unfold is_lower_hex in Hc. unfold is_continuation.
  destruct (N.leb_spec 128 (N_of_ascii c)); [|done].
  destruct (N.leb_spec (N_of_ascii c) 57); [lia|].
  destruct (N.leb_spec (N_of_ascii c) 102); [lia|].
  by rewrite !andb_false_r in Hc.
Qed.

Global Opaque SHA256.Sum256.

(** ** The hash of one blob *)

Lemma Sprintf_x_bytes (bs : list byte) : Sprintf "%x" [ABytes bs] = fmtSbx bs.
Proof. cbn [Sprintf printArg]. apply string_app_nil_r. Qed.

Lemma hashInput_canonical (blob : NetFlowBlob) :
  hashInput blob = canonicalInput blob.
Proof.
  unfold hashInput, canonicalInput.
  cbn [Sprintf printArg String.concat].
  rewrite !string_app_cons, !string_app_nil_l, string_app_nil_r.
  reflexivity.
Qed.

Lemma computedHash_sha256_hex (blob : NetFlowBlob) :
  computedHash blob = sha256_hex (canonicalInput blob).
Proof.
  unfold computedHash. by rewrite Sprintf_x_bytes, hashInput_canonical.
Qed.

Lemma computedHash_length (blob : NetFlowBlob) :
  String.length (computedHash blob) = 64%nat.
Proof. rewrite computedHash_sha256_hex. apply sha256_hex_length. Qed.

Lemma computedChainHash_sha256_hex (export : EvidenceExport) :
  computedChainHash export = sha256_hex (chainHashInput export).
Proof. unfold computedChainHash. by rewrite Sprintf_x_bytes. Qed.

Lemma computedChainHash_length (export : EvidenceExport) :
  String.length (computedChainHash export) = 64%nat.
Proof. rewrite computedChainHash_sha256_hex. apply sha256_hex_length. Qed.

Global Opaque computedHash computedChainHash.

(** ** Positions *)

Lemma elem_of_positionsFrom test i l k :
  k ∈ positionsFrom test i l <->
  (i <= k)%nat /\ exists blob, l !! (k - i)%nat = Some blob /\ test k blob = true.
Proof.
  revert i. induction l as [|b l IH]; intros i; simpl.
  - split; [by intros ?%elem_of_nil | by intros (_ & ? & ? & _)].
  - rewrite elem_of_app, IH. split.
    + intros [Hk | (Hle & blob & Hl & Ht)].
      * destruct (test i b) eqn:E; [|by apply elem_of_nil in Hk].
        apply list_elem_of_singleton in Hk as ->.
        split; [lia|]. exists b. by rewrite Nat.sub_diag.
      * split; [lia|]. exists blob. split; [|done].
        replace (k - i)%nat with (S (k - S i)) by lia. done.
    + intros (Hle & blob & Hl & Ht).
      destruct (decide (k = i)) as [->|Hne].
      * left. rewrite Nat.sub_diag in Hl. simpl in Hl. injection Hl as ->.
        rewrite Ht. by apply list_elem_of_singleton.
      * right. split; [lia|]. exists blob. split; [|done].
        replace (k - i)%nat with (S (k - S i)) in Hl by lia. done.
Qed.

(** A test fires at most once per blob: the counters of the loop, which
    are Go [int]s, stay within the length of the slice and cannot wrap. *)
Lemma positionsFrom_length test i l :
  (length (positionsFrom test i l) <= length l)%nat.
Proof.
  revert i. induction l as [|b l IH]; intros i; simpl; [lia|].
  rewrite length_app. specialize (IH (S i)). destruct (test i b); simpl; lia.
Qed.

(** [mismatchPositions] lists exactly the positions that fail the hash
    check as the specification words it. *)
Lemma elem_of_mismatchPositions blobs k :
  k ∈ mismatchPositions blobs <-> mismatchAt blobs k.
Proof.
  unfold mismatchPositions, positions, mismatchAt.
  rewrite elem_of_positionsFrom, Nat.sub_0_r. unfold mismatchb.
  setoid_rewrite bool_decide_eq_true.
  setoid_rewrite computedHash_sha256_hex. split.
  - intros (_ & blob & ? & ?). eauto.
  - intros (blob & ? & ?). split; [lia | eauto].
Qed.

(** [breakPositions] lists exactly the positions that fail the linkage
    check as the specification words it. *)
Lemma elem_of_breakPositions blobs k :
  k ∈ breakPositions blobs <-> breakAt blobs k.
Proof.
  unfold breakPositions, positions, breakAt.
  rewrite elem_of_positionsFrom, Nat.sub_0_r. split.
  - intros (_ & blob & Hk & Hb). destruct k as [|j]; [done|]. simpl in Hb.
    destruct (blobs !! j) as [prev|] eqn:Hj; [|done].
    apply bool_decide_eq_true in Hb. split; [lia|].
    exists prev, blob. simpl. rewrite Nat.sub_0_r. done.
  - intros (Hpos & prev & blob & Hj & Hk & Hne). split; [lia|].
    exists blob. split; [done|]. destruct k as [|j]; [lia|]. simpl in *.
    rewrite Nat.sub_0_r in Hj. rewrite Hj. by apply bool_decide_eq_true.
Qed.

(** ** One iteration of the loop *)

Ltac run_step :=
  unfold mbind, M_bind, mret, M_ret, Printf, incrBlobHashErrors,
    incrChainErrors, getBlobHashErrors, getChainErrors, when, sliceTo,
    panic, osExit, setCounters;
  cbn -[Nat.leb Nat.eqb Nat.ltb substring String.length String.append].

(** What the hash check of one blob does to the state. *)
Lemma checkBlobHash_eq i blob st :
  checkBlobHash i blob st =
  if mismatchb blob then
    let n := S (blobHashErrors st) in
    if (n <=? 3)%nat then
      if (32 <=? String.length (Hash blob))%nat then
        (setCounters st n (chainErrors st)
           [ HashMismatchAt (i + 1);
             ExpectedHash (substring 0 32 (Hash blob) +:+ "...");
             ComputedHash (substring 0 32 (computedHash blob) +:+ "...") ],
         Done tt)
      else
        (setCounters st n (chainErrors st) [HashMismatchAt (i + 1)],
         Panic (SliceBoundsOutOfRange 32 (String.length (Hash blob))))
    else (setCounters st n (chainErrors st) [], Done tt)
  else (st, Done tt).
Proof.
  unfold checkBlobHash, mismatchb.
  destruct (decide (computedHash blob ≠ Hash blob)) as [Hne|Heq].
  - rewrite bool_decide_eq_true_2 by done. run_step.
    destruct (S (blobHashErrors st) <=? 3)%nat eqn:E3; run_step.
    + destruct (32 <=? String.length (Hash blob))%nat eqn:E32; run_step.
      * rewrite computedHash_length. change (32 <=? 64)%nat with true.
        run_step. by rewrite <- ?app_assoc.
      * done.
    + by rewrite app_nil_r.
  - by rewrite bool_decide_eq_false_2.
Qed.

(** What the linkage check of one blob does to the state, when the
    predecessor exists. *)
Lemma checkLinkage_eq export i blob st :
  (forall j, i = S j -> is_Some (Blobs export !! j)) ->
  checkLinkage export i blob st =
  match i with
  | O => (st, Done tt)
  | S j =>
      if breakb (Blobs export) i blob then
        let prevHash := default "" (Hash <$> Blobs export !! j) in
        let n := S (chainErrors st) in
        if (n <=? 3)%nat then
          if (32 <=? String.length prevHash)%nat then
            if (32 <=? String.length (PreviousHash blob))%nat then
              (setCounters st (blobHashErrors st) n
                 [ ChainBreakAt (i + 1);
                   ExpectedPrev (substring 0 32 prevHash +:+ "...");
                   ActualPrev (substring 0 32 (PreviousHash blob) +:+ "...") ],
               Done tt)
            else
              (setCounters st (blobHashErrors st) n
                 [ ChainBreakAt (i + 1);
                   ExpectedPrev (substring 0 32 prevHash +:+ "...") ],
               Panic (SliceBoundsOutOfRange 32
                        (String.length (PreviousHash blob))))
          else
            (setCounters st (blobHashErrors st) n [ChainBreakAt (i + 1)],
             Panic (SliceBoundsOutOfRange 32 (String.length prevHash)))
        else (setCounters st (blobHashErrors st) n [], Done tt)
      else (st, Done tt)
  end.
Proof.
  intros Hin. unfold checkLinkage. destruct i as [|j]; [done|].
  destruct (Hin j eq_refl) as [prev Hprev].
  unfold breakb, blobAt. change (0 <? S j)%nat with true. cbv iota.
  replace (S j - 1)%nat with j by lia. rewrite Hprev. run_step.
  destruct (decide (PreviousHash blob ≠ Hash prev)) as [Hne|Heq].
  - rewrite bool_decide_eq_true_2 by done. run_step.
    destruct (S (chainErrors st) <=? 3)%nat eqn:E3; run_step.
    + destruct (32 <=? String.length (Hash prev))%nat eqn:E32; run_step.
      * destruct (32 <=? String.length (PreviousHash blob))%nat eqn:E32'; run_step.
        -- by rewrite <- ?app_assoc.
        -- by rewrite <- ?app_assoc.
      * done.
    + by rewrite app_nil_r.
  - by rewrite bool_decide_eq_false_2.
Qed.

(** ** The loop over the blobs *)

Lemma forRange_cons {A} (body : nat -> A -> M unit) i x l st :
  forRange body i (x :: l) st =
  match body i x st with
  | (st', Done _) => forRange body (S i) l st'
  | (st', Exit c) => (st', Exit c)
  | (st', Panic err) => (st', Panic err)
  end.
Proof. reflexivity. Qed.

Lemma loopBody_unfold export i blob st :
  loopBody export i blob st =
  match checkBlobHash i blob st with
  | (st', Done _) => checkLinkage export i blob st'
  | (st', Exit c) => (st', Exit c)
  | (st', Panic err) => (st', Panic err)
  end.
Proof. reflexivity. Qed.

Lemma drop_cons_inv {A} (l : list A) i x l' :
  drop i l = x :: l' -> l !! i = Some x /\ drop (S i) l = l'.
Proof.
  intros H. assert (l !! i = Some x) as Hi.
  { rewrite <- (Nat.add_0_r i), <- lookup_drop, H. done. }
  split; [done|]. rewrite (drop_S _ _ _ Hi) in H. by injection H.
Qed.

Lemma predecessor_exists {A} (l : list A) i x :
  l !! i = Some x -> forall j, i = S j -> is_Some (l !! j).
Proof.
  intros Hi j ->. apply lookup_lt_is_Some.
  apply lookup_lt_Some in Hi. lia.
Qed.

(** The counters after one iteration, whether or not the reporting then
    panics. *)
Lemma checkBlobHash_counters i blob st :
  blobHashErrors (checkBlobHash i blob st).1
  = (blobHashErrors st + (if mismatchb blob then 1 else 0))%nat
  /\ chainErrors (checkBlobHash i blob st).1 = chainErrors st.
Proof.
  rewrite checkBlobHash_eq. unfold setCounters.
  repeat case_match; simpl; lia.
Qed.

Lemma checkLinkage_counters export i blob st :
  (forall j, i = S j -> is_Some (Blobs export !! j)) ->
  chainErrors (checkLinkage export i blob st).1
  = (chainErrors st + (if breakb (Blobs export) i blob then 1 else 0))%nat
  /\ blobHashErrors (checkLinkage export i blob st).1 = blobHashErrors st.
Proof.
  intros Hin. rewrite checkLinkage_eq by done.
  destruct i as [|j]; [simpl; lia|]. unfold setCounters.
  repeat case_match; simpl; lia.
Qed.

(** Neither check ever calls [os.Exit]. *)
Lemma loopBody_no_exit export i blob st st' c :
  (forall j, i = S j -> is_Some (Blobs export !! j)) ->
  loopBody export i blob st <> (st', Exit c).
Proof.
  intros Hin. rewrite loopBody_unfold, checkBlobHash_eq. cbv zeta.
  destruct (mismatchb blob);
    [destruct (S (blobHashErrors st) <=? 3)%nat;
       [destruct (32 <=? String.length (Hash blob))%nat|]|];
    try congruence;
    rewrite checkLinkage_eq by done; cbv zeta;
    repeat case_match; congruence.
Qed.

(** A loop that runs to its end has counted every failing position. *)
Lemma forRange_counts export l : forall i st st',
  drop i (Blobs export) = l ->
  forRange (loopBody export) i l st = (st', Done tt) ->
  blobHashErrors st'
  = (blobHashErrors st + length (positionsFrom (fun _ => mismatchb) i l))%nat
  /\ chainErrors st'
  = (chainErrors st + length (positionsFrom (breakb (Blobs export)) i l))%nat.
Proof.
  induction l as [|b l IH]; intros i st st' Hdrop Hrun.
  - injection Hrun as <-. simpl. lia.
  - apply drop_cons_inv in Hdrop as [Hi Hdrop].
    pose proof (predecessor_exists _ _ _ Hi) as Hin.
    rewrite forRange_cons, loopBody_unfold in Hrun.
    pose proof (checkBlobHash_counters i b st) as [Hh1 Hh2].
    destruct (checkBlobHash i b st) as [st1 [[]| |]]; [|done..].
    pose proof (checkLinkage_counters export i b st1 Hin) as [Hc1 Hc2].
    destruct (checkLinkage export i b st1) as [st2 [[]| |]]; [|done..].
    simpl in *. destruct (IH _ _ _ Hdrop Hrun) as [-> ->].
    rewrite !length_app.
    destruct (mismatchb b), (breakb (Blobs export) i b); simpl in *; lia.
Qed.

Lemma checkBlobHash_done i blob st :
  (mismatchb blob = true -> (32 <= String.length (Hash blob))%nat) ->
  exists st', checkBlobHash i blob st = (st', Done tt).
Proof.
  intros Hlen. rewrite checkBlobHash_eq. cbv zeta.
  destruct (mismatchb blob); [|by eauto].
  destruct (S (blobHashErrors st) <=? 3)%nat; [|by eauto].
  destruct (Nat.leb_spec 32 (String.length (Hash blob))); [by eauto|].
  specialize (Hlen eq_refl). lia.
Qed.

Lemma checkLinkage_done export i blob st :
  Blobs export !! i = Some blob ->
  linkReportable (Blobs export) ->
  exists st', checkLinkage export i blob st = (st', Done tt).
Proof.
  intros Hi Hrep.
  rewrite checkLinkage_eq by (by eapply predecessor_exists).
  destruct i as [|j]; [by eauto|]. cbv zeta. unfold breakb.
  destruct (predecessor_exists _ _ _ Hi j eq_refl) as [prev Hprev].
  rewrite Hprev. cbn -[Nat.leb String.length].
  destruct (decide (PreviousHash blob ≠ Hash prev)) as [Hne|Heq].
  - rewrite bool_decide_eq_true_2 by done.
    destruct (Hrep j prev blob Hprev Hi Hne) as [H1 H2].
    destruct (S (chainErrors st) <=? 3)%nat; [|by eauto].
    destruct (Nat.leb_spec 32 (String.length (Hash prev))); [|lia].
    destruct (Nat.leb_spec 32 (String.length (PreviousHash blob))); [|lia].
    by eauto.
  - rewrite bool_decide_eq_false_2 by done. by eauto.
Qed.

(** With sliceable details the loop runs to its end. *)
Lemma forRange_completes export l : forall i st,
  drop i (Blobs export) = l ->
  hashReportable (Blobs export) -> linkReportable (Blobs export) ->
  exists st', forRange (loopBody export) i l st = (st', Done tt).
Proof.
  induction l as [|b l IH]; intros i st Hdrop Hh Hl.
  - by exists st.
  - apply drop_cons_inv in Hdrop as [Hi Hdrop].
    rewrite forRange_cons, loopBody_unfold.
    destruct (checkBlobHash_done i b st (Hh i b Hi)) as [st1 ->].
    destruct (checkLinkage_done export i b st1 Hi Hl) as [st2 ->].
    by apply IH.
Qed.

(** The loop never calls [os.Exit]. *)
Lemma forRange_no_exit export l : forall i st st' c,
  drop i (Blobs export) = l ->
  forRange (loopBody export) i l st <> (st', Exit c).
Proof.
  induction l as [|b l IH]; intros i st st' c Hdrop; [done|].
  apply drop_cons_inv in Hdrop as [Hi Hdrop].
  rewrite forRange_cons.
  pose proof (loopBody_no_exit export i b st) as Hno.
  destruct (loopBody export i b st) as [st1 [[]|c1|err]].
  - by apply IH.
  - exfalso. eapply Hno; [by eapply predecessor_exists | done].
  - done.
Qed.

(** The loop panics only on a slice of a string shorter than 32 bytes. *)
Lemma loopBody_panic export i blob st st' err :
  (forall j, i = S j -> is_Some (Blobs export !! j)) ->
  loopBody export i blob st = (st', Panic err) ->
  exists n, err = SliceBoundsOutOfRange 32 n /\ (n < 32)%nat.
Proof.
  intros Hin. rewrite loopBody_unfold, checkBlobHash_eq. cbv zeta.
  assert (forall st0,
            checkLinkage export i blob st0 = (st', Panic err) ->
            exists n, err = SliceBoundsOutOfRange 32 n /\ (n < 32)%nat) as Hlink.
  { intros st0. rewrite checkLinkage_eq by done. destruct i as [|j]; [done|].
    cbv zeta. destruct (breakb _ _ _); [|done].
    destruct (S (chainErrors st0) <=? 3)%nat; [|done].
    destruct (Nat.leb_spec 32 (String.length
                (default "" (Hash <$> Blobs export !! j)))).
    - destruct (Nat.leb_spec 32 (String.length (PreviousHash blob))); [done|].
      intros [= _ <-]. eauto.
    - intros [= _ <-]. eauto. }
  destruct (mismatchb blob); [|apply Hlink].
  destruct (S (blobHashErrors st) <=? 3)%nat; [|apply Hlink].
  destruct (Nat.leb_spec 32 (String.length (Hash blob))); [apply Hlink|].
  intros [= _ <-]. eauto.
Qed.

Lemma forRange_panic export l : forall i st st' err,
  drop i (Blobs export) = l ->
  forRange (loopBody export) i l st = (st', Panic err) ->
  exists n, err = SliceBoundsOutOfRange 32 n /\ (n < 32)%nat.
Proof.
  induction l as [|b l IH]; intros i st st' err Hdrop; [done|].
  apply drop_cons_inv in Hdrop as [Hi Hdrop].
  pose proof (predecessor_exists _ _ _ Hi) as Hin.
  rewrite forRange_cons.
  pose proof (loopBody_panic export i b st) as Hp.
  destruct (loopBody export i b st) as [st1 [[]|c1|err1]].
  - by apply IH.
  - done.
  - intros [= <- <-]. by eapply Hp.
Qed.

(** ** The summaries, the chain hash and the verdict *)

Lemma printSummaries_eq export st :
  printSummaries export st =
  (setCounters st (blobHashErrors st) (chainErrors st) (summaryLines export st),
   Done tt).
Proof.
  unfold printSummaries, summaryLines. run_step.
  destruct (blobHashErrors st =? 0)%nat; run_step;
    destruct (chainErrors st =? 0)%nat; run_step; by rewrite <- ?app_assoc.
Qed.

Lemma verifyChainHash_eq export st :
  verifyChainHash export st =
  if (32 <=? String.length (ChainHash export))%nat then
    (setCounters st (blobHashErrors st) (chainErrors st) (chainHashLines export),
     Done (bool_decide (computedChainHash export = ChainHash export)))
  else (st, Panic (SliceBoundsOutOfRange 32 (String.length (ChainHash export)))).
Proof.
  unfold verifyChainHash, chainHashLines. run_step.
  destruct (32 <=? String.length (ChainHash export))%nat; [|done].
  rewrite computedChainHash_length. change (32 <=? 64)%nat with true. run_step.
  destruct (bool_decide (computedChainHash export = ChainHash export));
    run_step; by rewrite <- ?app_assoc.
Qed.

Lemma printVerificationResult_eq blobErrors chainErrs chainHashMatch export st :
  printVerificationResult blobErrors chainErrs chainHashMatch export st =
  if (blobErrors =? 0)%nat && (chainErrs =? 0)%nat && chainHashMatch then
    (setCounters st (blobHashErrors st) (chainErrors st)
       [ResultVerified (ChainHash export) (length (Blobs export))], Done tt)
  else
    (setCounters st (blobHashErrors st) (chainErrors st)
       [ResultFailed (ChainHash export) (length (Blobs export))
          blobErrors chainErrs chainHashMatch], Exit 1).
Proof.
  unfold printVerificationResult.
  destruct ((blobErrors =? 0)%nat && (chainErrs =? 0)%nat && chainHashMatch);
    by run_step.
Qed.

Lemma printMetadata_eq export st :
  printMetadata export st
  = (setCounters st (blobHashErrors st) (chainErrors st) (metadataLines export),
     Done tt).
Proof.
  unfold printMetadata, metadataLines.
  destruct (TimeRange export) as [tr|]; run_step; by rewrite <- ?app_assoc.
Qed.

(** ** The whole run *)

Lemma verifyChain_unfold export st :
  verifyChain export st =
  match verifyBlobs export st with
  | (st1, Done _) =>
      let st2 := setCounters st1 (blobHashErrors st1) (chainErrors st1)
                   (summaryLines export st1) in
      if (32 <=? String.length (ChainHash export))%nat then
        let m := bool_decide (computedChainHash export = ChainHash export) in
        let st3 := setCounters st2 (blobHashErrors st1) (chainErrors st1)
                     (chainHashLines export) in
        if (blobHashErrors st1 =? 0)%nat && (chainErrors st1 =? 0)%nat && m then
          (setCounters st3 (blobHashErrors st1) (chainErrors st1)
             [ResultVerified (ChainHash export) (length (Blobs export))],
           Done tt)
        else
          (setCounters st3 (blobHashErrors st1) (chainErrors st1)
             [ResultFailed (ChainHash export) (length (Blobs export))
                (blobHashErrors st1) (chainErrors st1) m],
           Exit 1)
      else
        (st2, Panic (SliceBoundsOutOfRange 32 (String.length (ChainHash export))))
  | (st1, Exit c) => (st1, Exit c)
  | (st1, Panic err) => (st1, Panic err)
  end.
Proof.
  unfold verifyChain. unfold mbind at 1, M_bind at 1.
  destruct (verifyBlobs export st) as [st1 [[]|c|err]]; [|done..].
  unfold mbind at 1, M_bind at 1. rewrite printSummaries_eq.
  unfold mbind at 1, M_bind at 1. rewrite verifyChainHash_eq. cbv zeta.
  destruct (32 <=? String.length (ChainHash export))%nat; [|done].
  unfold setCounters at 1 2. cbn [blobHashErrors chainErrors stdout].
  unfold mbind, M_bind, getBlobHashErrors, getChainErrors.
  cbn [blobHashErrors chainErrors stdout].
  rewrite printVerificationResult_eq. reflexivity.
Qed.

Lemma verifyEvidence_unfold export st :
  verifyEvidence export st
  = verifyChain export
      (setCounters st (blobHashErrors st) (chainErrors st)
         (metadataLines export)).
Proof.
  unfold verifyEvidence, mbind, M_bind. by rewrite printMetadata_eq.
Qed.

Lemma verifyBlobs_counts export st st' :
  verifyBlobs export st = (st', Done tt) ->
  blobHashErrors st'
  = (blobHashErrors st + length (mismatchPositions (Blobs export)))%nat
  /\ chainErrors st'
  = (chainErrors st + length (breakPositions (Blobs export)))%nat.
Proof. intros H. by eapply forRange_counts. Qed.

Lemma verifyBlobs_completes export st :
  hashReportable (Blobs export) -> linkReportable (Blobs export) ->
  exists st', verifyBlobs export st = (st', Done tt).
Proof. intros. by apply forRange_completes. Qed.

Lemma positions_nil_test test blobs i blob :
  positions test blobs = [] -> blobs !! i = Some blob -> test i blob = false.
Proof.
  intros Hnil Hi. destruct (test i blob) eqn:E; [|done].
  assert (i ∈ positions test blobs) as Hin.
  { apply elem_of_positionsFrom. split; [lia|]. exists blob.
    by rewrite Nat.sub_0_r. }
  rewrite Hnil in Hin. by apply elem_of_nil in Hin.
Qed.

Lemma no_mismatch_reportable blobs :
  mismatchPositions blobs = [] -> hashReportable blobs.
Proof.
  intros Hnil i blob Hi Hm.
  by rewrite (positions_nil_test _ _ _ _ Hnil Hi) in Hm.
Qed.

Lemma no_break_reportable blobs :
  breakPositions blobs = [] -> linkReportable blobs.
Proof.
  intros Hnil j prev blob Hj Hi Hne.
  pose proof (positions_nil_test _ _ _ _ Hnil Hi) as Hb.
  simpl in Hb. rewrite Hj in Hb. by apply bool_decide_eq_false in Hb.
Qed.

(** The run returns normally exactly when all three checks pass. *)
Lemma run_done_iff export :
  (run export).2 = Done tt <->
  mismatchPositions (Blobs export) = [] /\ breakPositions (Blobs export) = []
  /\ computedChainHash export = ChainHash export.
Proof.
  unfold run. rewrite verifyEvidence_unfold.
  set (st0 := setCounters initial _ _ _).
  rewrite verifyChain_unfold. cbv zeta. split.
  - intros Hrun.
    destruct (verifyBlobs export st0) as [st1 [[]|c|err]] eqn:Hloop; [|done..].
    apply verifyBlobs_counts in Hloop as [Hh Hc]. simpl in Hh, Hc.
    destruct (32 <=? String.length (ChainHash export))%nat; [|done].
    destruct ((blobHashErrors st1 =? 0)%nat && (chainErrors st1 =? 0)%nat
              && bool_decide (computedChainHash export = ChainHash export))
      eqn:E; [|done].
    apply andb_true_iff in E as [E Hm]. apply andb_true_iff in E as [E1 E2].
    apply Nat.eqb_eq in E1, E2. apply bool_decide_eq_true in Hm.
    rewrite E1 in Hh. rewrite E2 in Hc.
    repeat split; [apply length_zero_iff_nil; lia.. | done].
  - intros (Hm & Hb & Hch).
    destruct (verifyBlobs_completes export st0) as [st1 Hloop];
      [by apply no_mismatch_reportable | by apply no_break_reportable |].
    rewrite Hloop. apply verifyBlobs_counts in Hloop as [Hh Hc].
    rewrite Hm in Hh. rewrite Hb in Hc. simpl in Hh, Hc. rewrite Hh, Hc.
    rewrite <- Hch at 1. rewrite computedChainHash_length.
    change (32 <=? 64)%nat with true.
    rewrite bool_decide_eq_true_2 by done. reflexivity.
Qed.

(** ** Tampering with one hash-input field of a record *)

Lemma fmtInteger_inj (x y : Z) : fmtInteger x = fmtInteger y -> x = y.
Proof. apply pretty_Z_inj. Qed.

Lemma canonicalInput_eq (b : NetFlowBlob) :
  canonicalInput b =
  SrcIP (Record_ b) +:+ "|" +:+ DstIP (Record_ b) +:+ "|" +:+
  fmtInteger (SrcPort (Record_ b)) +:+ "|" +:+
  fmtInteger (DstPort (Record_ b)) +:+ "|" +:+
  Protocol (Record_ b) +:+ "|" +:+
  fmtInteger (Timestamp (Record_ b)) +:+ "|" +:+
  fmtInteger (BytesSent (Record_ b)) +:+ "|" +:+
  fmtInteger (PacketCount (Record_ b)) +:+ "|" +:+ PreviousHash b.
Proof. reflexivity. Qed.

(** Changing one field changes the canonical input. *)
Lemma canonicalInput_mutate_ne (m : Mutation) (b : NetFlowBlob) :
  applyMutation m (Record_ b) <> Record_ b ->
  canonicalInput (mutateBlob m b) <> canonicalInput b.
Proof.
  intros Hne Heq. apply Hne. clear Hne.
  rewrite !canonicalInput_eq in Heq.
  destruct b as [id bts [ts sip dip sp dp proto bytes pkts payload] prev h d a].
  destruct m; simpl in *;
    repeat (match type of Heq with
            | ?p +:+ _ = ?p +:+ _ => apply (inj (String.app p)) in Heq
            end);
    apply string_app_inj_r in Heq;
    try apply fmtInteger_inj in Heq; by subst.
Qed.

Lemma computedHash_mutate_ne (m : Mutation) (b : NetFlowBlob) :
  applyMutation m (Record_ b) <> Record_ b ->
  ~ sha256_collision (canonicalInput b) (canonicalInput (mutateBlob m b)) ->
  computedHash (mutateBlob m b) <> computedHash b.
Proof.
  intros Hchg Hnc Heq. rewrite !computedHash_sha256_hex in Heq.
  apply fmtSbx_inj in Heq. apply Hnc. split; [|done].
  intros E. by apply (canonicalInput_mutate_ne m b).
Qed.

(** Replacing one blob of a list whose blobs all pass the hash check. *)
Lemma positionsFrom_mismatch_insert l : forall k i b b',
  positionsFrom (fun _ => mismatchb) k l = [] ->
  l !! i = Some b ->
  positionsFrom (fun _ => mismatchb) k (<[i:=b']> l)
  = if mismatchb b' then [(k + i)%nat] else [].
Proof.
  induction l as [|x l IH]; intros k i b b' Hnil Hi; [done|].
  simpl in Hnil. apply app_eq_nil in Hnil as [Hx Hl].
  destruct i as [|i]; simpl in *.
  - rewrite Hl, app_nil_r, Nat.add_0_r. done.
  - rewrite Hx. simpl. rewrite (IH (S k) i b b' Hl Hi).
    by replace (S k + i)%nat with (k + S i)%nat by lia.
Qed.

Lemma breakb_sameLinks L1 L2 i x y :
  Forall2 sameLinks L1 L2 -> sameLinks x y ->
  breakb L1 i x = breakb L2 i y.
Proof.
  intros HL [Hh Hp]. destruct i as [|j]; [done|]. simpl.
  destruct (L1 !! j) as [p1|] eqn:E1.
  - destruct (Forall2_lookup_l _ _ _ _ _ HL E1) as (p2 & -> & [Hph _]).
    by rewrite Hp, Hph.
  - assert (L2 !! j = None) as ->; [|done].
    apply lookup_ge_None. apply lookup_ge_None in E1.
    by rewrite <- (Forall2_length _ _ _ HL).
Qed.

Lemma positionsFrom_break_sameLinks L1 L2 l1 l2 k :
  Forall2 sameLinks L1 L2 -> Forall2 sameLinks l1 l2 ->
  positionsFrom (breakb L1) k l1 = positionsFrom (breakb L2) k l2.
Proof.
  intros HL Hl. revert k. induction Hl as [|x y l1 l2 Hxy Hl IH]; intros k.
  - done.
  - simpl. by rewrite (breakb_sameLinks L1 L2 k x y HL Hxy), IH.
Qed.

Lemma sameLinks_insert_mutate l i b m :
  l !! i = Some b -> Forall2 sameLinks (<[i:=mutateBlob m b]> l) l.
Proof.
  intros Hi. apply Forall2_same_length_lookup. split.
  - by rewrite length_insert.
  - intros j x y Hx Hy. destruct (decide (i = j)) as [->|Hne].
    + rewrite list_lookup_insert_eq in Hx by (by eapply lookup_lt_Some).
      by simplify_eq.
    + rewrite list_lookup_insert_ne in Hx by done. by simplify_eq.
Qed.

Lemma breakPositions_insert_mutate l i b m :
  l !! i = Some b ->
  breakPositions (<[i:=mutateBlob m b]> l) = breakPositions l.
Proof.
  intros Hi. unfold breakPositions, positions.
  apply positionsFrom_break_sameLinks; by apply sameLinks_insert_mutate.
Qed.

Lemma mismatchPositions_insert_mutate l i b m :
  mismatchPositions l = [] -> l !! i = Some b ->
  mismatchPositions (<[i:=mutateBlob m b]> l)
  = if mismatchb (mutateBlob m b) then [i] else [].
Proof.
  intros Hnil Hi. unfold mismatchPositions, positions.
  by rewrite (positionsFrom_mismatch_insert l 0 i b _ Hnil Hi).
Qed.

(** ** The chain hash input *)

Lemma fold_left_app_hash (blobs : list NetFlowBlob) (acc : string) :
  fold_left (fun acc blob => acc +:+ Hash blob) blobs acc
  = acc +:+ fold_left (fun acc blob => acc +:+ Hash blob) blobs "".
Proof.
  revert acc. induction blobs as [|b blobs IH]; intros acc; simpl.
  - by rewrite string_app_nil_r.
  - rewrite IH, (IH ("" +:+ Hash b)), string_app_nil_l.
    by rewrite string_app_assoc.
Qed.

Lemma concat_empty_sep_cons (s : string) (ls : list string) :
  String.concat "" (s :: ls) = s +:+ String.concat "" ls.
Proof.
  destruct ls as [|s' ls]; simpl.
  - by rewrite string_app_nil_r.
  - by rewrite string_app_nil_l.
Qed.

(** The builder loop yields the hashes concatenated without separator. *)
Lemma chainHashInput_concat (export : EvidenceExport) :
  chainHashInput export = String.concat "" (map Hash (Blobs export)).
Proof.
  unfold chainHashInput. induction (Blobs export) as [|b blobs IH]; [done|].
  rewrite map_cons, concat_empty_sep_cons. simpl.
  by rewrite fold_left_app_hash, string_app_nil_l, IH.
Qed.

Lemma computedChainHash_chainHashOf (export : EvidenceExport) :
  computedChainHash export = chainHashOf (Blobs export).
Proof.
  rewrite computedChainHash_sha256_hex. unfold chainHashOf.
  by rewrite chainHashInput_concat.
Qed.

(** ** Printed text does not influence a run *)

Lemma framed_ret {A} (a : A) : Framed (mret a).
Proof. by intros out st. Qed.

Lemma framed_bind {A B} (m : M A) (k : A -> M B) :
  Framed m -> (forall a, Framed (k a)) -> Framed (m ≫= k).
Proof.
  intros Hm Hk out st. unfold mbind, M_bind. rewrite Hm.
  destruct (m st) as [st1 [a|c|err]]; simpl; [apply Hk | done | done].
Qed.

Lemma framed_Printf (l : Line) : Framed (Printf l).
Proof.
  intros out st. unfold Printf, prepend. simpl. by rewrite app_assoc.
Qed.

Lemma framed_panic {A} err : Framed (@panic A err).
Proof. by intros out st. Qed.

Lemma framed_osExit {A} c : Framed (@osExit A c).
Proof. by intros out st. Qed.

Lemma framed_incrBlobHashErrors : Framed incrBlobHashErrors.
Proof. by intros out st. Qed.

Lemma framed_incrChainErrors : Framed incrChainErrors.
Proof. by intros out st. Qed.

Lemma framed_getBlobHashErrors : Framed getBlobHashErrors.
Proof. by intros out st. Qed.

Lemma framed_getChainErrors : Framed getChainErrors.
Proof. by intros out st. Qed.

Lemma framed_sliceTo s n : Framed (sliceTo s n).
Proof. unfold sliceTo. destruct (n <=? String.length s)%nat; by intros out st. Qed.

Lemma framed_if {A} (c : bool) (m1 m2 : M A) :
  Framed m1 -> Framed m2 -> Framed (if c then m1 else m2).
Proof. by destruct c. Qed.

Lemma framed_when c m : Framed m -> Framed (when c m).
Proof. intros. unfold when. destruct c; [done | apply framed_ret]. Qed.

Create HintDb framed.
#[global] Hint Resolve framed_ret framed_Printf framed_panic framed_osExit
  framed_incrBlobHashErrors framed_incrChainErrors framed_getBlobHashErrors
  framed_getChainErrors framed_sliceTo framed_when framed_if : framed.

Ltac framed :=
  repeat first
    [ apply framed_bind; [|intros ?]
    | apply framed_if
    | apply framed_when
    | solve [auto with framed]
    | match goal with |- Framed (match ?x with _ => _ end) => destruct x end ].

Lemma framed_checkBlobHash i blob : Framed (checkBlobHash i blob).
Proof.
  unfold checkBlobHash.
  destruct (decide (computedHash blob ≠ Hash blob)); framed.
Qed.

Lemma framed_checkLinkage export i blob : Framed (checkLinkage export i blob).
Proof.
  unfold checkLinkage, blobAt. destruct (0 <? i)%nat; [|framed].
  apply framed_bind; [framed|]. intros prev.
  destruct (decide (PreviousHash blob ≠ Hash prev)); framed.
Qed.

Lemma framed_forRange {A} (body : nat -> A -> M unit) l :
  (forall i x, Framed (body i x)) -> forall i, Framed (forRange body i l).
Proof.
  intros Hbody. induction l as [|x l IH]; intros i; simpl; [framed|].
  apply framed_bind; [apply Hbody | intros _; apply IH].
Qed.

Lemma framed_verifyChain export : Framed (verifyChain export).
Proof.
  unfold verifyChain, verifyBlobs, printSummaries, verifyChainHash,
    printVerificationResult, loopBody.
  apply framed_bind; [|intros ?].
  { apply framed_forRange. intros i x.
    apply framed_bind; [apply framed_checkBlobHash|].
    intros _. apply framed_checkLinkage. }
  framed.
Qed.

Lemma run_verifyChain (export : EvidenceExport) :
  run export = (prepend (metadataLines export) (verifyChain export initial).1,
                (verifyChain export initial).2).
Proof.
  unfold run. rewrite verifyEvidence_unfold.
  replace (setCounters initial _ _ _)
    with (prepend (metadataLines export) initial)
    by (unfold setCounters, prepend; simpl; by rewrite app_nil_r).
  apply framed_verifyChain.
Qed.

(** The checks read only [Blobs] and [ChainHash] of the export. *)
Lemma verifyChain_ext (e1 e2 : EvidenceExport) :
  Blobs e1 = Blobs e2 -> ChainHash e1 = ChainHash e2 ->
  verifyChain e1 = verifyChain e2.
Proof.
  intros Hb Hc.
  assert (computedChainHash e1 = computedChainHash e2) as Hcc.
  { rewrite !computedChainHash_chainHashOf. by rewrite Hb. }
  unfold verifyChain, verifyBlobs, printSummaries, verifyChainHash,
    printVerificationResult, loopBody, checkLinkage, blobAt.
  by rewrite Hb, Hc, Hcc.
Qed.

(** ** The fixtures *)

(** Validity of a concrete export: the goal is first taken apart down to
    closed comparisons. *)
Ltac closed_valid_export :=
  split; [by vm_compute | repeat constructor; by vm_compute].

Example goodExport_valid : valid_export goodExport.
Proof. closed_valid_export. Qed.

Example goodExport_run :
  run goodExport =
  ({| blobHashErrors := 0; chainErrors := 0;
      stdout :=
        [ ParsedOK "1.0" "2026-02-03T00:00:00Z" "auditor" 2;
          AllHashesVerified 2; LinkageIntact;
          StoredChainHash "e03f0ead24db31652d92028cd4ecabd7...";
          ComputedChainHash "e03f0ead24db31652d92028cd4ecabd7...";
          ChainHashVerified;
          ResultVerified chainHashAB 2 ] |}, Done tt).
Proof. vm_compute. reflexivity. Qed.

Example forgedExport_run :
  run forgedExport =
  ({| blobHashErrors := 2; chainErrors := 0;
      stdout :=
        [ ParsedOK "1.0" "2026-02-03T00:00:00Z" "auditor" 2;
          HashMismatchAt 1;
          ExpectedHash "5abc035b9e48c341102d4d7753633a72...";
          ComputedHash "1b26166f939feaca8ce807232ab80c0f...";
          HashMismatchAt 2;
          ExpectedHash "1b26166f939feaca8ce807232ab80c0f...";
          ComputedHash "ab251e1c45292d88d07cf30840a2b7d4...";
          HashErrorsSummary 2 2; LinkageIntact;
          StoredChainHash "e03f0ead24db31652d92028cd4ecabd7...";
          ComputedChainHash "3ff82a732f46a45590c67d117d856307...";
          ChainHashMismatch;
          ResultFailed chainHashAB 2 2 0 false ] |}, Exit 1).
Proof. vm_compute. reflexivity. Qed.

(** ** Counters and verdict of a whole run *)

Lemma verifyChain_counts export st :
  (forall err, (verifyChain export st).2 <> Panic err) ->
  blobHashErrors (verifyChain export st).1
  = (blobHashErrors st + length (mismatchPositions (Blobs export)))%nat
  /\ chainErrors (verifyChain export st).1
  = (chainErrors st + length (breakPositions (Blobs export)))%nat.
Proof.
  rewrite verifyChain_unfold. cbv zeta. intros Hnp.
  destruct (verifyBlobs export st) as [st1 [[]|c|err]] eqn:Hloop.
  - apply verifyBlobs_counts in Hloop as [Hh Hc].
    destruct (32 <=? String.length (ChainHash export))%nat;
      [|by destruct (Hnp _ eq_refl)].
    by destruct (_ && _).
  - by apply forRange_no_exit in Hloop.
  - by destruct (Hnp _ eq_refl).
Qed.

Lemma run_counts export :
  (forall err, (run export).2 <> Panic err) ->
  blobHashErrors (run export).1 = length (mismatchPositions (Blobs export))
  /\ chainErrors (run export).1 = length (breakPositions (Blobs export)).
Proof.
  rewrite run_verifyChain. simpl. intros Hnp.
  by apply (verifyChain_counts export initial).
Qed.

Lemma verdict_Verified_iff export :
  verdict export = Verified <->
  mismatchPositions (Blobs export) = [] /\ breakPositions (Blobs export) = []
  /\ computedChainHash export = ChainHash export.
Proof.
  rewrite <- run_done_iff. unfold verdict.
  destruct (run export).2 as [[]|c|err]; by split.
Qed.

(** [os.Exit] is only ever called with status 1. *)
Lemma verdict_Tampered_exit export :
  verdict export = Tampered -> exitStatus (run export).2 = 1.
Proof.
  unfold verdict. rewrite run_verifyChain. simpl.
  rewrite verifyChain_unfold. cbv zeta.
  destruct (verifyBlobs export initial) as [st1 [[]|c|err]] eqn:Hloop.
  - destruct (32 <=? String.length (ChainHash export))%nat; [|done].
    by destruct (_ && _).
  - by apply forRange_no_exit in Hloop.
  - done.
Qed.

(** A run crashes only on a slice of a stored string shorter than 32
    bytes: the three outcomes are Verified, Tampered with exit status 1,
    and that panic. *)
Lemma run_panic export err :
  (run export).2 = Panic err ->
  exists n, err = SliceBoundsOutOfRange 32 n /\ (n < 32)%nat.
Proof.
  rewrite run_verifyChain. cbn [snd]. rewrite verifyChain_unfold. cbv zeta.
  destruct (verifyBlobs export initial) as [st1 [[]|c|err1]] eqn:Hloop.
  - destruct (Nat.leb_spec 32 (String.length (ChainHash export))).
    + by destruct (_ && _ && _).
    + cbn [snd]. intros [= <-]. eauto.
  - done.
  - cbn [snd]. intros [= <-]. unfold verifyBlobs in Hloop.
    by apply forRange_panic in Hloop.
Qed.

(** ** The detail lines *)

Lemma hashReports_app out1 out2 :
  hashReports (out1 ++ out2) = hashReports out1 ++ hashReports out2.
Proof. apply omap_app. Qed.

Lemma breakReports_app out1 out2 :
  breakReports (out1 ++ out2) = breakReports out1 ++ breakReports out2.
Proof. apply omap_app. Qed.

Lemma checkBlobHash_reports i blob st st' :
  checkBlobHash i blob st = (st', Done tt) ->
  hashReports (stdout st')
  = hashReports (stdout st)
    ++ (if mismatchb blob && (S (blobHashErrors st) <=? 3)%nat
        then [(i + 1)%nat] else [])
  /\ breakReports (stdout st') = breakReports (stdout st).
Proof.
  rewrite checkBlobHash_eq. cbv zeta. unfold setCounters.
  destruct (mismatchb blob); cbn [andb].
  - destruct (S (blobHashErrors st) <=? 3)%nat.
    + destruct (32 <=? String.length (Hash blob))%nat; [|done].
      intros [= <-]. cbn [stdout].
      by rewrite hashReports_app, breakReports_app, app_nil_r.
    + intros [= <-]. cbn [stdout]. by rewrite !app_nil_r.
  - intros [= <-]. by rewrite app_nil_r.
Qed.

Lemma checkLinkage_reports export i blob st st' :
  (forall j, i = S j -> is_Some (Blobs export !! j)) ->
  checkLinkage export i blob st = (st', Done tt) ->
  breakReports (stdout st')
  = breakReports (stdout st)
    ++ (if breakb (Blobs export) i blob && (S (chainErrors st) <=? 3)%nat
        then [(i + 1)%nat] else [])
  /\ hashReports (stdout st') = hashReports (stdout st).
Proof.
  intros Hin. rewrite checkLinkage_eq by done. unfold setCounters.
  destruct i as [|j].
  - intros [= <-]. by rewrite app_nil_r.
  - cbv zeta. destruct (breakb (Blobs export) (S j) blob); cbn [andb].
    + destruct (S (chainErrors st) <=? 3)%nat.
      * destruct (32 <=? String.length _)%nat; [|done].
        destruct (32 <=? String.length _)%nat; [|done].
        intros [= <-]. cbn [stdout].
        by rewrite hashReports_app, breakReports_app, app_nil_r.
      * intros [= <-]. cbn [stdout]. by rewrite !app_nil_r.
    + intros [= <-]. by rewrite app_nil_r.
Qed.

(** A loop that runs to its end has printed the details of the first
    three failing positions of each kind, and of no others. *)
Lemma forRange_reports export l : forall i st st',
  drop i (Blobs export) = l ->
  forRange (loopBody export) i l st = (st', Done tt) ->
  hashReports (stdout st')
  = hashReports (stdout st)
    ++ map S (take (3 - blobHashErrors st)
                (positionsFrom (fun _ => mismatchb) i l))
  /\ breakReports (stdout st')
  = breakReports (stdout st)
    ++ map S (take (3 - chainErrors st)
                (positionsFrom (breakb (Blobs export)) i l)).
Proof.
  induction l as [|b l IH]; intros i st st' Hdrop Hrun.
  - injection Hrun as <-. simpl. by rewrite !take_nil, !app_nil_r.
  - apply drop_cons_inv in Hdrop as [Hi Hdrop].
    pose proof (predecessor_exists _ _ _ Hi) as Hin.
    rewrite forRange_cons, loopBody_unfold in Hrun.
    pose proof (checkBlobHash_counters i b st) as [Hh1 Hh2].
    pose proof (checkBlobHash_reports i b st) as Hr1.
    destruct (checkBlobHash i b st) as [st1 [[]| |]]; [|done..].
    destruct (Hr1 st1 eq_refl) as [Hr1h Hr1b]. clear Hr1.
    pose proof (checkLinkage_counters export i b st1 Hin) as [Hc1 Hc2].
    pose proof (checkLinkage_reports export i b st1) as Hr2.
    destruct (checkLinkage export i b st1) as [st2 [[]| |]]; [|done..].
    destruct (Hr2 st2 Hin eq_refl) as [Hr2b Hr2h]. clear Hr2.
    simpl in Hh1, Hh2, Hc1, Hc2.
    destruct (IH _ _ _ Hdrop Hrun) as [-> ->].
    rewrite Hr2h, Hr1h, Hr2b, Hr1b, Hc2, Hh1, Hc1, Hh2.
    replace (i + 1)%nat with (S i) by lia. cbn [positionsFrom]. split.
    + destruct (mismatchb b); cbn [andb].
      * destruct (Nat.leb_spec (S (blobHashErrors st)) 3).
        -- replace (3 - blobHashErrors st)%nat
             with (S (3 - (blobHashErrors st + 1))) by lia.
           simpl. by rewrite <- app_assoc.
        -- replace (3 - blobHashErrors st)%nat with 0%nat by lia.
           replace (3 - (blobHashErrors st + 1))%nat with 0%nat by lia.
           simpl. by rewrite ?take_0, ?app_nil_r.
      * simpl. by rewrite Nat.add_0_r, app_nil_r.
    + destruct (breakb (Blobs export) i b); cbn [andb].
      * destruct (Nat.leb_spec (S (chainErrors st)) 3).
        -- replace (3 - chainErrors st)%nat
             with (S (3 - (chainErrors st + 1))) by lia.
           simpl. by rewrite <- app_assoc.
        -- replace (3 - chainErrors st)%nat with 0%nat by lia.
           replace (3 - (chainErrors st + 1))%nat with 0%nat by lia.
           simpl. by rewrite ?take_0, ?app_nil_r.
      * simpl. by rewrite Nat.add_0_r, app_nil_r.
Qed.

Lemma reports_metadataLines export :
  hashReports (metadataLines export) = []
  /\ breakReports (metadataLines export) = [].
Proof. unfold metadataLines. by destruct (TimeRange export). Qed.

Lemma reports_summaryLines export st :
  hashReports (summaryLines export st) = []
  /\ breakReports (summaryLines export st) = [].
Proof.
  unfold summaryLines.
  by destruct (blobHashErrors st =? 0)%nat, (chainErrors st =? 0)%nat.
Qed.

Lemma reports_chainHashLines export :
  hashReports (chainHashLines export) = []
  /\ breakReports (chainHashLines export) = [].
Proof. unfold chainHashLines. by destruct (bool_decide _). Qed.

(** In a run that does not panic, the detail lines name the first three
    failing positions of each kind (one-based), and only those. *)
Lemma run_reports export :
  (forall err, (run export).2 <> Panic err) ->
  hashReports (stdout (run export).1)
  = map S (take 3 (mismatchPositions (Blobs export)))
  /\ breakReports (stdout (run export).1)
  = map S (take 3 (breakPositions (Blobs export))).
Proof.
  unfold run. rewrite verifyEvidence_unfold.
  set (st0 := setCounters initial _ _ _).
  rewrite verifyChain_unfold. cbv zeta. intros Hnp.
  destruct (verifyBlobs export st0) as [st1 [[]|c|err]] eqn:Hloop.
  - apply forRange_reports in Hloop as [Hh Hb]; [|done].
    destruct (reports_metadataLines export) as [Hm1 Hm2].
    destruct (reports_summaryLines export st1) as [Hs1 Hs2].
    destruct (reports_chainHashLines export) as [Hc1 Hc2].
    change (stdout st0) with (metadataLines export) in Hh, Hb.
    change (blobHashErrors st0) with 0%nat in Hh.
    change (chainErrors st0) with 0%nat in Hb.
    rewrite Hm1 in Hh. rewrite Hm2 in Hb.
    destruct (32 <=? String.length (ChainHash export))%nat;
      [|by destruct (Hnp _ eq_refl)].
    destruct (_ && _); unfold setCounters; simpl;
      rewrite !hashReports_app, !breakReports_app, Hh, Hb, Hs1, Hs2, Hc1, Hc2;
      simpl; by rewrite !app_nil_r.
  - by apply forRange_no_exit in Hloop.
  - by destruct (Hnp _ eq_refl).
Qed.

(** Four mismatches are counted, three are shown in detail. *)
Example allWrongExport_run :
  run allWrongExport =
  ({| blobHashErrors := 4; chainErrors := 0;
      stdout :=
        [ ParsedOK "1.0" "2026-02-03T00:00:00Z" "auditor" 4;
          HashMismatchAt 1;
          ExpectedHash "00000000000000000000000000000000...";
          ComputedHash "1b26166f939feaca8ce807232ab80c0f...";
          HashMismatchAt 2;
          ExpectedHash "00000000000000000000000000000000...";
          ComputedHash "1209ee535768732aeb81c859d5ada9fb...";
          HashMismatchAt 3;
          ExpectedHash "00000000000000000000000000000000...";
          ComputedHash "1b26166f939feaca8ce807232ab80c0f...";
          HashErrorsSummary 4 4; LinkageIntact;
          StoredChainHash "e03f0ead24db31652d92028cd4ecabd7...";
          ComputedChainHash "67f022195ee405142968ca1b53ae2513...";
          ChainHashMismatch;
          ResultFailed chainHashAB 4 4 0 false ] |}, Exit 1).
Proof. vm_compute. reflexivity. Qed.

(** ** Collisions exist *)

(** Among the bit strings of length [n + 1] two have the same image under
    any map into the bit strings of length [n]. *)
Lemma bits_pigeonhole (n : nat) (f : list bool -> list bool) :
  (forall l, length l = S n -> length (f l) = n) ->
  exists l1 l2, length l1 = S n /\ length l2 = S n /\ l1 <> l2 /\ f l1 = f l2.
Proof.
  intros Hf.
  set (F := fun x : { l : list bool | length l = S n } =>
              (f (`x) ↾ Hf (`x) (proj2_sig x)) : { l : list bool | length l = n }).
  destruct (finite_pigeonhole F) as (x1 & x2 & Hne & Heq).
  - rewrite !list_card. change (card bool) with 2%nat.
    apply Nat.pow_lt_mono_r; lia.
  - exists (`x1), (`x2). repeat split.
    + apply (proj2_sig x1).
    + apply (proj2_sig x2).
    + intros E. apply Hne. by apply (sig_eq_pi _).
    + by apply (f_equal proj1_sig) in Heq.
Qed.

Lemma bit_string_inj (l1 l2 : list bool) : bit_string l1 = bit_string l2 -> l1 = l2.
Proof.
  revert l2. induction l1 as [|b l1 IH]; intros [|c l2] H; simpl in H;
    try discriminate H; [reflexivity|].
  injection H as Hb Hl. f_equal; [|by apply IH].
  destruct b, c; simpl in Hb; try reflexivity; discriminate Hb.
Qed.

Lemma bits_of_string_length (s : string) :
  length (bits_of_string s) = (8 * String.length s)%nat.
Proof.
  induction s as [|[b0 b1 b2 b3 b4 b5 b6 b7] s IH]; [reflexivity|].
  cbn [bits_of_string String.length length]. rewrite IH. lia.
Qed.

Lemma bits_of_string_inj (s1 s2 : string) :
  bits_of_string s1 = bits_of_string s2 -> s1 = s2.
Proof.
  revert s2.
  induction s1 as [|[a0 a1 a2 a3 a4 a5 a6 a7] s1 IH];
    intros [|[b0 b1 b2 b3 b4 b5 b6 b7] s2] H; cbn [bits_of_string] in H;
    try discriminate H; [reflexivity|].
  injection H as -> -> -> -> -> -> -> -> H. f_equal. by apply IH.
Qed.

Lemma computedHash_ext (b1 b2 : NetFlowBlob) :
  canonicalInput b1 = canonicalInput b2 -> computedHash b1 = computedHash b2.
Proof. intros H. rewrite !computedHash_sha256_hex. by rewrite H. Qed.

Lemma computedHash_probe (src : string) :
  computedHash (probe src) = Hash (probe src).
Proof. unfold probe, seal. cbn [Hash]. by apply computedHash_ext. Qed.

Lemma probeExport_verified (src : string) : verdict (probeExport src) = Verified.
Proof.
  apply verdict_Verified_iff. split; [|split].
  - unfold mismatchPositions, positions. cbn [probeExport Blobs positionsFrom].
    unfold mismatchb. rewrite bool_decide_eq_false_2; [reflexivity|].
    intros Hne. apply Hne. apply computedHash_probe.
  - reflexivity.
  - apply computedChainHash_chainHashOf.
Qed.

(** Some two source addresses give sealed blobs with the same hash. *)
Lemma probe_collision :
  exists src1 src2, src1 <> src2 /\ Hash (probe src1) = Hash (probe src2).
Proof.
  destruct (bits_pigeonhole 512
              (fun l => bits_of_string (computedHash (probe (bit_string l)))))
    as (l1 & l2 & _ & _ & Hne & Heq).
  { intros l _. rewrite bits_of_string_length, computedHash_length. reflexivity. }
  exists (bit_string l1), (bit_string l2). split.
  - intros E. apply Hne. by apply bit_string_inj.
  - apply bits_of_string_inj in Heq. by rewrite <- !computedHash_probe.
Qed.

(** ** A run that cannot panic *)

Lemma run_no_panic export :
  hashReportable (Blobs export) -> linkReportable (Blobs export) ->
  (32 <= String.length (ChainHash export))%nat ->
  forall err, (run export).2 <> Panic err.
Proof.
  intros Hh Hl Hc err. rewrite run_verifyChain. cbn [snd].
  rewrite verifyChain_unfold. cbv zeta.
  destruct (verifyBlobs_completes export initial Hh Hl) as [st1 ->].
  apply Nat.leb_le in Hc. rewrite Hc. by destruct (_ && _).
Qed.

Lemma verdict_not_crashed export :
  (forall err, (run export).2 <> Panic err) ->
  verdict export <> Verified -> verdict export = Tampered.
Proof.
  unfold verdict. intros Hnp Hnv.
  destruct (run export).2 as [[]|c|err]; [done | done | by destruct (Hnp err)].
Qed.

(** * Lemmas for the further properties *)

(** ** Blobs that the loop cannot tell apart *)

Lemma sameChecks_computedHash x y : sameChecks x y -> computedHash x = computedHash y.
Proof.
  intros (H & _). apply computedHash_ext. by rewrite <- !hashInput_canonical.
Qed.

Lemma checkBlobHash_cong i x y :
  sameChecks x y -> checkBlobHash i x = checkBlobHash i y.
Proof.
  intros H. pose proof (sameChecks_computedHash _ _ H) as Hc.
  destruct H as (_ & Hh & _).
  unfold checkBlobHash. by rewrite Hc, Hh.
Qed.

Lemma M_bind_ret {A B} (a : A) (k : A -> M B) : mret a ≫= k = k a.
Proof. reflexivity. Qed.

Lemma checkLinkage_cong e1 e2 i x y :
  Forall2 sameChecks (Blobs e1) (Blobs e2) ->
  sameChecks x y -> checkLinkage e1 i x = checkLinkage e2 i y.
Proof.
  intros HF (_ & _ & Hp). unfold checkLinkage, blobAt.
  destruct (0 <? i)%nat; [|done].
  rewrite (Forall2_length _ _ _ HF).
  pose proof (proj1 (Forall2_lookup _ _ _) HF (i - 1)%nat) as Hl.
  destruct Hl as [p q (_ & Hh & _)|]; [|done].
  rewrite !M_bind_ret. cbv beta. by rewrite Hp, Hh.
Qed.

Lemma loopBody_cong e1 e2 i x y :
  Forall2 sameChecks (Blobs e1) (Blobs e2) ->
  sameChecks x y -> loopBody e1 i x = loopBody e2 i y.
Proof.
  intros HF Hxy. unfold loopBody.
  by rewrite (checkBlobHash_cong i x y Hxy), (checkLinkage_cong e1 e2 i x y HF Hxy).
Qed.

Lemma forRange_cong e1 e2 l1 l2 :
  Forall2 sameChecks (Blobs e1) (Blobs e2) ->
  Forall2 sameChecks l1 l2 ->
  forall i, forRange (loopBody e1) i l1 = forRange (loopBody e2) i l2.
Proof.
  intros HF Hl. induction Hl as [|x y l1 l2 Hxy _ IH]; intros i; [done|].
  cbn [forRange]. by rewrite (loopBody_cong e1 e2 i x y HF Hxy), (IH (S i)).
Qed.

Lemma chainHashOf_cong l1 l2 :
  Forall2 sameChecks l1 l2 -> chainHashOf l1 = chainHashOf l2.
Proof.
  intros H. unfold chainHashOf. f_equal. f_equal.
  induction H as [|x y l1 l2 (_ & Hh & _) _ IH]; [done|]. cbn. by rewrite Hh, IH.
Qed.

Lemma verifyChain_cong e1 e2 :
  Forall2 sameChecks (Blobs e1) (Blobs e2) -> ChainHash e1 = ChainHash e2 ->
  verifyChain e1 = verifyChain e2.
Proof.
  intros HF Hc.
  assert (computedChainHash e1 = computedChainHash e2) as Hcc.
  { rewrite !computedChainHash_chainHashOf. by apply chainHashOf_cong. }
  unfold verifyChain, verifyBlobs, printSummaries, verifyChainHash,
    printVerificationResult.
  by rewrite (forRange_cong e1 e2 _ _ HF HF 0), (Forall2_length _ _ _ HF), Hc, Hcc.
Qed.

Lemma run_cong e1 e2 :
  metadataLines e1 = metadataLines e2 ->
  Forall2 sameChecks (Blobs e1) (Blobs e2) -> ChainHash e1 = ChainHash e2 ->
  run e1 = run e2.
Proof.
  intros Hm HF Hc. rewrite !run_verifyChain.
  by rewrite Hm, (verifyChain_cong e1 e2 HF Hc).
Qed.

(** ** The separator of the hash input *)

Lemma split_at_separator (s1 s2 r1 r2 : string) :
  noSeparator s1 = true -> noSeparator s2 = true ->
  s1 +:+ "|" +:+ r1 = s2 +:+ "|" +:+ r2 -> s1 = s2 /\ r1 = r2.
Proof.
  revert s2. induction s1 as [|c s1 IH]; intros [|d s2] H1 H2 Heq.
  - rewrite !string_app_nil_l, !string_app_cons, !string_app_nil_l in Heq.
    by injection Heq.
  - rewrite string_app_nil_l, !string_app_cons, string_app_nil_l in Heq.
    injection Heq as <- _. cbn in H2. done.
  - rewrite string_app_nil_l, !string_app_cons, string_app_nil_l in Heq.
    injection Heq as -> _. cbn in H1. done.
  - rewrite !string_app_cons in Heq. injection Heq as -> Heq.
    cbn in H1, H2. apply andb_true_iff in H1 as [_ H1].
    apply andb_true_iff in H2 as [_ H2].
    destruct (IH s2 H1 H2 Heq) as [-> ->]. done.
Qed.

Lemma noSeparator_pretty_N_go (x : N) (s : string) :
  noSeparator s = true -> noSeparator (pretty_N_go x s) = true.
Proof.
  revert s. induction (N.lt_wf_0 x) as [x _ IH]; intros s Hs.
  assert (x = 0 \/ 0 < x)%N as [->|Hx] by lia.
  - by rewrite pretty_N_go_0.
  - rewrite pretty_N_go_step by done. apply IH.
    { by apply N.div_lt. }
    unfold noSeparator in *. cbn [all_chars]. rewrite Hs, andb_true_r.
    unfold pretty_N_char. by repeat case_match.
Qed.

Lemma noSeparator_fmtInteger (z : Z) : noSeparator (fmtInteger z) = true.
Proof.
  unfold fmtInteger, pretty, pretty_Z.
  destruct z as [|p|p]; [done| |].
  - unfold pretty, pretty_positive, pretty, pretty_N.
    destruct (decide _); [done|]. by apply noSeparator_pretty_N_go.
  - rewrite string_app_cons, string_app_nil_l. cbn.
    unfold pretty, pretty_positive, pretty, pretty_N.
    destruct (decide _); [done|]. by apply noSeparator_pretty_N_go.
Qed.

(** The hash input of a blob without separators in its string fields
    gives back the nine values it was built from. *)

Lemma canonicalInput_fields_inj (x y : NetFlowBlob) :
  separatorFree x -> separatorFree y ->
  canonicalInput x = canonicalInput y -> sameHashedFields x y.
Proof.
  intros (Hs1 & Hd1 & Hp1) (Hs2 & Hd2 & Hp2) Heq.
  rewrite !canonicalInput_eq in Heq. unfold sameHashedFields.
  apply split_at_separator in Heq as [-> Heq]; [|done..].
  apply split_at_separator in Heq as [-> Heq]; [|done..].
  apply split_at_separator in Heq as [->%fmtInteger_inj Heq];
    [|apply noSeparator_fmtInteger..].
  apply split_at_separator in Heq as [->%fmtInteger_inj Heq];
    [|apply noSeparator_fmtInteger..].
  apply split_at_separator in Heq as [-> Heq]; [|done..].
  apply split_at_separator in Heq as [->%fmtInteger_inj Heq];
    [|apply noSeparator_fmtInteger..].
  apply split_at_separator in Heq as [->%fmtInteger_inj Heq];
    [|apply noSeparator_fmtInteger..].
  apply split_at_separator in Heq as [->%fmtInteger_inj Heq];
    [|apply noSeparator_fmtInteger..].
  by rewrite Heq.
Qed.

(** ** Positions at which a test fires *)

Lemma positions_nil_iff test blobs :
  positions test blobs = [] <->
  forall i blob, blobs !! i = Some blob -> test i blob = false.
Proof.
  split; [intros H i blob; by apply positions_nil_test|].
  intros H. destruct (positions test blobs) as [|k r] eqn:E; [done|].
  assert (k ∈ positions test blobs) as Hin by (rewrite E; left).
  apply elem_of_positionsFrom in Hin as (_ & blob & Hl & Ht).
  rewrite Nat.sub_0_r in Hl. rewrite (H _ _ Hl) in Ht. discriminate Ht.
Qed.

Lemma positionsFrom_none test k l :
  (forall j x, l !! j = Some x -> test (k + j)%nat x = false) ->
  positionsFrom test k l = [].
Proof.
  revert k. induction l as [|y l IH]; intros k H; [done|].
  cbn [positionsFrom].
  pose proof (H 0%nat y eq_refl) as H0. rewrite Nat.add_0_r in H0.
  rewrite H0, IH; [done|].
  intros j x Hj. replace (S k + j)%nat with (k + S j)%nat by lia.
  by apply H.
Qed.

Lemma positionsFrom_single test k l i b :
  l !! i = Some b -> test (k + i)%nat b = true ->
  (forall j x, l !! j = Some x -> j <> i -> test (k + j)%nat x = false) ->
  positionsFrom test k l = [(k + i)%nat].
Proof.
  revert k i. induction l as [|y l IH]; intros k i Hi Ht Hothers; [done|].
  cbn [positionsFrom]. destruct i as [|i].
  - injection Hi as ->. rewrite Nat.add_0_r in *. rewrite Ht.
    rewrite positionsFrom_none; [done|].
    intros j x Hj. replace (S k + j)%nat with (k + S j)%nat by lia.
    by apply Hothers.
  - pose proof (Hothers 0%nat y eq_refl) as H0. rewrite Nat.add_0_r in H0.
    rewrite H0 by done. cbn [app].
    replace (k + S i)%nat with (S k + i)%nat by lia.
    apply IH; [done|by replace (S k + i)%nat with (k + S i)%nat by lia|].
    intros j x Hj Hne. replace (S k + j)%nat with (k + S j)%nat by lia.
    apply Hothers; [done|lia].
Qed.

(** ** The stored strings of an export that passes the checks *)

Lemma verified_hashes export i blob :
  mismatchPositions (Blobs export) = [] -> Blobs export !! i = Some blob ->
  Hash blob = computedHash blob.
Proof.
  intros Hm Hi. pose proof (positions_nil_test _ _ _ _ Hm Hi) as H.
  unfold mismatchb in H. apply bool_decide_eq_false in H.
  destruct (decide (computedHash blob = Hash blob)) as [E|E]; [done|].
  by destruct H.
Qed.

Lemma verified_links blobs j prev blob :
  breakPositions blobs = [] ->
  blobs !! j = Some prev -> blobs !! S j = Some blob ->
  PreviousHash blob = Hash prev.
Proof.
  intros Hb Hj Hi. pose proof (positions_nil_test _ _ _ _ Hb Hi) as H.
  cbn [breakb] in H. rewrite Hj in H. apply bool_decide_eq_false in H.
  destruct (decide (PreviousHash blob = Hash prev)) as [E|E]; [done|].
  by destruct H.
Qed.

Lemma computedHash_eq_collision (x y : NetFlowBlob) :
  computedHash x = computedHash y ->
  hashInput x = hashInput y \/ sha256_collision (hashInput x) (hashInput y).
Proof.
  rewrite !computedHash_sha256_hex, <- !hashInput_canonical.
  unfold sha256_hex. intros H%fmtSbx_inj.
  destruct (decide (hashInput x = hashInput y)) as [E|E]; [by left|].
  right. by split.
Qed.

Lemma hashInput_setPreviousHash (p : string) (b : NetFlowBlob) :
  hashInput (setPreviousHash p b) = hashInput b -> p = PreviousHash b.
Proof.
  rewrite !hashInput_canonical, !canonicalInput_eq.
  destruct b as [id bts [ts sip dip sp dp proto bytes pkts payload] prev h d a].
  cbn. intros Heq.
  repeat (match type of Heq with
          | ?q +:+ _ = ?q +:+ _ => apply (inj (String.app q)) in Heq
          end).
  exact Heq.
Qed.

Lemma breakb_insert_prev l i b p j x :
  l !! i = Some b ->
  breakb (<[i:=setPreviousHash p b]> l) j x = breakb l j x.
Proof.
  intros Hi. destruct j as [|j]; [done|]. cbn [breakb].
  destruct (decide (i = j)) as [->|Hne].
  - rewrite list_lookup_insert_eq by (by eapply lookup_lt_Some).
    by rewrite Hi.
  - by rewrite list_lookup_insert_ne.
Qed.

Lemma breakPositions_insert_prev l i b p :
  breakPositions l = [] -> l !! i = Some b -> p <> PreviousHash b ->
  breakPositions (<[i:=setPreviousHash p b]> l)
  = match i with O => [] | S _ => [i] end.
Proof.
  intros Hb Hi Hp. unfold breakPositions, positions.
  assert (forall j x, <[i:=setPreviousHash p b]> l !! j = Some x -> j <> i ->
            breakb (<[i:=setPreviousHash p b]> l) j x = false) as Hothers.
  { intros j x Hj Hne. rewrite list_lookup_insert_ne in Hj by done.
    rewrite (breakb_insert_prev _ _ _ _ _ _ Hi).
    by apply (positions_nil_test _ _ _ _ Hb Hj). }
  assert (<[i:=setPreviousHash p b]> l !! i = Some (setPreviousHash p b))
    as Hi'.
  { apply list_lookup_insert_eq. by eapply lookup_lt_Some. }
  destruct i as [|i].
  - apply positionsFrom_none. intros j x Hj. cbn [Nat.add].
    destruct j as [|j]; [done|]. by apply Hothers.
  - apply (positionsFrom_single _ 0 _ (S i) _ Hi'); [|exact Hothers].
    cbn [Nat.add]. rewrite (breakb_insert_prev _ _ _ _ _ _ Hi).
    cbn [breakb].
    destruct (l !! i) as [prev|] eqn:Hprev.
    + cbn [PreviousHash setPreviousHash]. apply bool_decide_eq_true.
      by rewrite <- (verified_links l i prev b Hb Hprev Hi).
    + apply lookup_ge_None in Hprev. apply lookup_lt_Some in Hi. lia.
Qed.

Lemma stored_hash_length export i blob :
  mismatchPositions (Blobs export) = [] -> Blobs export !! i = Some blob ->
  String.length (Hash blob) = 64%nat.
Proof.
  intros Hm Hi. rewrite (verified_hashes _ _ _ Hm Hi).
  apply computedHash_length.
Qed.

(** ** Segments of a chain *)

Lemma lookup_segment {A} (l : list A) k n j x :
  take n (drop k l) !! j = Some x -> l !! (k + j)%nat = Some x.
Proof. intros [H _]%lookup_take_Some. by rewrite lookup_drop in H. Qed.

Lemma mismatchPositions_segment l k n :
  mismatchPositions l = [] -> mismatchPositions (take n (drop k l)) = [].
Proof.
  intros Hm. apply positions_nil_iff. intros j x Hj%lookup_segment.
  by apply (positions_nil_test _ _ _ _ Hm Hj).
Qed.

Lemma breakPositions_segment l k n :
  breakPositions l = [] -> breakPositions (take n (drop k l)) = [].
Proof.
  intros Hb. apply positions_nil_iff. intros [|j] x Hj; [done|].
  cbn [breakb]. destruct (take n (drop k l) !! j) as [prev|] eqn:Hprev; [|done].
  apply lookup_segment in Hj, Hprev.
  replace (k + S j)%nat with (S (k + j)) in Hj by lia.
  rewrite (verified_links l _ _ _ Hb Hprev Hj).
  apply bool_decide_eq_false. by intros H.
Qed.

Lemma concat_hashes_length (l : list NetFlowBlob) :
  Forall (fun b => String.length (Hash b) = 64%nat) l ->
  String.length (String.concat "" (map Hash l)) = (64 * length l)%nat.
Proof.
  induction 1 as [|b l Hb _ IH]; [done|].
  rewrite map_cons, concat_empty_sep_cons, string_length_app, Hb, IH.
  cbn [length]. lia.
Qed.

Lemma verified_hash_lengths l :
  mismatchPositions l = [] ->
  Forall (fun b => String.length (Hash b) = 64%nat) l.
Proof.
  intros Hm. apply Forall_lookup. intros i b Hi.
  pose proof (positions_nil_test _ _ _ _ Hm Hi) as H.
  unfold mismatchb in H. apply bool_decide_eq_false in H.
  destruct (decide (computedHash b = Hash b)) as [E|E]; [|by destruct H].
  rewrite <- E. apply computedHash_length.
Qed.

Lemma sha256_hex_eq_collision (x y : string) :
  sha256_hex x = sha256_hex y -> x = y \/ sha256_collision x y.
Proof.
  unfold sha256_hex. intros H%fmtSbx_inj.
  destruct (decide (x = y)) as [E|E]; [by left|]. right. by split.
Qed.

(** ** Sealed chains *)

Lemma mismatchb_seal (b : NetFlowBlob) : mismatchb (seal b) = false.
Proof.
  unfold mismatchb. apply bool_decide_eq_false. intros H. apply H.
  unfold seal. cbn [Hash]. by apply computedHash_ext.
Qed.

Lemma mismatchPositions_sealChain blobs : forall prev,
  mismatchPositions (sealChain prev blobs) = [].
Proof.
  intros prev. apply positions_nil_iff. revert prev.
  induction blobs as [|b rest IH]; intros prev i x Hi; [done|].
  cbn [sealChain] in Hi. destruct i as [|i].
  - injection Hi as <-. apply mismatchb_seal.
  - by eapply IH.
Qed.

Lemma sealChain_links blobs : forall prev j p x,
  sealChain prev blobs !! j = Some p ->
  sealChain prev blobs !! S j = Some x -> PreviousHash x = Hash p.
Proof.
  induction blobs as [|b rest IH]; intros prev j p x Hj HSj; [done|].
  cbn [sealChain] in Hj, HSj. destruct j as [|j].
  - injection Hj as <-. destruct rest as [|c rest]; [done|].
    cbn [sealChain] in HSj. by injection HSj as <-.
  - by eapply IH.
Qed.

Lemma breakPositions_sealChain blobs prev :
  breakPositions (sealChain prev blobs) = [].
Proof.
  apply positions_nil_iff. intros [|j] x Hj; [done|]. cbn [breakb].
  destruct (sealChain prev blobs !! j) as [p|] eqn:Hp; [|done].
  rewrite (sealChain_links _ _ _ _ _ Hp Hj).
  apply bool_decide_eq_false. by intros H.
Qed.

Lemma sealChain_records blobs : forall prev,
  Forall2 (fun sealed b =>
             Record_ sealed = Record_ b /\ BlobID sealed = BlobID b
             /\ BlobTimestamp sealed = BlobTimestamp b
             /\ DeviationScore sealed = DeviationScore b
             /\ IsAnomaly sealed = IsAnomaly b)
    (sealChain prev blobs) blobs.
Proof.
  induction blobs as [|b rest IH]; intros prev; [constructor|].
  cbn [sealChain]. constructor; [done|apply IH].
Qed.

(** ** The chain hash and the stored hashes *)

Lemma string_app_inj_length (s1 s2 r1 r2 : string) :
  String.length s1 = String.length s2 ->
  s1 +:+ r1 = s2 +:+ r2 -> s1 = s2 /\ r1 = r2.
Proof.
  revert s2. induction s1 as [|c s1 IH]; intros [|d s2] Hlen Heq;
    try discriminate Hlen.
  - by rewrite !string_app_nil_l in Heq.
  - rewrite !string_app_cons in Heq. injection Heq as -> Heq.
    injection Hlen as Hlen. by destruct (IH s2 Hlen Heq) as [-> ->].
Qed.

Lemma concat_hashes_inj (l1 l2 : list NetFlowBlob) :
  Forall (fun b => String.length (Hash b) = 64%nat) l1 ->
  Forall (fun b => String.length (Hash b) = 64%nat) l2 ->
  String.concat "" (map Hash l1) = String.concat "" (map Hash l2) ->
  Forall2 (fun x y => Hash x = Hash y) l1 l2.
Proof.
  intros H1. revert l2. induction H1 as [|x l1 Hx H1 IH]; intros l2 H2 Heq.
  - destruct H2 as [|y l2 Hy H2]; [constructor|].
    apply (f_equal String.length) in Heq.
    rewrite map_cons, concat_empty_sep_cons, string_length_app, Hy in Heq.
    cbn in Heq. lia.
  - destruct H2 as [|y l2 Hy H2].
    + apply (f_equal String.length) in Heq.
      rewrite map_cons, concat_empty_sep_cons, string_length_app, Hx in Heq.
      cbn in Heq. lia.
    + rewrite !map_cons, !concat_empty_sep_cons in Heq.
      apply string_app_inj_length in Heq as [Hh Heq]; [|by rewrite Hx, Hy].
      constructor; [exact Hh|by apply IH].
Qed.

Lemma same_hash_same_input (l1 l2 : list NetFlowBlob) :
  Forall2 (fun x y => Hash x = Hash y) l1 l2 ->
  Forall (fun b => Hash b = computedHash b) l1 ->
  Forall (fun b => Hash b = computedHash b) l2 ->
  Forall2 (fun x y => Hash x = Hash y /\ hashInput x = hashInput y) l1 l2
  \/ exists i x y, l1 !! i = Some x /\ l2 !! i = Some y
                   /\ sha256_collision (hashInput x) (hashInput y).
Proof.
  induction 1 as [|x y l1 l2 Hxy _ IH]; intros H1 H2; [left; constructor|].
  apply Forall_cons in H1 as [Hx H1]. apply Forall_cons in H2 as [Hy H2].
  assert (computedHash x = computedHash y) as Hc by (by rewrite <- Hx, <- Hy).
  apply computedHash_eq_collision in Hc as [Hin|Hcol].
  - destruct (IH H1 H2) as [Hall|(i & x' & y' & Hi1 & Hi2 & Hcol)].
    + left. by constructor.
    + right. by exists (S i), x', y'.
  - right. by exists 0%nat, x, y.
Qed.

Lemma verified_hashes_computed l :
  mismatchPositions l = [] -> Forall (fun b => Hash b = computedHash b) l.
Proof.
  intros Hm. apply Forall_lookup. intros i b Hi.
  pose proof (positions_nil_test _ _ _ _ Hm Hi) as H.
  unfold mismatchb in H. apply bool_decide_eq_false in H.
  destruct (decide (computedHash b = Hash b)) as [E|E]; [done|by destruct H].
Qed.

Lemma string_app_ne_self (s t : string) : t <> "" -> s +:+ t <> s.
Proof.
  intros Ht E. apply (f_equal String.length) in E.
  rewrite string_length_app in E. destruct t; [done|]. cbn in E. lia.
Qed.

(** ** The lines of a report *)

Lemma checkBlobHash_stdout i blob st :
  exists d, stdout (checkBlobHash i blob st).1 = stdout st ++ d /\ detailsOnly d
            /\ (mismatchb blob = false -> d = []).
Proof.
  rewrite checkBlobHash_eq. cbv zeta.
  destruct (mismatchb blob);
    [|exists []; split; [by rewrite app_nil_r|split; [constructor|done]]].
  destruct (S (blobHashErrors st) <=? 3)%nat;
    [|exists []; split; [reflexivity|split; [constructor|done]]].
  destruct (32 <=? String.length (Hash blob))%nat;
    eexists; (split; [reflexivity|split; [repeat constructor|done]]).
Qed.

Lemma checkLinkage_stdout export i blob st :
  (forall j, i = S j -> is_Some (Blobs export !! j)) ->
  exists d, stdout (checkLinkage export i blob st).1 = stdout st ++ d
            /\ detailsOnly d
            /\ (breakb (Blobs export) i blob = false -> d = []).
Proof.
  intros Hin. rewrite checkLinkage_eq by done. cbv zeta.
  destruct i as [|j];
    [exists []; split; [by rewrite app_nil_r|split; [constructor|done]]|].
  destruct (breakb _ _ _);
    [|exists []; split; [by rewrite app_nil_r|split; [constructor|done]]].
  destruct (S (chainErrors st) <=? 3)%nat;
    [|exists []; split; [reflexivity|split; [constructor|done]]].
  destruct (32 <=? String.length _)%nat;
    [destruct (32 <=? String.length (PreviousHash blob))%nat|];
    eexists; (split; [reflexivity|split; [repeat constructor|done]]).
Qed.

Lemma forRange_stdout export l : forall i st,
  drop i (Blobs export) = l ->
  exists d, stdout (forRange (loopBody export) i l st).1 = stdout st ++ d
            /\ detailsOnly d
            /\ (positionsFrom (fun _ => mismatchb) i l = [] ->
                positionsFrom (breakb (Blobs export)) i l = [] -> d = []).
Proof.
  induction l as [|b l IH]; intros i st Hdrop.
  - exists []. split; [by rewrite app_nil_r|split; [constructor|done]].
  - apply drop_cons_inv in Hdrop as [Hi Hdrop].
    pose proof (predecessor_exists _ _ _ Hi) as Hin.
    rewrite forRange_cons, loopBody_unfold.
    assert (forall d1 d2 d3 : list Line,
              (mismatchb b = false -> d1 = []) ->
              (breakb (Blobs export) i b = false -> d2 = []) ->
              (positionsFrom (fun _ => mismatchb) (S i) l = [] ->
               positionsFrom (breakb (Blobs export)) (S i) l = [] -> d3 = []) ->
              positionsFrom (fun _ => mismatchb) i (b :: l) = [] ->
              positionsFrom (breakb (Blobs export)) i (b :: l) = [] ->
              d1 ++ d2 ++ d3 = []) as Hnil.
    { intros d1 d2 d3 E1 E2 E3 Hm Hb. cbn [positionsFrom] in Hm, Hb.
      apply app_eq_nil in Hm as [Hm1 Hm2]. apply app_eq_nil in Hb as [Hb1 Hb2].
      rewrite E1, E2, E3; [done|done|done| |].
      - by destruct (breakb (Blobs export) i b).
      - by destruct (mismatchb b). }
    destruct (checkBlobHash_stdout i b st) as (d1 & H1 & Hd1 & E1).
    destruct (checkBlobHash i b st) as [st1 [[]|c|err]]; cbn [fst] in H1.
    2,3: exists d1; split; [exact H1|split; [exact Hd1|]];
         intros Hm Hb; specialize (Hnil d1 [] [] E1 (fun _ => eq_refl)
                                     (fun _ _ => eq_refl) Hm Hb);
         by rewrite app_nil_r in Hnil.
    destruct (checkLinkage_stdout export i b st1 Hin) as (d2 & H2 & Hd2 & E2).
    destruct (checkLinkage export i b st1) as [st2 [[]|c|err]]; cbn [fst] in H2.
    2,3: exists (d1 ++ d2); split; [cbn [fst]; by rewrite H2, H1, <- app_assoc|];
         split; [by apply Forall_app_2|];
         intros Hm Hb; specialize (Hnil d1 d2 [] E1 E2 (fun _ _ => eq_refl) Hm Hb);
         by rewrite app_nil_r in Hnil.
    destruct (IH (S i) st2 Hdrop) as (d3 & H3 & Hd3 & E3).
    exists (d1 ++ d2 ++ d3). split; [by rewrite H3, H2, H1, <- !app_assoc|].
    split; [by repeat apply Forall_app_2|]. by apply Hnil.
Qed.

Lemma detail_not_verdict d :
  detailsOnly d -> Forall (fun l => isVerdictLine l = false) d.
Proof. intros H. eapply Forall_impl; [exact H|]. by intros []. Qed.

Lemma metadata_not_verdict export :
  Forall (fun l => isVerdictLine l = false) (metadataLines export).
Proof. unfold metadataLines. destruct (TimeRange export); by repeat constructor. Qed.

Lemma stdout_prepend out st : stdout (prepend out st) = out ++ stdout st.
Proof. reflexivity. Qed.

Lemma run_stdout export :
  exists d, detailsOnly d /\
  match (run export).2 with
  | Done _ =>
      stdout (run export).1 =
        metadataLines export
        ++ [ AllHashesVerified (length (Blobs export)); LinkageIntact;
             StoredChainHash (substring 0 32 (ChainHash export) +:+ "...");
             ComputedChainHash (substring 0 32 (ChainHash export) +:+ "...");
             ChainHashVerified;
             ResultVerified (ChainHash export) (length (Blobs export)) ]
  | Exit c =>
      c = 1 /\
      stdout (run export).1 =
        metadataLines export ++ d ++ summaryLines export (run export).1
        ++ chainHashLines export
        ++ [ ResultFailed (ChainHash export) (length (Blobs export))
               (length (mismatchPositions (Blobs export)))
               (length (breakPositions (Blobs export)))
               (bool_decide (computedChainHash export = ChainHash export)) ]
  | Panic _ =>
      stdout (run export).1 = metadataLines export ++ d
      \/ stdout (run export).1
         = metadataLines export ++ d ++ summaryLines export (run export).1
  end.
Proof.
  rewrite run_verifyChain. cbn [fst snd]. rewrite verifyChain_unfold. cbv zeta.
  destruct (forRange_stdout export (Blobs export) 0 initial eq_refl)
    as (d & Hd & Hdet & Hnil).
  fold (verifyBlobs export) in Hd.
  destruct (verifyBlobs export initial) as [st1 [[]|c|err]] eqn:Hloop;
    cbn [fst] in Hd; cbn [stdout initial app] in Hd.
  - apply verifyBlobs_counts in Hloop as [Hh Hc].
    cbn [blobHashErrors chainErrors initial Nat.add] in Hh, Hc.
    destruct (32 <=? String.length (ChainHash export))%nat.
    + destruct ((blobHashErrors st1 =? 0)%nat && (chainErrors st1 =? 0)%nat
                && bool_decide (computedChainHash export = ChainHash export))
        eqn:E.
      * apply andb_true_iff in E as [E Hm]. apply andb_true_iff in E as [E1 E2].
        apply Nat.eqb_eq in E1, E2. apply bool_decide_eq_true in Hm.
        exists d. split; [exact Hdet|]. cbn [fst snd].
        rewrite stdout_prepend. f_equal. cbn [stdout setCounters].
        rewrite Hd, Hnil.
        -- unfold summaryLines, chainHashLines. rewrite E1, E2, Hm.
           rewrite bool_decide_eq_true_2 by done. reflexivity.
        -- apply length_zero_iff_nil. unfold mismatchPositions, positions in Hh. lia.
        -- apply length_zero_iff_nil. unfold breakPositions, positions in Hc. lia.
      * exists d. split; [exact Hdet|]. cbn [fst snd]. split; [done|].
        rewrite stdout_prepend. f_equal. cbn [stdout setCounters].
        rewrite Hd, <- Hh, <- Hc, <- !app_assoc. reflexivity.
    + exists d. split; [exact Hdet|]. cbn [fst snd]. right.
      rewrite stdout_prepend. f_equal. cbn [stdout setCounters].
      by rewrite Hd.
  - by apply forRange_no_exit in Hloop.
  - exists d. split; [exact Hdet|]. cbn [fst snd]. left.
    rewrite stdout_prepend. by rewrite Hd.
Qed.

Lemma summary_not_verdict export st :
  Forall (fun l => isVerdictLine l = false) (summaryLines export st).
Proof.
  unfold summaryLines.
  destruct (blobHashErrors st =? 0)%nat, (chainErrors st =? 0)%nat;
    by repeat constructor.
Qed.

Lemma chainHash_not_verdict export :
  Forall (fun l => isVerdictLine l = false) (chainHashLines export).
Proof.
  unfold chainHashLines.
  destruct (bool_decide (computedChainHash export = ChainHash export));
    by repeat constructor.
Qed.

(** ** Exit status and output of the command line *)

Lemma run_exit_status export :
  exitStatus (run export).2 = 0 /\ verdict export = Verified
  \/ exitStatus (run export).2 = 1 /\ verdict export = Tampered
  \/ exitStatus (run export).2 = 2
     /\ exists n, (run export).2 = Panic (SliceBoundsOutOfRange 32 n)
                  /\ (n < 32)%nat.
Proof.
  pose proof (verdict_Tampered_exit export) as Hexit.
  pose proof (run_panic export) as Hpanic.
  unfold verdict in *.
  destruct (run export).2 as [[]|c|err].
  - by left.
  - right; left. split; [by apply Hexit|done].
  - right; right. split; [done|].
    destruct (Hpanic err eq_refl) as (n & -> & Hn). by exists n.
Qed.

Lemma elem_of_verify (command : string) :
  command ∈ ["verify"; "import"] -> command = "verify" \/ command = "import".
Proof. rewrite !elem_of_cons, elem_of_nil. tauto. Qed.

Lemma run_prints_metadata export :
  exists rest,
    stdout (run export).1
    = ParsedOK (Version export) (ExportedAt export) (ExportedBy export)
        (BlobCount export) :: rest.
Proof. rewrite run_verifyChain. cbn [fst]. by eexists. Qed.

Lemma Report_elem_of (o : Output) (out : list Line) :
  o ∈ Report <$> out <-> exists l, o = Report l /\ l ∈ out.
Proof. apply list_elem_of_fmap. Qed.

Ltac no_such_output :=
  repeat match goal with
         | H : _ ∈ _ :: _ |- _ => apply elem_of_cons in H as [H|H]
         | H : _ ∈ [] |- _ => by apply elem_of_nil in H
         | H : _ ∈ Report <$> _ |- _ =>
             apply Report_elem_of in H as (? & H & _)
         | H : @eq Output _ _ |- _ => discriminate H
         end.

(** ** Runs that panic *)

(** The first three positions of a kind are the ones reported: a check
    that fires at position [i] after [n] earlier ones uses up one of the
    three reports. *)
Lemma take_budget_cons (n : nat) (fires : bool) (i : nat) (rest : list nat)
    (P : nat -> Prop) :
  (exists j, j ∈ take (3 - n) ((if fires then [i] else []) ++ rest) /\ P j) <->
  (fires = true /\ (S n <=? 3)%nat = true /\ P i)
  \/ (exists j, j ∈ take (3 - (if fires then S n else n)) rest /\ P j).
Proof.
  destruct fires; cbn [app].
  - destruct (Nat.leb_spec (S n) 3) as [Hle|Hgt].
    + replace (3 - n)%nat with (S (3 - S n)) by lia. cbn [take]. split.
      * intros (j & [->|Hj]%elem_of_cons & HP); [by left|right; by exists j].
      * intros [(_ & _ & HP)|(j & Hj & HP)].
        -- exists i. split; [left|done].
        -- exists j. split; [by right|done].
    + replace (3 - n)%nat with 0%nat by lia.
      replace (3 - S n)%nat with 0%nat by lia. cbn [take]. split.
      * intros (j & Hj & _). by apply elem_of_nil in Hj.
      * intros [(_ & [=] & _)|(j & Hj & _)]. by apply elem_of_nil in Hj.
  - split.
    + intros H. by right.
    + intros [([=] & _)|H]. done.
Qed.

(** The outcome of each of the two checks of one iteration. *)
Lemma checkBlobHash_outcome i b st :
  let fires := mismatchb b in
  (fires = true /\ (S (blobHashErrors st) <=? 3)%nat = true
   /\ (String.length (Hash b) < 32)%nat
   /\ exists st' err, checkBlobHash i b st = (st', Panic err))
  \/ (~ (fires = true /\ (S (blobHashErrors st) <=? 3)%nat = true
         /\ (String.length (Hash b) < 32)%nat)
      /\ exists st', checkBlobHash i b st = (st', Done tt)
           /\ blobHashErrors st'
              = (if fires then S (blobHashErrors st) else blobHashErrors st)
           /\ chainErrors st' = chainErrors st).
Proof.
  cbv zeta. rewrite checkBlobHash_eq. cbv zeta.
  destruct (mismatchb b); [|right; split; [by intros ([=] & _)|by eexists]].
  destruct (S (blobHashErrors st) <=? 3)%nat;
    [|right; split; [by intros (_ & [=] & _)|by eexists]].
  destruct (Nat.leb_spec 32 (String.length (Hash b))) as [Hle|Hlt].
  - right. split; [intros (_ & _ & H); lia|by eexists].
  - left. repeat split; [done|]. by do 2 eexists.
Qed.

Lemma checkLinkage_outcome export i b st :
  Blobs export !! i = Some b ->
  let fires := breakb (Blobs export) i b in
  (fires = true /\ (S (chainErrors st) <=? 3)%nat = true
   /\ shortLinkAt (Blobs export) i
   /\ exists st' err, checkLinkage export i b st = (st', Panic err))
  \/ (~ (fires = true /\ (S (chainErrors st) <=? 3)%nat = true
         /\ shortLinkAt (Blobs export) i)
      /\ exists st', checkLinkage export i b st = (st', Done tt)
           /\ blobHashErrors st' = blobHashErrors st
           /\ chainErrors st'
              = (if fires then S (chainErrors st) else chainErrors st)).
Proof.
  intros Hi. cbv zeta.
  rewrite checkLinkage_eq by (by eapply predecessor_exists). cbv zeta.
  destruct i as [|j]; [right; split; [by intros ([=] & _)|by eexists]|].
  destruct (predecessor_exists _ _ _ Hi j eq_refl) as [prev Hprev].
  rewrite Hprev. cbn [fmap option_fmap option_map default]. unfold id.
  assert (shortLinkAt (Blobs export) (S j) <->
          (String.length (Hash prev) < 32)%nat
          \/ (String.length (PreviousHash b) < 32)%nat) as Hshort.
  { split.
    - intros (i' & prev' & b' & [= <-] & Hp' & Hb' & H).
      rewrite Hprev in Hp'. rewrite Hi in Hb'.
      injection Hp' as <-. injection Hb' as <-. exact H.
    - intros H. by exists j, prev, b. }
  destruct (breakb (Blobs export) (S j) b);
    [|right; split; [by intros ([=] & _)|by eexists]].
  destruct (S (chainErrors st) <=? 3)%nat;
    [|right; split; [by intros (_ & [=] & _)|by eexists]].
  destruct (Nat.leb_spec 32 (String.length (Hash prev))) as [Hle|Hlt].
  - destruct (Nat.leb_spec 32 (String.length (PreviousHash b))) as [Hle'|Hlt'].
    + right. split; [intros (_ & _ & H%Hshort); lia|by eexists].
    + left. repeat split; [apply Hshort; by right|]. by do 2 eexists.
  - left. repeat split; [apply Hshort; by left|]. by do 2 eexists.
Qed.

Lemma forRange_panics_iff export l : forall i st,
  drop i (Blobs export) = l ->
  (exists st' err, forRange (loopBody export) i l st = (st', Panic err)) <->
  (exists j,
     j ∈ take (3 - blobHashErrors st) (positionsFrom (fun _ => mismatchb) i l)
     /\ shortHashAt (Blobs export) j)
  \/ (exists j,
        j ∈ take (3 - chainErrors st)
              (positionsFrom (breakb (Blobs export)) i l)
        /\ shortLinkAt (Blobs export) j).
Proof.
  induction l as [|b l IH]; intros i st Hdrop.
  - cbn [forRange positionsFrom]. rewrite !take_nil. split.
    + by intros (? & ? & [=]).
    + intros [(j & Hj & _)|(j & Hj & _)]; by apply elem_of_nil in Hj.
  - apply drop_cons_inv in Hdrop as [Hi Hdrop].
    cbn [positionsFrom]. rewrite !take_budget_cons.
    rewrite forRange_cons, loopBody_unfold.
    assert (shortHashAt (Blobs export) i
            <-> (String.length (Hash b) < 32)%nat) as HSH.
    { split.
      - intros (b' & Hb' & H). rewrite Hi in Hb'. by injection Hb' as <-.
      - intros H. by exists b. }
    rewrite HSH.
    destruct (checkBlobHash_outcome i b st)
      as [(Hf & Hn & Hlen & st1 & err & ->)|(Hno & st1 & -> & Hh1 & Hc1)].
    { split; [intros _; by left; left|intros _; by exists st1, err]. }
    destruct (checkLinkage_outcome export i b st1 Hi)
      as [(Hf & Hn & Hsl & st2 & err & ->)|(Hno' & st2 & -> & Hh2 & Hc2)].
    { rewrite Hc1 in Hn.
      split; [intros _; by right; left|intros _; by exists st2, err]. }
    rewrite (IH (S i) st2 Hdrop), Hh2, Hh1, Hc2, Hc1.
    rewrite Hc1 in Hno'. tauto.
Qed.

(** ** Runs of further fixtures *)

Example unreachedExport_run :
  run unreachedExport =
  ({| blobHashErrors := 1; chainErrors := 0;
      stdout := [ ParsedOK "1.0" "2026-02-03T00:00:00Z" "auditor" 2;
                  HashMismatchAt 1 ] |},
   Panic (SliceBoundsOutOfRange 32 3)).
Proof. vm_compute. reflexivity. Qed.

Example brokenLinkExport_run :
  run brokenLinkExport =
  ({| blobHashErrors := 0; chainErrors := 1;
      stdout :=
        [ ParsedOK "1.0" "2026-02-03T00:00:00Z" "auditor" 2;
          ChainBreakAt 2;
          ExpectedPrev "1b26166f939feaca8ce807232ab80c0f...";
          ActualPrev "00000000000000000000000000000000...";
          AllHashesVerified 2; ChainBreaksSummary 1;
          StoredChainHash "e03f0ead24db31652d92028cd4ecabd7...";
          ComputedChainHash "c3325f43b940ca2d756a02dbe43d3af8...";
          ChainHashMismatch;
          ResultFailed chainHashAB 2 0 1 false ] |}, Exit 1).
Proof. vm_compute. reflexivity. Qed.

Example oddLengthHashExport_run :
  run oddLengthHashExport =
  ({| blobHashErrors := 1; chainErrors := 0;
      stdout :=
        [ ParsedOK "1.0" "2026-02-03T00:00:00Z" "auditor" 1;
          HashMismatchAt 1;
          ExpectedHash "1b26166f939feaca8ce807232ab80c0f...";
          ComputedHash "1b26166f939feaca8ce807232ab80c0f...";
          HashErrorsSummary 1 1; LinkageIntact;
          StoredChainHash "e03f0ead24db31652d92028cd4ecabd7...";
          ComputedChainHash "10cc386ad34b6f757b1ea15f6ac84106...";
          ChainHashMismatch;
          ResultFailed chainHashAB 1 1 0 false ] |}, Exit 1).
Proof. vm_compute. reflexivity. Qed.

(** A run that does not panic and meets a mismatch or a break ends
    Tampered. *)
Lemma failed_check_Tampered export :
  (forall err, (run export).2 <> Panic err) ->
  mismatchPositions (Blobs export) <> []
  \/ breakPositions (Blobs export) <> [] ->
  verdict export = Tampered.
Proof.
  intros Hnp Hfail. apply verdict_not_crashed; [exact Hnp|].
  intros (Hm & Hb & _)%verdict_Verified_iff.
  destruct Hfail as [H|H]; by apply H.
Qed.

(** * The claims *)

(** C1 (the code departs from the claim).  The claim: for every export
    the verdict is Verified, with exit status 0, exactly when there is no
    hash mismatch, no linkage break and the chain hash matches, and
    otherwise it is Tampered, with exit status 1.  The first half holds
    for every export, and a Tampered verdict does exit with status 1.
    But "otherwise Tampered" does not hold: on the zero-valued export,
    which is what the document [{}] decodes to, the chain hash check
    fails, and instead of a Tampered verdict the run panics on
    [export.ChainHash[:32]] (line 208); the process ends with status
    2. *)
Theorem verified_iff_checks_pass_but_failure_may_crash :
  (forall export,
     verdict export = Verified <->
     mismatchPositions (Blobs export) = []
     /\ breakPositions (Blobs export) = []
     /\ computedChainHash export = ChainHash export)
  /\ (forall export, verdict export = Verified -> exitStatus (run export).2 = 0)
  /\ (forall export, verdict export = Tampered -> exitStatus (run export).2 = 1)
  /\ valid_export zeroExport
  /\ mismatchPositions (Blobs zeroExport) = []
  /\ breakPositions (Blobs zeroExport) = []
  /\ computedChainHash zeroExport <> ChainHash zeroExport
  /\ run zeroExport
     = ({| blobHashErrors := 0; chainErrors := 0;
           stdout := [ParsedOK "" "" "" 0; AllHashesVerified 0; LinkageIntact] |},
        Panic (SliceBoundsOutOfRange 32 0))
  /\ verdict zeroExport = Crashed (SliceBoundsOutOfRange 32 0)
  /\ exitStatus (run zeroExport).2 = 2.
Proof.
  split; [apply verdict_Verified_iff|].
  split; [intros export; unfold verdict; by destruct (run export).2|].
  split; [apply verdict_Tampered_exit|].
  split; [closed_valid_export|].
  repeat split; by vm_compute.
Qed.

(** C2.  The hash that the per-blob check recomputes is the SHA-256
    checksum, as 64 lowercase hexadecimal digits, of the bytes of
    src_ip|dst_ip|src_port|dst_port|protocol|timestamp|bytes_sent|
    packet_count|previous_hash with the numbers in base 10; the check
    passes (and leaves the state alone) exactly when that string equals
    the stored hash; payload, blob id, blob timestamp, deviation score,
    anomaly flag and the stored hash itself do not enter it. *)
Theorem blob_hash_is_sha256_of_canonical_input (blob : NetFlowBlob) :
  computedHash blob
  = fmtSbx (SHA256.Sum256 (bytes_of_string
      (String.concat "|"
         [ SrcIP (Record_ blob); DstIP (Record_ blob);
           fmtInteger (SrcPort (Record_ blob));
           fmtInteger (DstPort (Record_ blob));
           Protocol (Record_ blob);
           fmtInteger (Timestamp (Record_ blob));
           fmtInteger (BytesSent (Record_ blob));
           fmtInteger (PacketCount (Record_ blob));
           PreviousHash blob ])))
  /\ String.length (computedHash blob) = 64%nat
  /\ all_chars is_lower_hex (computedHash blob) = true
  /\ (forall i st,
        checkBlobHash i blob st = (st, Done tt)
        <-> sha256_hex (canonicalInput blob) = Hash blob)
  /\ (forall id ts payload hash score anomaly,
        computedHash
          {| BlobID := id; BlobTimestamp := ts;
             Record_ :=
               {| Timestamp := Timestamp (Record_ blob);
                  SrcIP := SrcIP (Record_ blob); DstIP := DstIP (Record_ blob);
                  SrcPort := SrcPort (Record_ blob);
                  DstPort := DstPort (Record_ blob);
                  Protocol := Protocol (Record_ blob);
                  BytesSent := BytesSent (Record_ blob);
                  PacketCount := PacketCount (Record_ blob);
                  Payload := payload |};
             PreviousHash := PreviousHash blob; Hash := hash;
             DeviationScore := score; IsAnomaly := anomaly |}
        = computedHash blob).
Proof.
  split; [apply computedHash_sha256_hex|].
  split; [apply computedHash_length|].
  split; [rewrite computedHash_sha256_hex; apply sha256_hex_lower|].
  split.
  - intros i st. rewrite <- computedHash_sha256_hex. split.
    + intros Hrun. destruct (decide (computedHash blob = Hash blob)); [done|].
      pose proof (checkBlobHash_counters i blob st) as [Hc _].
      rewrite Hrun in Hc. unfold mismatchb in Hc.
      rewrite bool_decide_eq_true_2 in Hc by done. simpl in Hc. lia.
    + intros Heq. rewrite checkBlobHash_eq. unfold mismatchb.
      by rewrite bool_decide_eq_false_2 by (by intros ?).
  - intros. by rewrite !computedHash_sha256_hex.
Qed.

(** C3 (the code departs from the claim).  The claim: for every blob at
    position [i > 0] the linkage check compares the stored previous_hash
    with the stored hash of the blob at position [i-1] and counts a break
    when they differ; the blob at position 0 is never compared.  The
    breaks of a sequence are those positions, position 0 is none of them
    and the check does nothing there, and a run that does not panic has
    counted exactly the breaks of its export, shows the first three and
    ends Tampered when there is one; the comparison is with the stored
    hash (the forged chain, whose stored hashes are not the recomputed
    ones, has no break).  But the report of a hash mismatch slices the
    stored hash to 32 bytes (line 166): when the first of two blobs has a
    wrong stored hash of three bytes, the run panics in the first
    iteration, and the previous_hash of the second blob, which is not the
    stored hash of the first, is never compared and no break is
    counted. *)
Theorem linkage_counts_breaks_unless_report_panics :
  (forall blobs i,
     i ∈ breakPositions blobs <->
     (0 < i)%nat
     /\ exists prev blob,
          blobs !! (i - 1)%nat = Some prev /\ blobs !! i = Some blob
          /\ PreviousHash blob <> Hash prev)
  /\ (forall blobs, 0%nat ∉ breakPositions blobs)
  /\ (forall export blob st, checkLinkage export 0 blob st = (st, Done tt))
  /\ (forall export,
        (forall err, (run export).2 <> Panic err) ->
        chainErrors (run export).1 = length (breakPositions (Blobs export))
        /\ breakReports (stdout (run export).1)
           = map S (take 3 (breakPositions (Blobs export)))
        /\ (breakPositions (Blobs export) <> [] -> verdict export = Tampered))
  /\ breakPositions (Blobs brokenLinkExport) = [1%nat]
  /\ mismatchPositions (Blobs brokenLinkExport) = []
  /\ run brokenLinkExport =
     ({| blobHashErrors := 0; chainErrors := 1;
         stdout :=
           [ ParsedOK "1.0" "2026-02-03T00:00:00Z" "auditor" 2;
             ChainBreakAt 2;
             ExpectedPrev "1b26166f939feaca8ce807232ab80c0f...";
             ActualPrev "00000000000000000000000000000000...";
             AllHashesVerified 2; ChainBreaksSummary 1;
             StoredChainHash "e03f0ead24db31652d92028cd4ecabd7...";
             ComputedChainHash "c3325f43b940ca2d756a02dbe43d3af8...";
             ChainHashMismatch;
             ResultFailed chainHashAB 2 0 1 false ] |}, Exit 1)
  /\ mismatchPositions (Blobs forgedExport) = [0%nat; 1%nat]
  /\ breakPositions (Blobs forgedExport) = []
  /\ chainErrors (run forgedExport).1 = 0%nat
  /\ valid_export unreachedExport
  /\ breakPositions (Blobs unreachedExport) = [1%nat]
  /\ run unreachedExport
     = ({| blobHashErrors := 1; chainErrors := 0;
           stdout := [ ParsedOK "1.0" "2026-02-03T00:00:00Z" "auditor" 2;
                       HashMismatchAt 1 ] |},
        Panic (SliceBoundsOutOfRange 32 3)).
Proof.
  split; [intros blobs i; apply elem_of_breakPositions|].
  split; [intros blobs [Hpos _]%elem_of_breakPositions; lia|].
  split; [reflexivity|]. split.
  { intros export Hnp. destruct (run_counts export Hnp) as [_ Hc].
    destruct (run_reports export Hnp) as [_ Hr].
    split; [exact Hc|]. split; [exact Hr|].
    intros Hb. apply failed_check_Tampered; [exact Hnp|by right]. }
  split; [vm_compute; reflexivity|]. split; [vm_compute; reflexivity|].
  split; [exact brokenLinkExport_run|].
  split; [vm_compute; reflexivity|]. split; [vm_compute; reflexivity|].
  split; [rewrite forgedExport_run; reflexivity|].
  split; [closed_valid_export|]. split; [vm_compute; reflexivity|].
  exact unreachedExport_run.
Qed.

(** C4.  The chain hash that is compared is the SHA-256 checksum, in
    lowercase hexadecimal, of the stored hashes of all blobs concatenated
    in order without separator, and the check reports a match exactly
    when that string equals the stored chain_hash. *)
Theorem chain_hash_is_sha256_of_stored_hashes
    (export : EvidenceExport) (st : St) :
  computedChainHash export
  = fmtSbx (SHA256.Sum256 (bytes_of_string
      (String.concat "" (map Hash (Blobs export)))))
  /\ ((exists st', verifyChainHash export st = (st', Done true))
      <-> computedChainHash export = ChainHash export)
  /\ (forall st' chainHashMatch,
        verifyChainHash export st = (st', Done chainHashMatch) ->
        (chainHashMatch = true <-> computedChainHash export = ChainHash export)
        /\ (ChainHashVerified ∈ stdout st' <->
            ChainHashVerified ∈ stdout st \/ chainHashMatch = true)).
Proof.
  split; [apply computedChainHash_chainHashOf|].
  rewrite verifyChainHash_eq. split.
  - split.
    + intros [st' Hrun].
      destruct (32 <=? String.length (ChainHash export))%nat; [|done].
      injection Hrun as _ Hm. by apply bool_decide_eq_true in Hm.
    + intros Heq.
      assert (String.length (ChainHash export) = 64%nat) as ->
        by (rewrite <- Heq; apply computedChainHash_length).
      change (32 <=? 64)%nat with true.
      rewrite bool_decide_eq_true_2 by done. by eexists.
  - intros st' m Hrun.
    destruct (32 <=? String.length (ChainHash export))%nat; [|done].
    injection Hrun as <- <-. split; [apply bool_decide_eq_true|].
    unfold setCounters, chainHashLines. simpl.
    rewrite elem_of_app, !elem_of_cons, elem_of_nil.
    destruct (bool_decide _).
    + split; [intros _; by right|].
      intros [?|_]; [by left | right; right; right; by left].
    + split; [|intros [?|?]; [by left | done]].
      intros [?|[?|[?|[?|[]]]]]; [by left | done..].
Qed.

(** C5 (the code departs from the claim).  The claim: for every export
    every blob is evaluated whatever failed before it, and the reported
    mismatch and break counts are those of the whole sequence, with at
    most three of each shown in detail.  That is what a loop that runs to
    its end does.  But printing a detail slices the stored hash to 32
    bytes: with two blobs whose stored hashes are both wrong and the
    first only three bytes long, the run panics while reporting the
    first mismatch (line 166); the second blob is never evaluated and no
    count is reported. *)
Theorem loop_counts_all_unless_report_panics :
  (forall export st st',
     verifyBlobs export st = (st', Done tt) ->
     blobHashErrors st'
     = (blobHashErrors st + length (mismatchPositions (Blobs export)))%nat
     /\ chainErrors st'
     = (chainErrors st + length (breakPositions (Blobs export)))%nat)
  /\ (forall export,
       (forall err, (run export).2 <> Panic err) ->
       blobHashErrors (run export).1 = length (mismatchPositions (Blobs export))
       /\ chainErrors (run export).1 = length (breakPositions (Blobs export))
       /\ hashReports (stdout (run export).1)
          = map S (take 3 (mismatchPositions (Blobs export)))
       /\ breakReports (stdout (run export).1)
          = map S (take 3 (breakPositions (Blobs export))))
  /\ valid_export shortHashExport
  /\ mismatchPositions (Blobs shortHashExport) = [0%nat; 1%nat]
  /\ breakPositions (Blobs shortHashExport) = []
  /\ run shortHashExport
     = ({| blobHashErrors := 1; chainErrors := 0;
           stdout := [ ParsedOK "1.0" "2026-02-03T00:00:00Z" "auditor" 2;
                       HashMismatchAt 1 ] |},
        Panic (SliceBoundsOutOfRange 32 3)).
Proof.
  split; [apply verifyBlobs_counts|]. split.
  { intros export Hnp. destruct (run_counts export Hnp) as [? ?].
    destruct (run_reports export Hnp) as [? ?]. done. }
  split; [closed_valid_export|].
  repeat split; by vm_compute.
Qed.

(** C6 (the code departs from the claim).  The claim: no stored hash,
    previous_hash or chain_hash value makes the reporting of a mismatch,
    of a break or of the chain hash abort the run.  Each of the three
    reports slices a stored string to 32 bytes without looking at its
    length, and each panics on a shorter one: a mismatching stored hash
    of 8 bytes (line 166), a breaking previous_hash of 5 bytes (line
    179), a stored chain_hash of 16 bytes (line 208).  These slices are
    the only way a run can abort. *)
Theorem short_stored_strings_abort_the_run :
  (forall export err,
     (run export).2 = Panic err ->
     exists n, err = SliceBoundsOutOfRange 32 n /\ (n < 32)%nat)
  /\ run truncatedHashExport
     = ({| blobHashErrors := 1; chainErrors := 0;
           stdout := [ ParsedOK "1.0" "2026-02-03T00:00:00Z" "auditor" 1;
                       HashMismatchAt 1 ] |},
        Panic (SliceBoundsOutOfRange 32 8))
  /\ run shortLinkExport
     = ({| blobHashErrors := 0; chainErrors := 1;
           stdout := [ ParsedOK "1.0" "2026-02-03T00:00:00Z" "auditor" 2;
                       ChainBreakAt 2;
                       ExpectedPrev "1b26166f939feaca8ce807232ab80c0f..." ] |},
        Panic (SliceBoundsOutOfRange 32 5))
  /\ run shortChainHashExport
     = ({| blobHashErrors := 0; chainErrors := 0;
           stdout := [ ParsedOK "1.0" "2026-02-03T00:00:00Z" "auditor" 2;
                       AllHashesVerified 2; LinkageIntact ] |},
        Panic (SliceBoundsOutOfRange 32 16))
  /\ valid_export truncatedHashExport /\ valid_export shortLinkExport
  /\ valid_export shortChainHashExport.
Proof.
  split; [apply run_panic|].
  split; [by vm_compute|]. split; [by vm_compute|]. split; [by vm_compute|].
  split; [|split]; closed_valid_export.
Qed.

(** C7 (as the claim states it, it fails).  The claim: in a Verified
    export, changing one hash-input field of the record of the blob at
    position [i] and nothing else always makes the hash check report
    exactly the mismatch at [i].  SHA-256 maps strings of every length
    to 32 bytes, so two source addresses exist whose sealed blobs have
    the same hash; putting one in place of the other in a Verified
    export of that one blob leaves the hash check without any
    mismatch. *)
Lemma single_field_mutation_can_go_unnoticed :
  ~ (forall (e : EvidenceExport) (i : nat) (b : NetFlowBlob) (m : Mutation),
       verdict e = Verified ->
       Blobs e !! i = Some b ->
       applyMutation m (Record_ b) <> Record_ b ->
       mismatchPositions (<[i:=mutateBlob m b]> (Blobs e)) = [i]).
Proof.
  intros Hclaim.
  destruct probe_collision as (src1 & src2 & Hne & Heq).
  specialize (Hclaim (probeExport src1) 0%nat (probe src1) (SetSrcIP src2)
                (probeExport_verified src1) eq_refl).
  assert (mismatchb (mutateBlob (SetSrcIP src2) (probe src1)) = false) as Hm.
  { apply bool_decide_eq_false. intros Hmis. apply Hmis.
    change (Hash (mutateBlob (SetSrcIP src2) (probe src1)))
      with (Hash (probe src1)).
    rewrite Heq, <- computedHash_probe. by apply computedHash_ext. }
  unfold mismatchPositions, positions in Hclaim.
  cbn [probeExport Blobs insert list_insert positionsFrom] in Hclaim.
  rewrite Hm in Hclaim.
  assert (@nil nat = [0%nat]) as Habsurd; [|discriminate Habsurd].
  apply Hclaim. cbn [probe seal Record_ applyMutation].
  intros E. apply Hne. by injection E.
Qed.

(** C7, amended.  In a Verified export, changing one hash-input field of
    the record of the blob at position [i], with every stored hash and
    previous_hash left as it was, makes the hash check report exactly one
    mismatch, at position [i] (blob number [i + 1]), and no break,
    provided the changed hash input is not a SHA-256 collision with the
    original one; the run ends as Tampered. *)
Theorem single_field_mutation_detected
    (e : EvidenceExport) (i : nat) (b : NetFlowBlob) (m : Mutation) :
  verdict e = Verified ->
  Blobs e !! i = Some b ->
  applyMutation m (Record_ b) <> Record_ b ->
  ~ sha256_collision (canonicalInput b) (canonicalInput (mutateBlob m b)) ->
  let e' := withBlobs e (<[i:=mutateBlob m b]> (Blobs e)) in
  mismatchPositions (Blobs e') = [i]
  /\ breakPositions (Blobs e') = []
  /\ verdict e' = Tampered
  /\ blobHashErrors (run e').1 = 1%nat
  /\ chainErrors (run e').1 = 0%nat
  /\ hashReports (stdout (run e').1) = [S i]
  /\ breakReports (stdout (run e').1) = [].
Proof.
  intros Hv Hi Hchg Hnc e'.
  apply verdict_Verified_iff in Hv as (Hm & Hb & Hch).
  assert (computedHash b = Hash b) as Hgood.
  { pose proof (positions_nil_test _ _ _ _ Hm Hi) as Hbm.
    apply bool_decide_eq_false in Hbm.
    by destruct (decide (computedHash b = Hash b)). }
  assert (mismatchb (mutateBlob m b) = true) as Hbad.
  { apply bool_decide_eq_true. cbn [mutateBlob Hash]. rewrite <- Hgood.
    by apply computedHash_mutate_ne. }
  assert (mismatchPositions (Blobs e') = [i]) as Hm'.
  { cbn [e' withBlobs Blobs].
    by rewrite (mismatchPositions_insert_mutate _ _ _ m Hm Hi), Hbad. }
  assert (breakPositions (Blobs e') = []) as Hb'.
  { cbn [e' withBlobs Blobs].
    by rewrite (breakPositions_insert_mutate _ _ _ m Hi). }
  assert (forall err, (run e').2 <> Panic err) as Hnp.
  { apply run_no_panic.
    - intros j blob Hj Hmis.
      assert (j ∈ mismatchPositions (Blobs e')) as Hin.
      { apply elem_of_positionsFrom. split; [lia|]. exists blob.
        by rewrite Nat.sub_0_r. }
      rewrite Hm' in Hin. apply list_elem_of_singleton in Hin as ->.
      cbn [e' withBlobs Blobs] in Hj.
      rewrite list_lookup_insert_eq in Hj by (by eapply lookup_lt_Some).
      injection Hj as <-. cbn [mutateBlob Hash].
      rewrite <- Hgood, computedHash_length. lia.
    - by apply no_break_reportable.
    - cbn [e' withBlobs ChainHash]. rewrite <- Hch, computedChainHash_length. lia. }
  destruct (run_counts e' Hnp) as [Hc1 Hc2].
  destruct (run_reports e' Hnp) as [Hr1 Hr2].
  rewrite Hm' in Hc1, Hr1. rewrite Hb' in Hc2, Hr2.
  repeat split; try done.
  apply verdict_not_crashed; [done|].
  intros Hv'. apply verdict_Verified_iff in Hv' as (Hm'' & _).
  by rewrite Hm' in Hm''.
Qed.

(** The good chain with bytes_sent of its second blob changed from 900
    to 901. *)
Lemma single_field_mutation_detected_witness :
  verdict goodExport = Verified
  /\ mismatchPositions
       (<[1%nat:=mutateBlob (SetBytesSent 901) blobB]> (Blobs goodExport))
     = [1%nat]
  /\ verdict (withBlobs goodExport
                (<[1%nat:=mutateBlob (SetBytesSent 901) blobB]> (Blobs goodExport)))
     = Tampered.
Proof.
  assert (verdict goodExport = Verified) as Hv by (vm_compute; reflexivity).
  assert (applyMutation (SetBytesSent 901) (Record_ blobB) <> Record_ blobB)
    as Hchg by (vm_compute; intros H; discriminate H).
  assert (~ sha256_collision (canonicalInput blobB)
            (canonicalInput (mutateBlob (SetBytesSent 901) blobB))) as Hnc.
  { intros [_ H]. vm_compute in H. discriminate H. }
  pose proof (single_field_mutation_detected goodExport 1 blobB
                (SetBytesSent 901) Hv eq_refl Hchg Hnc) as (Hm & _ & Ht & _).
  split; [exact Hv|]. split; [exact Hm | exact Ht].
Defined.

(** C8.  With no blobs the computed chain hash is the SHA-256 checksum of
    the empty input, e3b0c442...b855, and an export with no blobs whose
    stored chain_hash is that string is Verified, with exit status 0 and
    both counters at zero. *)
Theorem empty_chain_verifies (export : EvidenceExport) :
  Blobs export = [] ->
  computedChainHash export = sha256_hex ""
  /\ sha256_hex ""
     = "e3b0c44298fc1c149afbf4c8996fb92427ae41e4649b934ca495991b7852b855"
  /\ (ChainHash export = sha256_hex "" ->
      verdict export = Verified
      /\ exitStatus (run export).2 = 0
      /\ blobHashErrors (run export).1 = 0%nat
      /\ chainErrors (run export).1 = 0%nat
      /\ ResultVerified (ChainHash export) 0 ∈ stdout (run export).1).
Proof.
  intros Hnil.
  assert (computedChainHash export = sha256_hex "") as Hc.
  { rewrite computedChainHash_chainHashOf, Hnil. reflexivity. }
  split; [exact Hc|]. split; [vm_compute; reflexivity|]. intros Hstored.
  assert (verdict export = Verified) as Hv.
  { apply verdict_Verified_iff. rewrite Hnil, Hc, Hstored.
    repeat split; reflexivity. }
  clear Hc Hstored.
  split; [done|]. unfold verdict in Hv.
  destruct (run_counts export) as [Hh Hb].
  { intros err Herr. by rewrite Herr in Hv. }
  rewrite Hnil in Hh, Hb.
  split; [by destruct (run export).2|]. split; [done|]. split; [done|].
  clear Hh Hb. revert Hv. unfold run. rewrite verifyEvidence_unfold.
  rewrite verifyChain_unfold. cbv zeta.
  destruct (verifyBlobs export _) as [st1 [[]|c|err]]; [|done..].
  destruct (32 <=? String.length (ChainHash export))%nat; [|done].
  destruct (_ && _); [|done]. intros _. unfold setCounters. simpl.
  rewrite Hnil. simpl. apply elem_of_app. right. by apply list_elem_of_singleton.
Qed.

(** The empty chain with the stored chain hash e3b0c442...b855. *)
Lemma empty_chain_verifies_witness :
  Blobs emptyExport = []
  /\ ChainHash emptyExport = sha256_hex ""
  /\ verdict emptyExport = Verified
  /\ exitStatus (run emptyExport).2 = 0.
Proof.
  pose proof (empty_chain_verifies emptyExport eq_refl) as (_ & _ & Hrun).
  assert (ChainHash emptyExport = sha256_hex "") as Hstored
    by (vm_compute; reflexivity).
  destruct (Hrun Hstored) as (Hv & Hexit & _).
  split; [reflexivity|]. split; [exact Hstored|]. split; assumption.
Defined.

(** C9.  Two exports with the same blobs and the same chain_hash get the
    same checks, whatever their blob_count, first and last blob hash,
    version, export date, exporter and time range: the three checks and
    the verdict behave the same from every state, and the runs end the
    same way with the same counters, chain hash comparison and detail
    lines. *)
Theorem verdict_ignores_metadata (e1 e2 : EvidenceExport) :
  Blobs e1 = Blobs e2 -> ChainHash e1 = ChainHash e2 ->
  (forall st, verifyChain e1 st = verifyChain e2 st)
  /\ (run e1).2 = (run e2).2
  /\ verdict e1 = verdict e2
  /\ exitStatus (run e1).2 = exitStatus (run e2).2
  /\ blobHashErrors (run e1).1 = blobHashErrors (run e2).1
  /\ chainErrors (run e1).1 = chainErrors (run e2).1
  /\ bool_decide (computedChainHash e1 = ChainHash e1)
     = bool_decide (computedChainHash e2 = ChainHash e2)
  /\ hashReports (stdout (run e1).1) = hashReports (stdout (run e2).1)
  /\ breakReports (stdout (run e1).1) = breakReports (stdout (run e2).1).
Proof.
  intros Hb Hc. pose proof (verifyChain_ext e1 e2 Hb Hc) as Hext.
  split; [by rewrite Hext|].
  assert ((run e1).2 = (run e2).2) as Hres.
  { rewrite !run_verifyChain. simpl. by rewrite Hext. }
  split; [done|]. split; [unfold verdict; by rewrite Hres|].
  split; [by rewrite Hres|].
  rewrite !run_verifyChain. cbn [fst snd]. rewrite Hext. unfold prepend.
  cbn [blobHashErrors chainErrors stdout].
  split; [done|]. split; [done|]. split.
  { rewrite !computedChainHash_chainHashOf. by rewrite Hb, Hc. }
  rewrite !hashReports_app, !breakReports_app.
  destruct (reports_metadataLines e1) as [-> ->].
  by destruct (reports_metadataLines e2) as [-> ->].
Qed.

(** The good chain and the same chain under other metadata. *)
Lemma verdict_ignores_metadata_witness :
  BlobCount goodExport <> BlobCount relabelledExport
  /\ FirstBlobHash goodExport <> FirstBlobHash relabelledExport
  /\ LastBlobHash goodExport <> LastBlobHash relabelledExport
  /\ verdict goodExport = verdict relabelledExport
  /\ verdict relabelledExport = Verified.
Proof.
  pose proof (verdict_ignores_metadata goodExport relabelledExport
                eq_refl eq_refl) as (_ & _ & Hv & _).
  split; [by vm_compute|]. split; [by vm_compute|]. split; [by vm_compute|].
  split; [exact Hv|]. rewrite <- Hv. vm_compute. reflexivity.
Defined.

(** C10 (the code departs from the claim).  The claim: for every export
    a blob whose stored hash is not exactly 64 characters long is always
    counted as a hash mismatch.  The recomputed hash is always 64
    lowercase hexadecimal digits, so such a blob, whether its stored hash
    is measured in bytes or in characters, fails the comparison and
    stands at a mismatch position of every export that holds it; a run
    that does not panic has counted every mismatch position, that one
    included, and ends Tampered.  But the report of a mismatch slices the
    stored hash to 32 bytes (line 166), and a stored hash of the wrong
    length may be shorter than that: with a first blob whose stored hash
    has three bytes and a second whose stored hash has eight, the run
    panics in the first iteration; the second blob is never evaluated,
    and no count is reported. *)
Theorem wrong_length_hash_counted_unless_report_panics :
  (forall blob,
     String.length (computedHash blob) = 64%nat
     /\ utf8_length (computedHash blob) = 64%nat
     /\ all_chars is_lower_hex (computedHash blob) = true)
  /\ (forall export i blob,
        Blobs export !! i = Some blob ->
        String.length (Hash blob) <> 64%nat
        \/ utf8_length (Hash blob) <> 64%nat ->
        computedHash blob <> Hash blob
        /\ mismatchAt (Blobs export) i
        /\ i ∈ mismatchPositions (Blobs export)
        /\ ((forall err, (run export).2 <> Panic err) ->
            blobHashErrors (run export).1
            = length (mismatchPositions (Blobs export))
            /\ (0 < blobHashErrors (run export).1)%nat
            /\ verdict export = Tampered))
  /\ String.length (Hash (mkBlob "blob-a" recordA genesisHash
                            "1b26166f939feaca8ce807232ab80c0f5740eb91"))
     = 40%nat
  /\ run oddLengthHashExport =
     ({| blobHashErrors := 1; chainErrors := 0;
         stdout :=
           [ ParsedOK "1.0" "2026-02-03T00:00:00Z" "auditor" 1;
             HashMismatchAt 1;
             ExpectedHash "1b26166f939feaca8ce807232ab80c0f...";
             ComputedHash "1b26166f939feaca8ce807232ab80c0f...";
             HashErrorsSummary 1 1; LinkageIntact;
             StoredChainHash "e03f0ead24db31652d92028cd4ecabd7...";
             ComputedChainHash "10cc386ad34b6f757b1ea15f6ac84106...";
             ChainHashMismatch;
             ResultFailed chainHashAB 1 1 0 false ] |}, Exit 1)
  /\ valid_export unreachedExport
  /\ Blobs unreachedExport !! 1%nat
     = Some (mkBlob "blob-b" recordB hashA "deadbeef")
  /\ String.length (Hash (mkBlob "blob-b" recordB hashA "deadbeef")) = 8%nat
  /\ mismatchPositions (Blobs unreachedExport) = [0%nat; 1%nat]
  /\ run unreachedExport
     = ({| blobHashErrors := 1; chainErrors := 0;
           stdout := [ ParsedOK "1.0" "2026-02-03T00:00:00Z" "auditor" 2;
                       HashMismatchAt 1 ] |},
        Panic (SliceBoundsOutOfRange 32 3)).
Proof.
  assert (forall blob, all_chars is_lower_hex (computedHash blob) = true)
    as Hhex by (intros blob; rewrite computedHash_sha256_hex;
                apply sha256_hex_lower).
  assert (forall blob, utf8_length (computedHash blob) = 64%nat) as Hchars
    by (intros blob; rewrite (utf8_length_lower_hex _ (Hhex blob));
        apply computedHash_length).
  split; [intros blob; split; [apply computedHash_length|]; by split|].
  split.
  { intros export i blob Hi Hlen.
    assert (computedHash blob <> Hash blob) as Hne.
    { intros Heq. rewrite <- Heq in Hlen.
      destruct Hlen as [Hlen|Hlen]; apply Hlen;
        [apply computedHash_length | apply Hchars]. }
    assert (i ∈ mismatchPositions (Blobs export)) as Hin.
    { apply elem_of_positionsFrom. split; [lia|]. exists blob.
      rewrite Nat.sub_0_r. split; [exact Hi|].
      by apply bool_decide_eq_true. }
    split; [exact Hne|]. split; [by apply elem_of_mismatchPositions|].
    split; [exact Hin|]. intros Hnp.
    destruct (run_counts export Hnp) as [Hc _].
    assert (mismatchPositions (Blobs export) <> []) as Hnil.
    { intros E. rewrite E in Hin. by apply elem_of_nil in Hin. }
    split; [exact Hc|]. split.
    - rewrite Hc. destruct (mismatchPositions (Blobs export)); [done|].
      cbn [length]. lia.
    - apply failed_check_Tampered; [exact Hnp|by left]. }
  split; [reflexivity|]. split; [exact oddLengthHashExport_run|].
  split; [closed_valid_export|]. split; [reflexivity|].
  split; [reflexivity|]. split; [vm_compute; reflexivity|].
  exact unreachedExport_run.
Qed.

(** * Further properties *)

(** X1.  The exit status of the program is 0, 1 or 2.  It is 0 exactly
    when the command is one of version, --version, -v, help, --help, -h,
    or when it is verify or import with a file path whose file can be
    read, decodes to an export, and that export passes the three checks.
    It is 2 only when the file was read and decoded and the run then
    panicked on a [:32] slice of a stored string shorter than 32 bytes. *)
Theorem main_exit_status (env : Env) (Args : list string) :
  let status := exitStatus (main env Args).2 in
  (status = 0 <->
     exists prog command rest,
       Args = prog :: command :: rest
       /\ (command ∈ ["version"; "--version"; "-v"; "help"; "--help"; "-h"]
           \/ command ∈ ["verify"; "import"]
              /\ exists filePath rest' data export,
                   rest = filePath :: rest'
                   /\ ReadFile env filePath = inr data
                   /\ Unmarshal env data = inr export
                   /\ verdict export = Verified))
  /\ (status = 0 \/ status = 1 \/ status = 2)
  /\ (status = 2 ->
      exists prog command filePath rest data export n,
        Args = prog :: command :: filePath :: rest
        /\ command ∈ ["verify"; "import"]
        /\ ReadFile env filePath = inr data
        /\ Unmarshal env data = inr export
        /\ (run export).2 = Panic (SliceBoundsOutOfRange 32 n)
        /\ (n < 32)%nat).
Proof.
  intros status. unfold status. clear status.
  destruct Args as [|prog [|command rest]].
  { cbn. split; [|split; [by right; left|done]].
    split; [done|]. by intros (? & ? & ? & ? & _). }
  { cbn. split; [|split; [by right; left|done]].
    split; [done|]. by intros (? & ? & ? & ? & _). }
  cbn [main]. case_bool_decide as Hverify.
  - assert (command ∉ ["version"; "--version"; "-v"; "help"; "--help"; "-h"])
      as Hnot.
    { apply elem_of_verify in Hverify as [-> | ->];
        rewrite !not_elem_of_cons; repeat split; try done; apply not_elem_of_nil. }
    destruct rest as [|filePath rest'].
    { cbn. split; [|split; [by right; left|done]].
      split; [done|].
      intros (? & ? & ? & [= <- <- <-] & [H|(_ & ? & ? & ? & ? & ? & _)]); done. }
    unfold verifyEvidencePath.
    destruct (ReadFile env filePath) as [err|data] eqn:Hread.
    { cbn. split; [|split; [by right; left|done]].
      split; [done|].
      intros (? & ? & ? & [= <- <- <-]
              & [H|(_ & ? & ? & ? & ? & [= <- <-] & Hr & _)]); [done|].
      rewrite Hread in Hr. discriminate Hr. }
    destruct (Unmarshal env data) as [err|export] eqn:Hparse.
    { cbn. split; [|split; [by right; left|done]].
      split; [done|].
      intros (? & ? & ? & [= <- <- <-]
              & [H|(_ & ? & ? & ? & ? & [= <- <-] & Hr & Hu & _)]); [done|].
      rewrite Hread in Hr. injection Hr as <-.
      rewrite Hparse in Hu. discriminate Hu. }
    cbn [snd].
    destruct (run_exit_status export) as [[-> Hv]|[[-> Hv]|(-> & n & Hp & Hn)]].
    + split; [|split; [by left|done]]. split; [|done]. intros _.
      exists prog, command, (filePath :: rest'). split; [done|]. right.
      split; [done|]. by exists filePath, rest', data, export.
    + split; [|split; [by right; left|done]]. split; [done|].
      intros (? & ? & ? & [= <- <- <-]
              & [H|(_ & ? & ? & ? & ? & [= <- <-] & Hr & Hu & Hv')]); [done|].
      rewrite Hread in Hr. injection Hr as <-.
      rewrite Hparse in Hu. injection Hu as <-.
      rewrite Hv in Hv'. discriminate Hv'.
    + split; [|split; [by right; right|]].
      * split; [done|].
        intros (? & ? & ? & [= <- <- <-]
                & [H|(_ & ? & ? & ? & ? & [= <- <-] & Hr & Hu & Hv')]); [done|].
        rewrite Hread in Hr. injection Hr as <-.
        rewrite Hparse in Hu. injection Hu as <-.
        unfold verdict in Hv'. rewrite Hp in Hv'. discriminate Hv'.
      * intros _. by exists prog, command, filePath, rest', data, export, n.
  - case_bool_decide as Hversion.
    { cbn. split; [|split; [by left|done]]. split; [|done]. intros _.
      exists prog, command, rest. split; [done|]. left.
      rewrite !elem_of_cons in Hversion. rewrite !elem_of_cons. tauto. }
    case_bool_decide as Hhelp.
    { cbn. split; [|split; [by left|done]]. split; [|done]. intros _.
      exists prog, command, rest. split; [done|]. left.
      rewrite !elem_of_cons in Hhelp. rewrite !elem_of_cons. tauto. }
    cbn. split; [|split; [by right; left|done]]. split; [done|].
    intros (? & ? & ? & [= <- <- <-] & [H|[H _]]); [|done].
    rewrite !elem_of_cons in H. rewrite !elem_of_cons in Hversion.
    rewrite !elem_of_cons in Hhelp. tauto.
Qed.

(** X2.  What an invocation prints.  Something is always printed.  For
    verify or import without a file path it is the missing-path error
    followed by the one-line hint "Usage: zantoras-replay verify
    <evidence-export.json>" (lines 81-82), with exit status 1, and that
    is the only case in which the hint appears.  The help text of
    printUsage is printed exactly when no command is given or the command
    is none of verify, import, version, --version, -v (so also for an
    unknown command, but not for verify without a file path, which gets
    the hint only).  The "unable to process" banner is printed exactly
    when verify or import was given a path whose file cannot be read or
    cannot be decoded; the exit status is then 1 and no line of a
    verification report is printed.  A verification report is printed
    exactly when the file was read and decoded. *)
Theorem main_output (env : Env) (Args : list string) :
  let out := (main env Args).1 in
  (UsageHint ∈ out <->
   exists prog command,
     Args = [prog; command] /\ command ∈ ["verify"; "import"])
  /\ (UsageHint ∈ out ->
      main env Args = ([MissingFilePath; UsageHint], Exit 1))
  /\ out <> []
  /\ (Usage ∈ out <->
      (length Args < 2)%nat
      \/ exists prog command rest,
           Args = prog :: command :: rest
           /\ command ∉ ["verify"; "import"; "version"; "--version"; "-v"])
  /\ (VerificationFailed ∈ out <->
      exists prog command filePath rest,
        Args = prog :: command :: filePath :: rest
        /\ command ∈ ["verify"; "import"]
        /\ ((exists err, ReadFile env filePath = inl err)
            \/ exists data err,
                 ReadFile env filePath = inr data
                 /\ Unmarshal env data = inl err))
  /\ ((exists l, Report l ∈ out) <->
      exists prog command filePath rest data export,
        Args = prog :: command :: filePath :: rest
        /\ command ∈ ["verify"; "import"]
        /\ ReadFile env filePath = inr data
        /\ Unmarshal env data = inr export)
  /\ (VerificationFailed ∈ out ->
      (main env Args).2 = Exit 1 /\ forall l, Report l ∉ out).
Proof.
  intros out. unfold out. clear out.
  assert (UsageHint ∈ (main env Args).1 ->
          (exists prog command,
             Args = [prog; command] /\ command ∈ ["verify"; "import"])
          /\ main env Args = ([MissingFilePath; UsageHint], Exit 1)) as Hhint.
  { destruct Args as [|prog [|command rest]];
      [cbn; intros H; no_such_output..|].
    cbn [main]. case_bool_decide as Hverify.
    - destruct rest as [|filePath rest'].
      + intros _. split; [by exists prog, command|reflexivity].
      + unfold verifyEvidencePath.
        destruct (ReadFile env filePath) as [err|data];
          [cbn; intros H; no_such_output|].
        destruct (Unmarshal env data) as [err|export];
          cbn; intros H; no_such_output.
    - repeat case_bool_decide; cbn; intros Hin; no_such_output. }
  split; [split; [intros [H _]%Hhint; exact H|]|].
  { intros (prog & command & -> & Hverify). cbn [main].
    rewrite bool_decide_eq_true_2 by done. cbn [fst].
    apply elem_of_cons. right. apply elem_of_cons. by left. }
  split; [intros [_ H]%Hhint; exact H|].
  destruct Args as [|prog [|command rest]].
  { cbn. split; [done|]. split; [split; [left; lia|intros _; left]|].
    split; [split; [intros H; no_such_output|by intros (? & ? & ? & ? & ? & _)]|].
    split; [split; [intros [l H]; no_such_output
                   |by intros (? & ? & ? & ? & ? & ? & ? & _)]|].
    intros H; no_such_output. }
  { cbn. split; [done|]. split; [split; [left; lia|intros _; left]|].
    split; [split; [intros H; no_such_output|by intros (? & ? & ? & ? & ? & _)]|].
    split; [split; [intros [l H]; no_such_output
                   |by intros (? & ? & ? & ? & ? & ? & ? & _)]|].
    intros H; no_such_output. }
  cbn [main]. case_bool_decide as Hverify.
  - assert (~ ((length (prog :: command :: rest) < 2)%nat
               \/ exists prog' command' rest',
                    prog :: command :: rest = prog' :: command' :: rest'
                    /\ command' ∉ ["verify"; "import"; "version"; "--version";
                                   "-v"])) as Hnousage.
    { intros [H|(? & ? & ? & [= <- <- <-] & H)]; [cbn in H; lia|].
      apply H. rewrite !elem_of_cons in Hverify. rewrite !elem_of_cons. tauto. }
    destruct rest as [|filePath rest'].
    { cbn. split; [done|]. split; [split; [intros H; no_such_output|done]|].
      split; [split; [intros H; no_such_output
                     |by intros (? & ? & ? & ? & ? & _)]|].
      split; [split; [intros [l H]; no_such_output
                     |by intros (? & ? & ? & ? & ? & ? & ? & _)]|].
      intros H; no_such_output. }
    unfold verifyEvidencePath.
    destruct (ReadFile env filePath) as [err|data] eqn:Hread.
    { cbn [fst snd]. split; [done|].
      split; [split; [intros H; no_such_output|done]|].
      split; [split; [intros _|intros _; right; left]|].
      { exists prog, command, filePath, rest'. split; [done|].
        split; [done|]. left. by exists err. }
      split; [split; [intros [l H]; no_such_output|]|].
      { intros (? & ? & ? & ? & ? & ? & [= <- <- <- <-] & _ & Hr & _).
        rewrite Hread in Hr. discriminate Hr. }
      intros _. split; [done|]. intros l H. no_such_output. }
    destruct (Unmarshal env data) as [err|export] eqn:Hparse.
    { cbn [fst snd]. split; [done|].
      split; [split; [intros H; no_such_output|done]|].
      split; [split; [intros _|intros _; right; right; left]|].
      { exists prog, command, filePath, rest'. split; [done|].
        split; [done|]. right. by exists data, err. }
      split; [split; [intros [l H]; no_such_output|]|].
      { intros (? & ? & ? & ? & ? & ? & [= <- <- <- <-] & _ & Hr & Hu).
        rewrite Hread in Hr. injection Hr as <-.
        rewrite Hparse in Hu. discriminate Hu. }
      intros _. split; [done|]. intros l H. no_such_output. }
    cbn [fst snd]. split; [done|].
    split; [split; [intros H; no_such_output|done]|].
    split; [split; [intros H; no_such_output|]|].
    { intros (? & ? & ? & ? & [= <- <- <- <-] & _
              & [[? Hr]|(? & ? & Hr & Hu)]).
      - rewrite Hread in Hr. discriminate Hr.
      - rewrite Hread in Hr. injection Hr as <-.
        rewrite Hparse in Hu. discriminate Hu. }
    split; [split; [intros _|intros _]|intros H; no_such_output].
    + by exists prog, command, filePath, rest', data, export.
    + destruct (run_prints_metadata export) as [more ->]. eexists.
      right. rewrite fmap_cons. left.
  - assert (~ exists prog' command' filePath rest',
                prog :: command :: rest = prog' :: command' :: filePath :: rest'
                /\ command' ∈ ["verify"; "import"]
                /\ ((exists err, ReadFile env filePath = inl err)
                    \/ exists data err,
                         ReadFile env filePath = inr data
                         /\ Unmarshal env data = inl err)) as Hnofail.
    { by intros (? & ? & ? & ? & [= <- <- ->] & ? & _). }
    assert (~ exists prog' command' filePath rest' data export,
                prog :: command :: rest = prog' :: command' :: filePath :: rest'
                /\ command' ∈ ["verify"; "import"]
                /\ ReadFile env filePath = inr data
                /\ Unmarshal env data = inr export) as Hnoreport.
    { by intros (? & ? & ? & ? & ? & ? & [= <- <- ->] & ? & _). }
    assert (command ∈ ["version"; "--version"; "-v"]
            \/ (exists prog' command' rest',
                  prog :: command :: rest = prog' :: command' :: rest'
                  /\ command' ∉ ["verify"; "import"; "version"; "--version";
                                 "-v"])) as [Hversion|Husage].
    { destruct (decide (command ∈ ["version"; "--version"; "-v"])) as [H|H];
        [by left|right].
      exists prog, command, rest. split; [done|].
      rewrite !elem_of_cons in Hverify. rewrite !elem_of_cons in H.
      rewrite !elem_of_cons. tauto. }
    + rewrite bool_decide_eq_true_2 by done. cbn [fst snd].
      split; [done|]. split; [split; [intros H; no_such_output|]|].
      { intros [H|(? & ? & ? & [= <- <- <-] & H)]; [cbn in H; lia|].
        destruct H. rewrite !elem_of_cons in Hversion. rewrite !elem_of_cons.
        tauto. }
      split; [split; [intros H; no_such_output|done]|].
      split; [split; [intros [l H]; no_such_output|done]|].
      intros H; no_such_output.
    + assert (command ∉ ["version"; "--version"; "-v"]) as Hversion.
      { destruct Husage as (? & ? & ? & [= <- <- <-] & H). intros H'.
        apply H. rewrite !elem_of_cons in H'. rewrite !elem_of_cons. tauto. }
      rewrite (bool_decide_eq_false_2 _ Hversion).
      case_bool_decide as Hhelp; cbn [fst snd].
      * split; [done|]. split; [split; [by right|intros _; left]|].
        split; [split; [intros H; no_such_output|done]|].
        split; [split; [intros [l H]; no_such_output|done]|].
        intros H; no_such_output.
      * split; [done|]. split; [split; [by right|intros _; right; left]|].
        split; [split; [intros H; no_such_output|done]|].
        split; [split; [intros [l H]; no_such_output|done]|].
        intros H; no_such_output.
Qed.

(** X3.  The report agrees with the result of the run.  A run that
    returns normally has printed exactly the metadata, "all hashes
    verified", "linkage intact", the two chain hash lines (both show the
    stored chain hash), "chain hash verified" and the Verified verdict,
    with no detail line.  A run that exits does so with status 1, and its
    last line is the Failed verdict carrying the true numbers of
    mismatches and breaks and the outcome of the chain hash comparison; no
    verdict line comes before it.  A run that panics has printed no
    verdict line at all.  Hence a Verified verdict line is printed only
    for an export that passes the three checks. *)
Theorem report_matches_result (export : EvidenceExport) :
  let out := stdout (run export).1 in
  let n := length (Blobs export) in
  ((run export).2 = Done tt ->
     out = metadataLines export
           ++ [ AllHashesVerified n; LinkageIntact;
                StoredChainHash (substring 0 32 (ChainHash export) +:+ "...");
                ComputedChainHash (substring 0 32 (ChainHash export) +:+ "...");
                ChainHashVerified;
                ResultVerified (ChainHash export) n ])
  /\ (forall c, (run export).2 = Exit c ->
        c = 1
        /\ exists body,
             out = body
                   ++ [ ResultFailed (ChainHash export) n
                          (length (mismatchPositions (Blobs export)))
                          (length (breakPositions (Blobs export)))
                          (bool_decide
                             (computedChainHash export = ChainHash export)) ]
             /\ Forall (fun l => isVerdictLine l = false) body)
  /\ (forall err, (run export).2 = Panic err ->
        Forall (fun l => isVerdictLine l = false) out)
  /\ (forall h m, ResultVerified h m ∈ out -> verdict export = Verified).
Proof.
  intros out n.
  destruct (run_stdout export) as (d & Hdet%detail_not_verdict & Hout).
  pose proof (metadata_not_verdict export) as Hmeta.
  pose proof (summary_not_verdict export (run export).1) as Hsum.
  pose proof (chainHash_not_verdict export) as Hch.
  assert (forall c, (run export).2 = Exit c ->
        c = 1
        /\ exists body,
             out = body
                   ++ [ ResultFailed (ChainHash export) n
                          (length (mismatchPositions (Blobs export)))
                          (length (breakPositions (Blobs export)))
                          (bool_decide
                             (computedChainHash export = ChainHash export)) ]
             /\ Forall (fun l => isVerdictLine l = false) body) as Hexit.
  { intros c Hr. rewrite Hr in Hout. destruct Hout as [-> Hout].
    split; [reflexivity|].
    exists (metadataLines export ++ d ++ summaryLines export (run export).1
            ++ chainHashLines export).
    split; [unfold out; rewrite Hout; by rewrite <- !app_assoc|].
    by repeat apply Forall_app_2. }
  assert (forall err, (run export).2 = Panic err ->
            Forall (fun l => isVerdictLine l = false) out) as Hpanic.
  { intros err Hr. rewrite Hr in Hout. unfold out.
    destruct Hout as [-> | ->]; by repeat apply Forall_app_2. }
  split; [|split; [exact Hexit|split; [exact Hpanic|]]].
  - intros Hr. by rewrite Hr in Hout.
  - intros h m Hin. unfold verdict.
    destruct (run export).2 as [[]|c|err] eqn:Hr; [reflexivity| |].
    + destruct (Hexit c eq_refl) as (_ & body & Hbody & Hnv).
      rewrite Hbody in Hin. apply elem_of_app in Hin as [Hin|Hin].
      * rewrite Forall_forall in Hnv. by apply Hnv in Hin.
      * apply list_elem_of_singleton in Hin. discriminate Hin.
    + pose proof (Hpanic err eq_refl) as Hnv.
      rewrite Forall_forall in Hnv. by apply Hnv in Hin.
Qed.

(** X4.  The checks read of each blob only its hash input, its stored
    hash and its stored previous hash, and nothing else of the file than
    the metadata echo and the chain hash: two exports that agree on those
    run identically, line for line, with the same counters, result and
    verdict.  Blob id, blob timestamp, payload, deviation score and
    anomaly flag can therefore be changed without any trace in the
    report. *)
Theorem run_reads_only_checked_fields (e1 e2 : EvidenceExport) :
  metadataLines e1 = metadataLines e2 ->
  ChainHash e1 = ChainHash e2 ->
  Forall2 sameChecks (Blobs e1) (Blobs e2) ->
  run e1 = run e2 /\ verdict e1 = verdict e2.
Proof.
  intros Hm Hc HF. assert (run e1 = run e2) as H by (by apply run_cong).
  split; [exact H|]. unfold verdict. by rewrite H.
Qed.

Lemma run_reads_only_checked_fields_witness :
  map IsAnomaly (Blobs reflaggedExport) <> map IsAnomaly (Blobs goodExport)
  /\ map (fun b => Payload (Record_ b)) (Blobs reflaggedExport)
     <> map (fun b => Payload (Record_ b)) (Blobs goodExport)
  /\ run reflaggedExport = run goodExport
  /\ verdict reflaggedExport = verdict goodExport.
Proof.
  split; [vm_compute; intros H; discriminate H|].
  split; [vm_compute; intros H; discriminate H|].
  apply (run_reads_only_checked_fields reflaggedExport goodExport).
  - vm_compute. reflexivity.
  - reflexivity.
  - constructor; [|constructor; [|constructor]];
      (split; [|split]); vm_compute; reflexivity.
Defined.

(** X5.  When neither source address, destination address nor protocol
    of two blobs holds the separator "|", their hash inputs are equal
    exactly when the nine hashed values (the eight record fields and the
    previous hash) are equal; so equal recomputed hashes mean equal
    hashed values, unless the two hash inputs are a SHA-256 collision. *)
Theorem hashInput_determines_fields (x y : NetFlowBlob) :
  separatorFree x -> separatorFree y ->
  (hashInput x = hashInput y <-> sameHashedFields x y)
  /\ (computedHash x = computedHash y ->
      sameHashedFields x y \/ sha256_collision (hashInput x) (hashInput y)).
Proof.
  intros Hx Hy.
  assert (hashInput x = hashInput y -> sameHashedFields x y) as Hinj.
  { rewrite !hashInput_canonical. by apply canonicalInput_fields_inj. }
  split; [split; [exact Hinj|]|].
  - intros (H1 & H2 & H3 & H4 & H5 & H6 & H7 & H8 & H9).
    rewrite !hashInput_canonical, !canonicalInput_eq.
    by rewrite H1, H2, H3, H4, H5, H6, H7, H8, H9.
  - intros [E|E]%computedHash_eq_collision; [left; by apply Hinj|by right].
Qed.

Lemma hashInput_determines_fields_witness :
  separatorFree blobA /\ separatorFree blobB
  /\ (hashInput blobA = hashInput blobB <-> sameHashedFields blobA blobB).
Proof.
  assert (separatorFree blobA) as HA by ((split; [|split]); vm_compute; reflexivity).
  assert (separatorFree blobB) as HB by ((split; [|split]); vm_compute; reflexivity).
  split; [exact HA|]. split; [exact HB|].
  exact (proj1 (hashInput_determines_fields blobA blobB HA HB)).
Defined.

(** X6.  The hash input is not injective when a string field holds the
    separator: moving the text after a "|" of the source address to the
    front of the destination address changes both addresses, yet leaves
    the hash input and the recomputed hash of the blob as they were, and
    the run on the export with that blob replaced is the run on the
    original one (same lines, counters, result). *)
Theorem separator_shift_goes_unnoticed
    (export : EvidenceExport) (i : nat) (blob : NetFlowBlob) (a c : string) :
  Blobs export !! i = Some blob ->
  SrcIP (Record_ blob) = a +:+ "|" +:+ c ->
  let blob' := withAddresses a (c +:+ "|" +:+ DstIP (Record_ blob)) blob in
  SrcIP (Record_ blob') <> SrcIP (Record_ blob)
  /\ DstIP (Record_ blob') <> DstIP (Record_ blob)
  /\ hashInput blob' = hashInput blob
  /\ computedHash blob' = computedHash blob
  /\ run (withBlobs export (<[i:=blob']> (Blobs export))) = run export.
Proof.
  intros Hi Hsrc blob'.
  assert (hashInput blob' = hashInput blob) as Hin.
  { rewrite !hashInput_canonical, !canonicalInput_eq.
    cbn [blob' withAddresses Record_ SrcIP DstIP SrcPort DstPort Protocol
         Timestamp BytesSent PacketCount PreviousHash].
    rewrite Hsrc. by rewrite !string_app_assoc. }
  split; [|split; [|split; [exact Hin|split]]].
  - cbn [blob' withAddresses Record_ SrcIP]. rewrite Hsrc. intros E.
    symmetry in E. by apply string_app_ne_self in E.
  - cbn [blob' withAddresses Record_ DstIP]. intros E.
    apply (f_equal String.length) in E.
    rewrite !string_length_app in E. cbn in E. lia.
  - apply computedHash_ext. by rewrite <- !hashInput_canonical.
  - apply run_cong; [reflexivity| |reflexivity]. cbn [Blobs withBlobs].
    apply Forall2_same_length_lookup. split; [by rewrite length_insert|].
    intros j x y Hx Hy.
    apply list_lookup_insert_Some in Hx as [(-> & <- & _)|[_ Hx]].
    + rewrite Hi in Hy. injection Hy as <-. by split.
    + rewrite Hx in Hy. injection Hy as <-. by split.
Qed.

Lemma separator_shift_goes_unnoticed_witness :
  verdict pipedExport = Verified
  /\ run (withBlobs pipedExport
            (<[0%nat:=withAddresses "10.0.0.1"
                        ("10.0.0.9" +:+ "|" +:+ DstIP (Record_ pipedBlob))
                        pipedBlob]> (Blobs pipedExport)))
     = run pipedExport.
Proof.
  split; [vm_compute; reflexivity|].
  pose proof (separator_shift_goes_unnoticed pipedExport 0 pipedBlob
                "10.0.0.1" "10.0.0.9" eq_refl eq_refl) as H.
  cbv zeta in H. destruct H as (_ & _ & _ & _ & H). exact H.
Defined.

(** X7.  Changing the stored previous hash of the blob at position [i]
    of an export that passes the checks, all else left alone: the linkage
    check reports exactly one break, at [i], when [i > 0], and none when
    [i = 0] (the previous hash of the first blob is compared with
    nothing); the hash check reports exactly one mismatch, at [i], unless
    the old and the new hash input are a SHA-256 collision.  So the change
    is never Verified when [i > 0] or the collision is excluded, and the
    verdict is Tampered when the new value has at least 32 bytes. *)
Theorem previous_hash_change_detected
    (export : EvidenceExport) (i : nat) (blob : NetFlowBlob) (p : string) :
  verdict export = Verified ->
  Blobs export !! i = Some blob ->
  p <> PreviousHash blob ->
  let blobs' := <[i:=setPreviousHash p blob]> (Blobs export) in
  let detected :=
    (0 < i)%nat
    \/ ~ sha256_collision (hashInput blob) (hashInput (setPreviousHash p blob)) in
  breakPositions blobs' = match i with O => [] | S _ => [i] end
  /\ (~ sha256_collision (hashInput blob) (hashInput (setPreviousHash p blob))
      -> mismatchPositions blobs' = [i])
  /\ (detected -> verdict (withBlobs export blobs') <> Verified)
  /\ (detected -> (32 <= String.length p)%nat ->
      verdict (withBlobs export blobs') = Tampered).
Proof.
  intros Hv Hi Hp blobs' detected.
  apply verdict_Verified_iff in Hv as (Hm & Hb & Hc).
  assert (breakPositions blobs' = match i with O => [] | S _ => [i] end)
    as Hbreaks by (by apply breakPositions_insert_prev).
  assert (~ sha256_collision (hashInput blob) (hashInput (setPreviousHash p blob))
          -> mismatchPositions blobs' = [i]) as Hmis.
  { intros Hnc. unfold blobs', mismatchPositions, positions.
    rewrite (positionsFrom_mismatch_insert _ 0 i blob _ Hm Hi).
    unfold mismatchb. cbn [Hash setPreviousHash].
    rewrite bool_decide_eq_true_2; [done|].
    rewrite (verified_hashes _ _ _ Hm Hi). intros E.
    apply computedHash_eq_collision in E as [E|[Hne E]].
    - by apply hashInput_setPreviousHash in E.
    - apply Hnc. split; [by intros E'|done]. }
  assert (detected -> verdict (withBlobs export blobs') <> Verified) as Hnv.
  { intros Hd Hv'. apply verdict_Verified_iff in Hv' as (Hm' & Hb' & _).
    cbn [Blobs withBlobs] in Hm', Hb'. destruct Hd as [Hpos|Hnc].
    - rewrite Hbreaks in Hb'. destruct i; [lia|discriminate Hb'].
    - rewrite (Hmis Hnc) in Hm'. discriminate Hm'. }
  split; [exact Hbreaks|]. split; [exact Hmis|]. split; [exact Hnv|].
  intros Hd Hlen. apply verdict_not_crashed; [|by apply Hnv].
  assert (forall j x, blobs' !! j = Some x -> String.length (Hash x) = 64%nat)
    as Hlen64.
  { intros j x Hj. unfold blobs' in Hj.
    apply list_lookup_insert_Some in Hj as [(-> & <- & _)|[_ Hj]].
    - cbn [Hash setPreviousHash]. by eapply stored_hash_length.
    - by eapply stored_hash_length. }
  apply run_no_panic; cbn [Blobs ChainHash withBlobs].
  - intros j x Hj _. rewrite (Hlen64 _ _ Hj). lia.
  - intros j prev x Hj HSj Hne. rewrite (Hlen64 _ _ Hj). split; [lia|].
    unfold blobs' in HSj.
    apply list_lookup_insert_Some in HSj as [(_ & <- & _)|[Hne' HSj]].
    + exact Hlen.
    + destruct (Blobs export !! j) as [prev0|] eqn:Hprev0.
      * rewrite (verified_links _ _ _ _ Hb Hprev0 HSj).
        rewrite (stored_hash_length _ _ _ Hm Hprev0). lia.
      * apply lookup_ge_None in Hprev0. apply lookup_lt_Some in HSj. lia.
  - rewrite <- Hc, computedChainHash_length. lia.
Qed.

Lemma previous_hash_change_detected_witness :
  breakPositions (<[1%nat:=setPreviousHash genesisHash blobB]> (Blobs goodExport))
  = [1%nat]
  /\ verdict (withBlobs goodExport
                (<[1%nat:=setPreviousHash genesisHash blobB]> (Blobs goodExport)))
     = Tampered.
Proof.
  assert (verdict goodExport = Verified) as Hv by (vm_compute; reflexivity).
  assert (genesisHash <> PreviousHash blobB) as Hp
    by (vm_compute; intros H; discriminate H).
  pose proof (previous_hash_change_detected goodExport 1 blobB genesisHash
                Hv eq_refl Hp) as H.
  cbv zeta in H. destruct H as (Hb & _ & _ & Ht).
  split; [exact Hb|]. apply Ht; [left; apply Nat.lt_0_1|].
  vm_compute. apply Nat.leb_le. reflexivity.
Defined.

(** X8.  Two exports that both pass the checks and store the same chain
    hash have, position by position, the same stored hashes and the same
    hash inputs, unless SHA-256 collides on the two chain hash inputs or
    on the hash inputs of two blobs at the same position. *)
Theorem chain_hash_binds_blobs (e1 e2 : EvidenceExport) :
  verdict e1 = Verified -> verdict e2 = Verified ->
  ChainHash e1 = ChainHash e2 ->
  Forall2 (fun x y => Hash x = Hash y /\ hashInput x = hashInput y)
    (Blobs e1) (Blobs e2)
  \/ sha256_collision (chainHashInput e1) (chainHashInput e2)
  \/ exists i x y,
       Blobs e1 !! i = Some x /\ Blobs e2 !! i = Some y
       /\ sha256_collision (hashInput x) (hashInput y).
Proof.
  intros (Hm1 & _ & Hc1)%verdict_Verified_iff
         (Hm2 & _ & Hc2)%verdict_Verified_iff Hch.
  assert (computedChainHash e1 = computedChainHash e2) as Hcc
    by (by rewrite Hc1, Hc2).
  rewrite !computedChainHash_sha256_hex in Hcc.
  apply sha256_hex_eq_collision in Hcc as [Heq|Hcol]; [|by right; left].
  rewrite !chainHashInput_concat in Heq.
  apply concat_hashes_inj in Heq; [|by apply verified_hash_lengths..].
  destruct (same_hash_same_input _ _ Heq) as [Hall|Hcol];
    [by apply verified_hashes_computed..| |].
  - by left.
  - by right; right.
Qed.

Lemma chain_hash_binds_blobs_witness :
  Forall2 (fun x y => Hash x = Hash y /\ hashInput x = hashInput y)
    (Blobs goodExport) (Blobs reflaggedExport)
  \/ sha256_collision (chainHashInput goodExport) (chainHashInput reflaggedExport)
  \/ exists i x y,
       Blobs goodExport !! i = Some x /\ Blobs reflaggedExport !! i = Some y
       /\ sha256_collision (hashInput x) (hashInput y).
Proof.
  apply (chain_hash_binds_blobs goodExport reflaggedExport).
  - vm_compute. reflexivity.
  - vm_compute. reflexivity.
  - reflexivity.
Defined.

(** X9.  Any contiguous segment of the blobs of an export that passes
    the checks (a prefix, a suffix, a slice) passes the hash check and the
    linkage check, whatever the previous hash of its first blob refers
    to, and with its own chain hash stored it is Verified.  With the old
    chain hash left in place a properly shorter segment is Tampered: only
    the chain hash comparison notices the missing blobs (unless the two
    chain hash inputs are a SHA-256 collision). *)
Theorem verified_segment_verifies (export : EvidenceExport) (k n : nat) :
  verdict export = Verified ->
  let segment := take n (drop k (Blobs export)) in
  verdict (rechained export segment) = Verified
  /\ mismatchPositions segment = [] /\ breakPositions segment = []
  /\ ((length segment < length (Blobs export))%nat ->
      ~ sha256_collision (chainHashInput (withBlobs export segment))
                         (chainHashInput export) ->
      verdict (withBlobs export segment) = Tampered).
Proof.
  intros Hv segment. apply verdict_Verified_iff in Hv as (Hm & Hb & Hc).
  pose proof (mismatchPositions_segment _ k n Hm) as Hm'.
  pose proof (breakPositions_segment _ k n Hb) as Hb'.
  fold segment in Hm', Hb'.
  split; [|split; [exact Hm'|split; [exact Hb'|]]].
  - apply verdict_Verified_iff. cbn [Blobs ChainHash rechained].
    split; [exact Hm'|]. split; [exact Hb'|].
    by rewrite computedChainHash_chainHashOf.
  - intros Hlen Hnc. apply verdict_not_crashed.
    + apply run_no_panic; cbn [Blobs ChainHash withBlobs].
      * by apply no_mismatch_reportable.
      * by apply no_break_reportable.
      * rewrite <- Hc, computedChainHash_length. lia.
    + intros Hv'. apply verdict_Verified_iff in Hv' as (_ & _ & Hc').
      cbn [ChainHash withBlobs] in Hc'. rewrite <- Hc in Hc'.
      rewrite !computedChainHash_sha256_hex in Hc'.
      apply sha256_hex_eq_collision in Hc' as [E|E]; [|by apply Hnc].
      apply (f_equal String.length) in E.
      rewrite !chainHashInput_concat in E. cbn [Blobs withBlobs] in E.
      rewrite !concat_hashes_length in E by (by apply verified_hash_lengths).
      lia.
Qed.

Lemma verified_segment_verifies_witness :
  verdict (rechained goodExport (take 1 (drop 1 (Blobs goodExport)))) = Verified
  /\ verdict (withBlobs goodExport (take 1 (drop 1 (Blobs goodExport))))
     = Tampered.
Proof.
  assert (verdict goodExport = Verified) as Hv by (vm_compute; reflexivity).
  pose proof (verified_segment_verifies goodExport 1 1 Hv) as H.
  cbv zeta in H. destruct H as (Hseg & _ & _ & Ht).
  split; [exact Hseg|]. apply Ht.
  - apply Nat.leb_le. reflexivity.
  - intros [_ Hc]. vm_compute in Hc. discriminate Hc.
Defined.

(** X10.  The checks involve no secret: for any blobs whatever, the
    chain obtained by recomputing previous hash and hash of each blob in
    turn, stored with its recomputed chain hash, is Verified with exit
    status 0, and it carries the given records, blob ids, blob
    timestamps, deviation scores and anomaly flags unchanged. *)
Theorem any_records_can_be_sealed
    (export : EvidenceExport) (prev : string) (blobs : list NetFlowBlob) :
  let forged := rechained export (sealChain prev blobs) in
  verdict forged = Verified
  /\ exitStatus (run forged).2 = 0
  /\ Forall2 (fun sealed b =>
                Record_ sealed = Record_ b /\ BlobID sealed = BlobID b
                /\ BlobTimestamp sealed = BlobTimestamp b
                /\ DeviationScore sealed = DeviationScore b
                /\ IsAnomaly sealed = IsAnomaly b)
       (Blobs forged) blobs.
Proof.
  intros forged.
  assert (verdict forged = Verified) as Hv.
  { apply verdict_Verified_iff. cbn [forged Blobs ChainHash rechained].
    split; [apply mismatchPositions_sealChain|].
    split; [apply breakPositions_sealChain|].
    by rewrite computedChainHash_chainHashOf. }
  split; [exact Hv|]. split; [|apply sealChain_records].
  unfold verdict in Hv. by destruct (run forged).2.
Qed.

(** X11.  The inputs on which the verifier crashes.  A run panics exactly
    when one of the first three mismatching blobs has a stored hash
    shorter than 32 bytes, or one of the first three breaking blobs has a
    stored previous hash shorter than 32 bytes or a predecessor whose
    stored hash is, or the stored chain hash is shorter than 32 bytes. *)
Theorem run_panics_iff (export : EvidenceExport) :
  (exists err, (run export).2 = Panic err) <->
  (exists j, j ∈ take 3 (mismatchPositions (Blobs export))
             /\ shortHashAt (Blobs export) j)
  \/ (exists j, j ∈ take 3 (breakPositions (Blobs export))
                /\ shortLinkAt (Blobs export) j)
  \/ (String.length (ChainHash export) < 32)%nat.
Proof.
  rewrite run_verifyChain. cbn [snd]. rewrite verifyChain_unfold. cbv zeta.
  pose proof (forRange_panics_iff export (Blobs export) 0 initial eq_refl)
    as Hloop.
  cbn [blobHashErrors chainErrors initial Nat.sub] in Hloop.
  fold (verifyBlobs export) in Hloop.
  fold (positions (fun _ => mismatchb) (Blobs export)) in Hloop.
  fold (mismatchPositions (Blobs export)) in Hloop.
  fold (positions (breakb (Blobs export)) (Blobs export)) in Hloop.
  fold (breakPositions (Blobs export)) in Hloop.
  destruct (verifyBlobs export initial) as [st1 [[]|c|err]] eqn:Hrun.
  - assert (~ ((exists j, j ∈ take 3 (mismatchPositions (Blobs export))
                          /\ shortHashAt (Blobs export) j)
               \/ (exists j, j ∈ take 3 (breakPositions (Blobs export))
                             /\ shortLinkAt (Blobs export) j))) as Hnone.
    { intros H. apply Hloop in H as (? & ? & [=]). }
    destruct (Nat.leb_spec 32 (String.length (ChainHash export))) as [Hle|Hlt].
    + split.
      * destruct (_ && _ && _); by intros (? & [=]).
      * intros [H|[H|H]]; [destruct Hnone; by left|destruct Hnone; by right|lia].
    + split; [intros _; by right; right|intros _; by eexists].
  - by apply forRange_no_exit in Hrun.
  - split; [intros _|intros _; by exists err].
    destruct (proj1 Hloop) as [H|H]; [by exists st1, err|by left|by right; left].
Qed.
